(** * EduIA page: session, points and history

    Shallow embedding of [src/app/page.tsx] (the [Page] component): the
    string helpers its handlers rely on, the classification heuristic, the
    history filter, the [sendMessage] handler split at its single [await],
    the purchase handler, the localStorage effects, and the page as a
    transition system over events.

    Conventions of the embedding.
    - A JavaScript string is a sequence of UTF-16 code units.  The model
      keeps the code units below 256 (the Latin-1 block), one [ascii] per
      unit, so [String.length] is the JS [length] and [toLowerCase] acts
      unit by unit.
    - A JavaScript number holding a point balance is an exact integer or
      [NaN] (what [parseInt] yields on text without digits); this is the
      behaviour of doubles on integers below 2^53.
    - React state is one record.  A handler runs on the record of the
      current render (React re-renders before it delivers the next click,
      key press, timer or promise continuation); its updater functions
      ([setX(prev => ...)]) act on the record current when they run, and
      what an [async] handler keeps across its [await] is kept explicitly.
    - Values the code draws from the environment ([generateId()], the
      clock, the result of the generation call) are arguments.
    - [localStorage] is a finite map from keys to text, or unusable. *)

From Stdlib Require Import ZArith Lia Bool Ascii String List.
From stdpp Require Import base tactics option list strings gmap.

Local Open Scope Z_scope.

(** ** Strings *)

Module JsString.

Definition code (c : ascii) : N := N_of_ascii c.

(** [String.prototype.toLowerCase] on one Latin-1 code unit: A-Z and the
    accented capitals U+00C0-U+00DE (U+00D7, the multiplication sign,
    excepted) move up by 32. *)
Definition lower_unit (c : ascii) : ascii :=
  let n := code c in
  if ((65 <=? n) && (n <=? 90) ||
      (192 <=? n) && (n <=? 222) && negb (n =? 215))%N
  then ascii_of_N (n + 32) else c.

Fixpoint toLowerCase (s : string) : string :=
  match s with
  | EmptyString => EmptyString
  | String c s' => String (lower_unit c) (toLowerCase s')
  end.

(** White space and line terminators of ECMAScript below U+0100. *)
Definition is_white (c : ascii) : bool :=
  let n := code c in
  ((9 <=? n) && (n <=? 13) || (n =? 32) || (n =? 160))%N.

Fixpoint trimStart (s : string) : string :=
  match s with
  | EmptyString => EmptyString
  | String c s' => if is_white c then trimStart s' else s
  end.

Definition is_empty (s : string) : bool :=
  match s with EmptyString => true | _ => false end.

Fixpoint trimEnd (s : string) : string :=
  match s with
  | EmptyString => EmptyString
  | String c s' =>
      let t := trimEnd s' in
      if is_white c && is_empty t then EmptyString else String c t
  end.

Definition trim (s : string) : string := trimEnd (trimStart s).

Fixpoint startsWith (s needle : string) {struct needle} : bool :=
  match needle, s with
  | EmptyString, _ => true
  | String _ _, EmptyString => false
  | String a needle', String b s' =>
      if Ascii.eqb a b then startsWith s' needle' else false
  end.

(** [s.includes(needle)]. *)
Fixpoint includes (s needle : string) : bool :=
  if startsWith s needle then true
  else match s with
       | EmptyString => false
       | String _ s' => includes s' needle
       end.

(** [s.substring(from, to)], which swaps its bounds when [from > to]. *)
Definition substring (s : string) (from to : nat) : string :=
  let lo := Nat.min from to in
  let hi := Nat.max from to in
  String.substring lo (hi - lo) s.

(** A string in a boolean position: only the empty string is falsy. *)
Definition truthy (s : string) : bool := negb (is_empty s).

(** [a || b] on strings. *)
Definition or_else (a b : string) : string := if truthy a then a else b.

(** [a || b] where [a] may be [undefined]. *)
Definition opt_or_else (a : option string) (b : string) : string :=
  match a with
  | Some x => or_else x b
  | None => b
  end.

End JsString.

Import JsString.

(** ** Data model (the two interfaces of the page) *)

Inductive Role := user | assistant.

Global Instance Role_eq_dec : EqDecision Role.
Proof. solve_decision. Defined.

Record ArtifactFile := { file_url : string }.

Record ChatMessage := {
  msg_id : string;
  role : Role;
  content : string;
  timestamp : string;
  artifactFiles : option (list ArtifactFile)
}.

Record HistoryEntry := {
  entry_id : string;
  topic : string;
  level : string;
  format : string;
  pageCount : Z;
  entry_content : string;
  date : string;
  pointCost : Z;
  entry_messages : list ChatMessage
}.

Definition AGENT_ID : string := "6998de3ee5ae4890f6e2bfa0".
Definition POINTS_PER_GENERATION : Z := 75.
Definition INITIAL_POINTS : Z := 250.

(** ** Classification heuristic (inlined in [sendMessage]) *)

Definition level_of (topic : string) : string :=
  let lowerTopic := toLowerCase topic in
  if includes lowerTopic "fundamental" || includes lowerTopic "basico"
  then "Fundamental"
  else if includes lowerTopic "medio" || includes lowerTopic "ensino medio"
  then "Medio"
  else if includes lowerTopic "tecnico" || includes lowerTopic "tecnologo"
  then "Tecnico"
  else "Faculdade".

Definition format_of (topic : string) : string :=
  let lowerTopic := toLowerCase topic in
  if includes lowerTopic "slide" || includes lowerTopic "apresentacao"
     || includes lowerTopic "powerpoint"
  then "slides"
  else "documento".

Definition classify (topic : string) : string * string :=
  (level_of topic, format_of topic).

(** [topic.length > 80 ? topic.substring(0, 80) + '...' : topic] *)
Definition truncate_topic (topic : string) : string :=
  if (80 <? String.length topic)%nat
  then substring topic 0 80 +:+ "..."
  else topic.

(** ** History filter *)

Definition entry_matches (historySearch historyLevelFilter historyFormatFilter : string)
    (entry : HistoryEntry) : bool :=
  let matchesSearch :=
    negb (truthy historySearch)
    || includes (toLowerCase (topic entry)) (toLowerCase historySearch) in
  let matchesLevel :=
    bool_decide (historyLevelFilter = "all")
    || bool_decide (level entry = historyLevelFilter) in
  let matchesFormat :=
    bool_decide (historyFormatFilter = "all")
    || bool_decide (format entry = historyFormatFilter) in
  matchesSearch && matchesLevel && matchesFormat.

Definition filteredHistory (historySearch historyLevelFilter historyFormatFilter : string)
    (displayHistory : list HistoryEntry) : list HistoryEntry :=
  List.filter (entry_matches historySearch historyLevelFilter historyFormatFilter)
    displayHistory.

(** ** Numbers *)

Inductive number := NaN | Num (z : Z).

Global Instance number_eq_dec : EqDecision number.
Proof. solve_decision. Defined.

Definition num_lt (a b : number) : bool :=
  match a, b with
  | Num x, Num y => x <? y
  | _, _ => false
  end.

Definition num_add (a b : number) : number :=
  match a, b with
  | Num x, Num y => Num (x + y)
  | _, _ => NaN
  end.

Definition num_sub (a b : number) : number :=
  match a, b with
  | Num x, Num y => Num (x - y)
  | _, _ => NaN
  end.

Definition Math_max (a b : number) : number :=
  match a, b with
  | Num x, Num y => Num (Z.max x y)
  | _, _ => NaN
  end.

(** ** Component state: the [useState] cells of [Page] that the handlers
    and effects below read or write. *)

Inductive Screen := dashboard | chat | history_screen | buy.

Record State := {
  activeScreen : Screen;
  mobileMenuOpen : bool;
  showBuyModal : bool;
  points : number;
  messages : list ChatMessage;
  inputValue : string;
  isGenerating : bool;
  chatError : string;
  chatSuccess : string;
  userId : string;
  sessionId : string;
  history : list HistoryEntry;
  activeAgentId : option string;
  purchaseSuccess : string
}.

(** The state of the first render: every [useState] initial value. *)
Definition initial_state : State := {|
  activeScreen := dashboard;
  mobileMenuOpen := false;
  showBuyModal := false;
  points := Num INITIAL_POINTS;
  messages := [];
  inputValue := "";
  isGenerating := false;
  chatError := "";
  chatSuccess := "";
  userId := "";
  sessionId := "";
  history := [];
  activeAgentId := None;
  purchaseSuccess := ""
|}.

(** State setters.  [setX v] is React's [setX(v)]; the functional form
    [setX(prev => f prev)] is [setX_with f]. *)

Definition setActiveScreen (v : Screen) (s : State) : State :=
  {| activeScreen := v; mobileMenuOpen := mobileMenuOpen s;
     showBuyModal := showBuyModal s; points := points s;
     messages := messages s; inputValue := inputValue s;
     isGenerating := isGenerating s; chatError := chatError s;
     chatSuccess := chatSuccess s; userId := userId s;
     sessionId := sessionId s; history := history s;
     activeAgentId := activeAgentId s; purchaseSuccess := purchaseSuccess s |}.

Definition setMobileMenuOpen (v : bool) (s : State) : State :=
  {| activeScreen := activeScreen s; mobileMenuOpen := v;
     showBuyModal := showBuyModal s; points := points s;
     messages := messages s; inputValue := inputValue s;
     isGenerating := isGenerating s; chatError := chatError s;
     chatSuccess := chatSuccess s; userId := userId s;
     sessionId := sessionId s; history := history s;
     activeAgentId := activeAgentId s; purchaseSuccess := purchaseSuccess s |}.

Definition setShowBuyModal (v : bool) (s : State) : State :=
  {| activeScreen := activeScreen s; mobileMenuOpen := mobileMenuOpen s;
     showBuyModal := v; points := points s; messages := messages s;
     inputValue := inputValue s; isGenerating := isGenerating s;
     chatError := chatError s; chatSuccess := chatSuccess s;
     userId := userId s; sessionId := sessionId s; history := history s;
     activeAgentId := activeAgentId s; purchaseSuccess := purchaseSuccess s |}.

Definition setPoints (v : number) (s : State) : State :=
  {| activeScreen := activeScreen s; mobileMenuOpen := mobileMenuOpen s;
     showBuyModal := showBuyModal s; points := v; messages := messages s;
     inputValue := inputValue s; isGenerating := isGenerating s;
     chatError := chatError s; chatSuccess := chatSuccess s;
     userId := userId s; sessionId := sessionId s; history := history s;
     activeAgentId := activeAgentId s; purchaseSuccess := purchaseSuccess s |}.

Definition setMessages (v : list ChatMessage) (s : State) : State :=
  {| activeScreen := activeScreen s; mobileMenuOpen := mobileMenuOpen s;
     showBuyModal := showBuyModal s; points := points s; messages := v;
     inputValue := inputValue s; isGenerating := isGenerating s;
     chatError := chatError s; chatSuccess := chatSuccess s;
     userId := userId s; sessionId := sessionId s; history := history s;
     activeAgentId := activeAgentId s; purchaseSuccess := purchaseSuccess s |}.

Definition setInputValue (v : string) (s : State) : State :=
  {| activeScreen := activeScreen s; mobileMenuOpen := mobileMenuOpen s;
     showBuyModal := showBuyModal s; points := points s;
     messages := messages s; inputValue := v;
     isGenerating := isGenerating s; chatError := chatError s;
     chatSuccess := chatSuccess s; userId := userId s;
     sessionId := sessionId s; history := history s;
     activeAgentId := activeAgentId s; purchaseSuccess := purchaseSuccess s |}.

Definition setIsGenerating (v : bool) (s : State) : State :=
  {| activeScreen := activeScreen s; mobileMenuOpen := mobileMenuOpen s;
     showBuyModal := showBuyModal s; points := points s;
     messages := messages s; inputValue := inputValue s; isGenerating := v;
     chatError := chatError s; chatSuccess := chatSuccess s;
     userId := userId s; sessionId := sessionId s; history := history s;
     activeAgentId := activeAgentId s; purchaseSuccess := purchaseSuccess s |}.

Definition setChatError (v : string) (s : State) : State :=
  {| activeScreen := activeScreen s; mobileMenuOpen := mobileMenuOpen s;
     showBuyModal := showBuyModal s; points := points s;
     messages := messages s; inputValue := inputValue s;
     isGenerating := isGenerating s; chatError := v;
     chatSuccess := chatSuccess s; userId := userId s;
     sessionId := sessionId s; history := history s;
     activeAgentId := activeAgentId s; purchaseSuccess := purchaseSuccess s |}.

Definition setChatSuccess (v : string) (s : State) : State :=
  {| activeScreen := activeScreen s; mobileMenuOpen := mobileMenuOpen s;
     showBuyModal := showBuyModal s; points := points s;
     messages := messages s; inputValue := inputValue s;
     isGenerating := isGenerating s; chatError := chatError s;
     chatSuccess := v; userId := userId s; sessionId := sessionId s;
     history := history s; activeAgentId := activeAgentId s;
     purchaseSuccess := purchaseSuccess s |}.

Definition setUserId (v : string) (s : State) : State :=
  {| activeScreen := activeScreen s; mobileMenuOpen := mobileMenuOpen s;
     showBuyModal := showBuyModal s; points := points s;
     messages := messages s; inputValue := inputValue s;
     isGenerating := isGenerating s; chatError := chatError s;
     chatSuccess := chatSuccess s; userId := v; sessionId := sessionId s;
     history := history s; activeAgentId := activeAgentId s;
     purchaseSuccess := purchaseSuccess s |}.

Definition setSessionId (v : string) (s : State) : State :=
  {| activeScreen := activeScreen s; mobileMenuOpen := mobileMenuOpen s;
     showBuyModal := showBuyModal s; points := points s;
     messages := messages s; inputValue := inputValue s;
     isGenerating := isGenerating s; chatError := chatError s;
     chatSuccess := chatSuccess s; userId := userId s; sessionId := v;
     history := history s; activeAgentId := activeAgentId s;
     purchaseSuccess := purchaseSuccess s |}.

Definition setHistory (v : list HistoryEntry) (s : State) : State :=
  {| activeScreen := activeScreen s; mobileMenuOpen := mobileMenuOpen s;
     showBuyModal := showBuyModal s; points := points s;
     messages := messages s; inputValue := inputValue s;
     isGenerating := isGenerating s; chatError := chatError s;
     chatSuccess := chatSuccess s; userId := userId s;
     sessionId := sessionId s; history := v;
     activeAgentId := activeAgentId s; purchaseSuccess := purchaseSuccess s |}.

Definition setActiveAgentId (v : option string) (s : State) : State :=
  {| activeScreen := activeScreen s; mobileMenuOpen := mobileMenuOpen s;
     showBuyModal := showBuyModal s; points := points s;
     messages := messages s; inputValue := inputValue s;
     isGenerating := isGenerating s; chatError := chatError s;
     chatSuccess := chatSuccess s; userId := userId s;
     sessionId := sessionId s; history := history s; activeAgentId := v;
     purchaseSuccess := purchaseSuccess s |}.

Definition setPurchaseSuccess (v : string) (s : State) : State :=
  {| activeScreen := activeScreen s; mobileMenuOpen := mobileMenuOpen s;
     showBuyModal := showBuyModal s; points := points s;
     messages := messages s; inputValue := inputValue s;
     isGenerating := isGenerating s; chatError := chatError s;
     chatSuccess := chatSuccess s; userId := userId s;
     sessionId := sessionId s; history := history s;
     activeAgentId := activeAgentId s; purchaseSuccess := v |}.

Definition setPoints_with (f : number -> number) (s : State) : State :=
  setPoints (f (points s)) s.

Definition setMessages_with (f : list ChatMessage -> list ChatMessage) (s : State) : State :=
  setMessages (f (messages s)) s.

Definition setHistory_with (f : list HistoryEntry -> list HistoryEntry) (s : State) : State :=
  setHistory (f (history s)) s.

(** ** The generation call and what [sendMessage] reads from its result *)

(** Arguments of [callAIAgent(trimmed, AGENT_ID, {user_id, session_id})]. *)
Record CallRequest := {
  req_message : string;
  req_agent : string;
  req_user_id : string;
  req_session_id : string
}.

(** The fields of the resolved value that the handler probes.
    [extracted] is the value of [extractText(result.response)], a helper
    of [@/lib/aiAgent] whose result the handler only consumes. *)
Record AgentResult := {
  success : bool;
  response_text : option string;      (* result?.response?.result?.response *)
  extracted : string;                 (* extractText(result.response) *)
  artifact_files : option (list ArtifactFile);
                                      (* Some l iff module_outputs.artifact_files is an array *)
  error : option string;              (* result?.error *)
  response_message : option string    (* result?.response?.message *)
}.

(** The awaited promise either resolves or rejects. *)
Inductive Outcome := Resolved (r : AgentResult) | Rejected.

(** Values the handler draws from the environment after the call returns:
    two [generateId()] results, [getTimestamp()] and [getDateString()]. *)
Record Stamp := {
  assistant_id : string;
  assistant_time : string;
  new_entry_id : string;
  today : string
}.

(** What the continuation after [await] still holds from the render in
    which the handler started: [trimmed], the [messages] of that render and
    the user message it built. *)
Record Pending := {
  request : CallRequest;
  k_trimmed : string;
  k_messages : list ChatMessage;
  k_userMessage : ChatMessage
}.

(** [messages.find(m => m.role === 'user')] *)
Definition find_user (ms : list ChatMessage) : option ChatMessage :=
  List.find (fun m => bool_decide (role m = user)) ms.

(** [firstUserMsg?.content || trimmed] *)
Definition topic_source (ms : list ChatMessage) (trimmed : string) : string :=
  opt_or_else (content <$> find_user ms) trimmed.

(** ** [sendMessage], up to the [await] *)

Definition sendMessage_begin (newId now : string) (s : State)
  : State * option Pending :=
  let trimmed := trim (inputValue s) in
  if negb (truthy trimmed) || isGenerating s then (s, None)
  else if num_lt (points s) (Num POINTS_PER_GENERATION)
  then (setShowBuyModal true s, None)
  else
    let s1 := setChatError "" s in
    let s1 := setChatSuccess "" s1 in
    let userMessage :=
      {| msg_id := newId; role := user; content := trimmed;
         timestamp := now; artifactFiles := None |} in
    let s1 := setMessages_with (fun prev => prev ++ [userMessage]) s1 in
    let s1 := setInputValue "" s1 in
    let s1 := setIsGenerating true s1 in
    let s1 := setActiveAgentId (Some AGENT_ID) s1 in
    (s1, Some {| request := {| req_message := trimmed; req_agent := AGENT_ID;
                               req_user_id := userId s;
                               req_session_id := sessionId s |};
                 k_trimmed := trimmed;
                 k_messages := messages s;
                 k_userMessage := userMessage |}).

(** The history entry built in the success branch. *)
Definition make_entry (p : Pending) (st : Stamp) (text : string)
    (assistantMessage : ChatMessage) : HistoryEntry :=
  let topic := topic_source (k_messages p) (k_trimmed p) in
  {| entry_id := new_entry_id st;
     topic := truncate_topic topic;
     level := level_of topic;
     format := format_of topic;
     pageCount := 0;
     entry_content := text;
     date := today st;
     pointCost := POINTS_PER_GENERATION;
     entry_messages := k_messages p ++ [k_userMessage p; assistantMessage] |}.

Definition result_text (r : AgentResult) : string :=
  or_else (opt_or_else (response_text r) (extracted r)) "".

Definition make_assistant (st : Stamp) (r : AgentResult) : ChatMessage :=
  let artifactFiles := default [] (artifact_files r) in
  {| msg_id := assistant_id st; role := assistant;
     content := result_text r;
     timestamp := assistant_time st;
     artifactFiles :=
       if (0 <? length artifactFiles)%nat then Some artifactFiles else None |}.

Definition error_text (r : AgentResult) : string :=
  opt_or_else (error r)
    (opt_or_else (response_message r) "Erro ao gerar conteudo. Tente novamente.").

(** ** [sendMessage], from the [await] on: the [try] body after the call,
    the [catch] and the [finally]. *)

Definition sendMessage_settle (p : Pending) (o : Outcome) (st : Stamp)
    (s : State) : State :=
  let s :=
    match o with
    | Resolved r =>
        if success r then
          let assistantMessage := make_assistant st r in
          let s := setMessages_with (fun prev => prev ++ [assistantMessage]) s in
          let s := setPoints_with
                     (fun prev => Math_max (Num 0)
                                    (num_sub prev (Num POINTS_PER_GENERATION))) s in
          let entry := make_entry p st (result_text r) assistantMessage in
          let s := setHistory_with (fun prev => entry :: prev) s in
          setChatSuccess "Conteudo gerado com sucesso!" s
        else setChatError (error_text r) s
    | Rejected =>
        setChatError "Erro de conexao. Verifique sua internet e tente novamente." s
    end in
  let s := setIsGenerating false s in
  setActiveAgentId None s.

(** The timer armed on success: [setTimeout(() => setChatSuccess(''), 4000)]. *)
Definition chatSuccess_timeout (s : State) : State := setChatSuccess "" s.

(** The timer armed by a purchase:
    [setTimeout(() => setPurchaseSuccess(''), 4000)]. *)
Definition purchaseSuccess_timeout (s : State) : State := setPurchaseSuccess "" s.

(** ** [handleBuyPoints] and [startNewWork] (state part) *)

(** [amountText] is [amount.toLocaleString('pt-BR')], display text
    produced by the platform. *)
Definition handleBuyPoints (amount : Z) (amountText : string) (s : State) : State :=
  let s := setPoints_with (fun prev => num_add prev (Num amount)) s in
  let s := setShowBuyModal false s in
  setPurchaseSuccess (amountText +:+ " pontos adicionados com sucesso!") s.

(** The three call sites of [handleBuyPoints] in the purchase dialog. *)
Inductive Plan := Basico | Popular | Premium.

Definition plan_points (p : Plan) : Z :=
  match p with
  | Basico => 1000
  | Popular => 2500
  | Premium => 4000
  end.

Definition startNewWork_state (newSessionId : string) (s : State) : State :=
  let s := setSessionId newSessionId s in
  let s := setMessages [] s in
  let s := setChatError "" s in
  let s := setChatSuccess "" s in
  let s := setActiveScreen chat s in
  setMobileMenuOpen false s.

(** ** Decimal text of the balance *)

Module Decimal.

Definition digit_char (d : Z) : ascii := ascii_of_N (48 + Z.to_N d).

Definition digit_val (c : ascii) : option Z :=
  let n := code c in
  if ((48 <=? n) && (n <=? 57))%N then Some (Z.of_N n - 48) else None.

(** The decimal digits of [n >= 0], most significant first, in front of
    [acc]; [fuel] bounds the number of digits. *)
Fixpoint digits (fuel : nat) (n : Z) (acc : string) : string :=
  match fuel with
  | O => acc
  | S fuel' =>
      let acc' := String (digit_char (n mod 10)) acc in
      if n <? 10 then acc' else digits fuel' (n / 10) acc'
  end.

Definition of_nonneg (n : Z) : string :=
  digits (S (Z.to_nat (Z.log2 n))) n "".

Definition of_Z (z : Z) : string :=
  if z <? 0 then String "-" (of_nonneg (- z)) else of_nonneg z.

(** The longest prefix of digits, read as a number on top of [acc], and
    the text after it. *)
Fixpoint read_digits (acc : Z) (s : string) : Z * string :=
  match s with
  | EmptyString => (acc, s)
  | String c s' =>
      match digit_val c with
      | Some d => read_digits (10 * acc + d) s'
      | None => (acc, s)
      end
  end.

Definition starts_with_digit (s : string) : bool :=
  match s with
  | String c _ => bool_decide (is_Some (digit_val c))
  | EmptyString => false
  end.

End Decimal.

(** [n.toString()] for an integer below 10^21 in magnitude, or [NaN]. *)
Definition toString (n : number) : string :=
  match n with
  | NaN => "NaN"
  | Num z => Decimal.of_Z z
  end.

(** [parseInt(s, 10)]: leading white space, an optional sign, then the
    longest run of decimal digits; [NaN] when there is none. *)
Definition parseInt (s : string) : number :=
  let s := trimStart s in
  let '(negative, s) :=
    match s with
    | String "-" r => (true, r)
    | String "+" r => (false, r)
    | _ => (false, s)
    end in
  if Decimal.starts_with_digit s
  then let v := fst (Decimal.read_digits 0 s) in
       Num (if negative then - v else v)
  else NaN.

(** ** JSON text

    [JSON.stringify] and [JSON.parse] on the values this page stores:
    objects, arrays, strings and integers (with [null] and the booleans
    for completeness).  The page writes no fraction, no exponent and no
    escape above U+00FF: a text that holds one is recognised as JSON
    ([valid]), but its value is not computed. *)

Module Json.

Local Unset Elimination Schemes.

Inductive json :=
| JNull
| JBool (b : bool)
| JNum (z : Z)
| JStr (s : string)
| JArr (l : list json)
| JObj (l : list (string * json)).

Local Set Elimination Schemes.

Definition dquote : ascii := ascii_of_N 34.
Definition backslash : ascii := ascii_of_N 92.

Definition hex_char (n : N) : ascii :=
  if (n <? 10)%N then ascii_of_N (48 + n) else ascii_of_N (87 + n).

Definition hex_val (c : ascii) : option N :=
  let n := code c in
  if ((48 <=? n) && (n <=? 57))%N then Some (n - 48)%N
  else if ((97 <=? n) && (n <=? 102))%N then Some (n - 87)%N
  else if ((65 <=? n) && (n <=? 70))%N then Some (n - 55)%N
  else None.

(** One code unit inside a quoted string, as [JSON.stringify] writes it. *)
Definition quote_unit (c : ascii) : string :=
  match code c with
  | 34%N => String backslash (String dquote "")
  | 92%N => String backslash (String backslash "")
  | 8%N => String backslash "b"
  | 9%N => String backslash "t"
  | 10%N => String backslash "n"
  | 12%N => String backslash "f"
  | 13%N => String backslash "r"
  | n => if (n <? 32)%N
         then String backslash
                (String "u" (String "0" (String "0"
                   (String (hex_char (n / 16)) (String (hex_char (n mod 16)) "")))))
         else String c ""
  end.

Fixpoint quote_body (s : string) : string :=
  match s with
  | EmptyString => EmptyString
  | String c s' => quote_unit c +:+ quote_body s'
  end.

Definition quote (s : string) : string :=
  String dquote (quote_body s +:+ String dquote "").

Fixpoint stringify (j : json) : string :=
  match j with
  | JNull => "null"
  | JBool true => "true"
  | JBool false => "false"
  | JNum z => Decimal.of_Z z
  | JStr s => quote s
  | JArr l =>
      "[" +:+
      (fix elems (l : list json) : string :=
         match l with
         | [] => "]"
         | [x] => stringify x +:+ "]"
         | x :: l' => stringify x +:+ "," +:+ elems l'
         end) l
  | JObj l =>
      "{" +:+
      (fix members (l : list (string * json)) : string :=
         match l with
         | [] => "}"
         | [(k, v)] => quote k +:+ ":" +:+ stringify v +:+ "}"
         | (k, v) :: l' => quote k +:+ ":" +:+ stringify v +:+ "," +:+ members l'
         end) l
  end.

(** The inner loops of [stringify] under their own names. *)
Fixpoint stringify_elems (l : list json) : string :=
  match l with
  | [] => "]"
  | [x] => stringify x +:+ "]"
  | x :: l' => stringify x +:+ "," +:+ stringify_elems l'
  end.

Fixpoint stringify_members (l : list (string * json)) : string :=
  match l with
  | [] => "}"
  | [(k, v)] => quote k +:+ ":" +:+ stringify v +:+ "}"
  | (k, v) :: l' => quote k +:+ ":" +:+ stringify v +:+ "," +:+ stringify_members l'
  end.

(** Nodes and list cells of a value: the fuel its text needs. *)
Fixpoint size (j : json) : nat :=
  match j with
  | JArr l =>
      S ((fix sizes (l : list json) : nat :=
            match l with
            | [] => 0%nat
            | x :: l' => S (size x + sizes l')
            end) l)
  | JObj l =>
      S ((fix msizes (l : list (string * json)) : nat :=
            match l with
            | [] => 0%nat
            | (_, v) :: l' => S (size v + msizes l')
            end) l)
  | _ => 1%nat
  end.

Fixpoint sizes (l : list json) : nat :=
  match l with
  | [] => 0%nat
  | x :: l' => S (size x + sizes l')
  end.

Fixpoint msizes (l : list (string * json)) : nat :=
  match l with
  | [] => 0%nat
  | (_, v) :: l' => S (size v + msizes l')
  end.

(** JSON white space: space, tab, line feed, carriage return. *)
Definition is_space (c : ascii) : bool :=
  let n := code c in
  ((n =? 32) || (n =? 9) || (n =? 10) || (n =? 13))%N.

Fixpoint skip_ws (s : string) : string :=
  match s with
  | EmptyString => EmptyString
  | String c s' => if is_space c then skip_ws s' else s
  end.

Definition push (c : ascii) (r : option (string * string)) : option (string * string) :=
  match r with
  | Some (x, rest) => Some (String c x, rest)
  | None => None
  end.

Definition hex4 (a b c d : ascii) : option N :=
  match hex_val a, hex_val b, hex_val c, hex_val d with
  | Some x, Some y, Some z, Some w => Some (((x * 16 + y) * 16 + z) * 16 + w)%N
  | _, _, _, _ => None
  end.

(** The characters of a string up to its closing quote, escapes decoded,
    and the text after the quote.  An unescaped control character is a
    syntax error; an escape above U+00FF is outside the model. *)
Fixpoint parse_string_body (s : string) : option (string * string) :=
  match s with
  | EmptyString => None
  | String c r =>
      match code c with
      | 34%N => Some (EmptyString, r)
      | 92%N =>
          match r with
          | EmptyString => None
          | String e r1 =>
              match code e with
              | 34%N | 92%N | 47%N => push e (parse_string_body r1)
              | 98%N => push (ascii_of_N 8) (parse_string_body r1)
              | 116%N => push (ascii_of_N 9) (parse_string_body r1)
              | 110%N => push (ascii_of_N 10) (parse_string_body r1)
              | 102%N => push (ascii_of_N 12) (parse_string_body r1)
              | 114%N => push (ascii_of_N 13) (parse_string_body r1)
              | 117%N =>
                  match r1 with
                  | String h1 (String h2 (String h3 (String h4 r2))) =>
                      match hex4 h1 h2 h3 h4 with
                      | Some n =>
                          if (n <? 256)%N
                          then push (ascii_of_N n) (parse_string_body r2)
                          else None
                      | None => None
                      end
                  | _ => None
                  end
              | _ => None
              end
          end
      | n => if (n <? 32)%N then None else push c (parse_string_body r)
      end
  end.

(** An integer literal: an optional minus sign and digits, no leading
    zero before another digit, no fraction or exponent after. *)
Definition parse_number (s : string) : option (Z * string) :=
  let '(negative, body) :=
    match s with
    | String c r => if Ascii.eqb c "-" then (true, r) else (false, s)
    | EmptyString => (false, s)
    end in
  match body with
  | String c r =>
      if Ascii.eqb c "0" then
        if Decimal.starts_with_digit r then None else Some (0, r)
      else if Decimal.starts_with_digit body then
        let '(v, r') := Decimal.read_digits 0 body in
        Some (if negative then - v else v, r')
      else None
  | EmptyString => None
  end.

Definition after_number_ok (r : string) : bool :=
  match r with
  | String c _ => negb (Ascii.eqb c "." || Ascii.eqb c "e" || Ascii.eqb c "E")
  | EmptyString => true
  end.

(** The text after the prefix [word], if [s] starts with it. *)
Fixpoint strip (word s : string) {struct word} : option string :=
  match word, s with
  | EmptyString, _ => Some s
  | String _ _, EmptyString => None
  | String a word', String b s' =>
      if Ascii.eqb a b then strip word' s' else None
  end.

Definition literal (word : string) (v : json) (s : string)
  : option (json * string) :=
  match strip word s with
  | Some r => Some (v, r)
  | None => None
  end.

Definition wrap {A} (f : A -> json) (r : option (A * string))
  : option (json * string) :=
  match r with
  | Some (x, rest) => Some (f x, rest)
  | None => None
  end.

Fixpoint parse_value (fuel : nat) (s : string) : option (json * string) :=
  match fuel with
  | O => None
  | S fuel' =>
      match skip_ws s with
      | EmptyString => None
      | String c r =>
          if Ascii.eqb c "[" then
            match skip_ws r with
            | EmptyString => None
            | String c' r' =>
                if Ascii.eqb c' "]" then Some (JArr [], r')
                else wrap JArr (parse_elems fuel' r)
            end
          else if Ascii.eqb c "{" then
            match skip_ws r with
            | EmptyString => None
            | String c' r' =>
                if Ascii.eqb c' "}" then Some (JObj [], r')
                else wrap JObj (parse_members fuel' r)
            end
          else if Ascii.eqb c dquote then wrap JStr (parse_string_body r)
          else if Ascii.eqb c "n" then literal "ull" JNull r
          else if Ascii.eqb c "t" then literal "rue" (JBool true) r
          else if Ascii.eqb c "f" then literal "alse" (JBool false) r
          else
            match parse_number (String c r) with
            | Some (z, r') =>
                if after_number_ok r' then Some (JNum z, r') else None
            | None => None
            end
      end
  end
with parse_elems (fuel : nat) (s : string) : option (list json * string) :=
  match fuel with
  | O => None
  | S fuel' =>
      match parse_value fuel' s with
      | Some (v, r) =>
          match skip_ws r with
          | String c r' =>
              if Ascii.eqb c "," then
                match parse_elems fuel' r' with
                | Some (vs, r'') => Some (v :: vs, r'')
                | None => None
                end
              else if Ascii.eqb c "]" then Some ([v], r')
              else None
          | EmptyString => None
          end
      | None => None
      end
  end
with parse_members (fuel : nat) (s : string)
    : option (list (string * json) * string) :=
  match fuel with
  | O => None
  | S fuel' =>
      match skip_ws s with
      | String c r =>
          if Ascii.eqb c dquote then
            match parse_string_body r with
            | Some (k, r1) =>
                match skip_ws r1 with
                | String c1 r2 =>
                    if Ascii.eqb c1 ":" then
                      match parse_value fuel' r2 with
                      | Some (v, r3) =>
                          match skip_ws r3 with
                          | String c3 r4 =>
                              if Ascii.eqb c3 "," then
                                match parse_members fuel' r4 with
                                | Some (kvs, r5) => Some ((k, v) :: kvs, r5)
                                | None => None
                                end
                              else if Ascii.eqb c3 "}" then Some ([(k, v)], r4)
                              else None
                          | EmptyString => None
                          end
                      | None => None
                      end
                    else None
                | EmptyString => None
                end
            | None => None
            end
          else None
      | EmptyString => None
      end
  end.

(** The value of a JSON text made of the values above: one value, then
    nothing but white space.  [None] is a text that is not JSON, or one
    that holds a fraction, an exponent or an escape above U+00FF. *)
Definition parse (s : string) : option json :=
  match parse_value (S (String.length s)) s with
  | Some (j, r) => if is_empty (skip_ws r) then Some j else None
  | None => None
  end.

(** *** The grammar of JSON

    A recogniser for every JSON text, with the numbers and escapes
    [parse_value] leaves out: each function returns the text after what
    it has read. *)

(** The text after the closing quote of a string.  Every [\uXXXX] is an
    escape, whatever its value. *)
Fixpoint skip_string_body (s : string) : option string :=
  match s with
  | EmptyString => None
  | String c r =>
      match code c with
      | 34%N => Some r
      | 92%N =>
          match r with
          | EmptyString => None
          | String e r1 =>
              match code e with
              | 34%N | 92%N | 47%N | 98%N | 116%N | 110%N | 102%N | 114%N =>
                  skip_string_body r1
              | 117%N =>
                  match r1 with
                  | String h1 (String h2 (String h3 (String h4 r2))) =>
                      match hex4 h1 h2 h3 h4 with
                      | Some _ => skip_string_body r2
                      | None => None
                      end
                  | _ => None
                  end
              | _ => None
              end
          end
      | n => if (n <? 32)%N then None else skip_string_body r
      end
  end.

(** One digit or more. *)
Definition skip_digits1 (s : string) : option string :=
  if Decimal.starts_with_digit s
  then Some (snd (Decimal.read_digits 0 s))
  else None.

(** The integer part: an optional minus sign, then [0] or a run of digits
    (a digit after a leading [0] is left for what follows to refuse). *)
Definition skip_int (s : string) : option string :=
  let body :=
    match s with
    | String c r => if Ascii.eqb c "-" then r else s
    | EmptyString => s
    end in
  match body with
  | String c r => if Ascii.eqb c "0" then Some r else skip_digits1 body
  | EmptyString => None
  end.

(** An optional fraction: a point and digits. *)
Definition skip_fraction (s : string) : option string :=
  match s with
  | String c r => if Ascii.eqb c "." then skip_digits1 r else Some s
  | EmptyString => Some s
  end.

(** An optional exponent: [e] or [E], an optional sign, digits. *)
Definition skip_exponent (s : string) : option string :=
  match s with
  | String c r =>
      if Ascii.eqb c "e" || Ascii.eqb c "E" then
        match r with
        | String sign r' =>
            if Ascii.eqb sign "+" || Ascii.eqb sign "-"
            then skip_digits1 r' else skip_digits1 r
        | EmptyString => None
        end
      else Some s
  | EmptyString => Some s
  end.

Definition skip_number (s : string) : option string :=
  match skip_int s with
  | Some r =>
      match skip_fraction r with
      | Some r' => skip_exponent r'
      | None => None
      end
  | None => None
  end.

Fixpoint skip_value (fuel : nat) (s : string) : option string :=
  match fuel with
  | O => None
  | S fuel' =>
      match skip_ws s with
      | EmptyString => None
      | String c r =>
          if Ascii.eqb c "[" then
            match skip_ws r with
            | EmptyString => None
            | String c' r' =>
                if Ascii.eqb c' "]" then Some r' else skip_elems fuel' r
            end
          else if Ascii.eqb c "{" then
            match skip_ws r with
            | EmptyString => None
            | String c' r' =>
                if Ascii.eqb c' "}" then Some r' else skip_members fuel' r
            end
          else if Ascii.eqb c dquote then skip_string_body r
          else if Ascii.eqb c "n" then strip "ull" r
          else if Ascii.eqb c "t" then strip "rue" r
          else if Ascii.eqb c "f" then strip "alse" r
          else skip_number (String c r)
      end
  end
with skip_elems (fuel : nat) (s : string) : option string :=
  match fuel with
  | O => None
  | S fuel' =>
      match skip_value fuel' s with
      | Some r =>
          match skip_ws r with
          | String c r' =>
              if Ascii.eqb c "," then skip_elems fuel' r'
              else if Ascii.eqb c "]" then Some r'
              else None
          | EmptyString => None
          end
      | None => None
      end
  end
with skip_members (fuel : nat) (s : string) : option string :=
  match fuel with
  | O => None
  | S fuel' =>
      match skip_ws s with
      | String c r =>
          if Ascii.eqb c dquote then
            match skip_string_body r with
            | Some r1 =>
                match skip_ws r1 with
                | String c1 r2 =>
                    if Ascii.eqb c1 ":" then
                      match skip_value fuel' r2 with
                      | Some r3 =>
                          match skip_ws r3 with
                          | String c3 r4 =>
                              if Ascii.eqb c3 "," then skip_members fuel' r4
                              else if Ascii.eqb c3 "}" then Some r4
                              else None
                          | EmptyString => None
                          end
                      | None => None
                      end
                    else None
                | EmptyString => None
                end
            | None => None
            end
          else None
      | EmptyString => None
      end
  end.

(** Whether a text is JSON: one value, then nothing but white space. *)
Definition valid (s : string) : bool :=
  match skip_value (S (String.length s)) s with
  | Some r => is_empty (skip_ws r)
  | None => false
  end.

(** Whether the value of a JSON text is an array. *)
Definition is_array_text (s : string) : bool :=
  match skip_ws s with
  | String c _ => Ascii.eqb c "["
  | EmptyString => false
  end.

(** [JSON.parse]: the value, when it is one of the values above; a value
    that is not (the text holds a fraction, an exponent or an escape above
    U+00FF); or the [SyntaxError] thrown on a text that is not JSON. *)
Inductive Parsed :=
| Value (j : json)
| Unmodelled
| SyntaxError.

Definition JSON_parse (s : string) : Parsed :=
  match parse s with
  | Some j => Value j
  | None => if valid s then Unmodelled else SyntaxError
  end.

(** Property read on a parsed object: the last member with the key wins. *)
Fixpoint get (k : string) (l : list (string * json)) : option json :=
  match l with
  | [] => None
  | (k', v) :: l' =>
      match get k l' with
      | Some v' => Some v'
      | None => if String.eqb k' k then Some v else None
      end
  end.

End Json.

Import Json.

(** ** The stored form of the history *)

Global Instance ArtifactFile_eq_dec : EqDecision ArtifactFile.
Proof. solve_decision. Defined.

Global Instance ChatMessage_eq_dec : EqDecision ChatMessage.
Proof. solve_decision. Defined.

Global Instance HistoryEntry_eq_dec : EqDecision HistoryEntry.
Proof. solve_decision. Defined.

(** What [JSON.stringify] sees: object members in creation order, a
    member whose value is [undefined] left out. *)

Definition encode_file (f : ArtifactFile) : json :=
  JObj [("file_url", JStr (file_url f))].

Definition role_name (r : Role) : string :=
  match r with
  | user => "user"
  | assistant => "assistant"
  end.

Definition encode_message (m : ChatMessage) : json :=
  JObj ([("id", JStr (msg_id m));
         ("role", JStr (role_name (role m)));
         ("content", JStr (content m));
         ("timestamp", JStr (timestamp m))]
        ++ match artifactFiles m with
           | Some l => [("artifactFiles", JArr (encode_file <$> l))]
           | None => []
           end).

Definition encode_entry (e : HistoryEntry) : json :=
  JObj [("id", JStr (entry_id e));
        ("topic", JStr (topic e));
        ("level", JStr (level e));
        ("format", JStr (format e));
        ("pageCount", JNum (pageCount e));
        ("content", JStr (entry_content e));
        ("date", JStr (date e));
        ("pointCost", JNum (pointCost e));
        ("messages", JArr (encode_message <$> entry_messages e))].

Definition encode_history (h : list HistoryEntry) : json :=
  JArr (encode_entry <$> h).

(** Reading a parsed value at the type the page casts it to. *)

Definition get_str (k : string) (l : list (string * json)) : option string :=
  match get k l with
  | Some (JStr s) => Some s
  | _ => None
  end.

Definition get_num (k : string) (l : list (string * json)) : option Z :=
  match get k l with
  | Some (JNum z) => Some z
  | _ => None
  end.

Definition decode_list {A} (f : json -> option A) (j : json) : option (list A) :=
  match j with
  | JArr l => mapM f l
  | _ => None
  end.

Definition decode_file (j : json) : option ArtifactFile :=
  match j with
  | JObj l => u ← get_str "file_url" l; Some {| file_url := u |}
  | _ => None
  end.

Definition decode_role (s : string) : option Role :=
  if String.eqb s "user" then Some user
  else if String.eqb s "assistant" then Some assistant
  else None.

Definition decode_message (j : json) : option ChatMessage :=
  match j with
  | JObj l =>
      i ← get_str "id" l;
      r ← get_str "role" l ≫= decode_role;
      c ← get_str "content" l;
      t ← get_str "timestamp" l;
      a ← match get "artifactFiles" l with
          | None => Some None
          | Some fs => Some <$> decode_list decode_file fs
          end;
      Some {| msg_id := i; role := r; content := c; timestamp := t;
              artifactFiles := a |}
  | _ => None
  end.

Definition decode_entry (j : json) : option HistoryEntry :=
  match j with
  | JObj l =>
      i ← get_str "id" l;
      tp ← get_str "topic" l;
      lv ← get_str "level" l;
      fm ← get_str "format" l;
      pc ← get_num "pageCount" l;
      c ← get_str "content" l;
      d ← get_str "date" l;
      cost ← get_num "pointCost" l;
      ms ← get "messages" l ≫= decode_list decode_message;
      Some {| entry_id := i; topic := tp; level := lv; format := fm;
              pageCount := pc; entry_content := c; date := d;
              pointCost := cost; entry_messages := ms |}
  | _ => None
  end.

Definition decode_history (j : json) : option (list HistoryEntry) :=
  decode_list decode_entry j.

(** ** localStorage and the effects of [Page] *)

(** The store is a map from keys to text; [None] is a store whose every
    access throws (the case each [try]/[catch] is there for). *)
Abbreviation Storage := (option (gmap string string)).

Definition KEY_POINTS : string := "eduia_points".
Definition KEY_HISTORY : string := "eduia_history".
Definition KEY_USER : string := "eduia_user_id".
Definition KEY_SESSION : string := "eduia_session_id".

Definition setItem (k v : string) (st : Storage) : Storage :=
  (fun m : gmap string string => <[k := v]> m) <$> st.

(** Effect on [points]: [localStorage.setItem('eduia_points', points.toString())]. *)
Definition persist_points (s : State) (st : Storage) : Storage :=
  setItem KEY_POINTS (toString (points s)) st.

(** Effect on [history]:
    [localStorage.setItem('eduia_history', JSON.stringify(history))]. *)
Definition persist_history (s : State) (st : Storage) : Storage :=
  setItem KEY_HISTORY (stringify (encode_history (history s))) st.

(** The two persisting effects after a render: each runs when its
    dependency differs from the previous render.  (React compares a
    [history] array by identity; a new array with the old contents rewrites
    the text already stored, so comparing contents gives the same store.) *)
Definition run_effects (old new : State) (st : Storage) : Storage :=
  let st := if decide (points old = points new) then st
            else persist_points new st in
  if decide (history old = history new) then st
  else persist_history new st.

(** The history part of the initialising effect; [None] is the exception of
    [JSON.parse], which leaves the rest of the [try] block undone.  A value
    that is not an array is not passed to [setHistory].  The typed state
    holds lists of [HistoryEntry] only: a stored array that is not a list
    of such entries (its elements have another shape, or it holds a number
    or a string outside the values modelled) has no counterpart in it, and
    where the code passes that array to [setHistory] the model leaves
    [history] as it is. *)
Definition rehydrate_history (m : gmap string string) (s : State) : option State :=
  match m !! KEY_HISTORY with
  | Some storedHistory =>
      if truthy storedHistory then
        match Json.JSON_parse storedHistory with
        | Json.SyntaxError => None
        | Json.Unmodelled => Some s
        | Json.Value parsed =>
            match decode_history parsed with
            | Some h => Some (setHistory h s)
            | None => Some s
            end
        end
      else Some s
  | None => Some s
  end.

(** [getItem(key)], replaced by a stored fresh id when absent or empty. *)
Definition ensure_id (key fresh : string) (m : gmap string string)
  : string * gmap string string :=
  match m !! key with
  | Some stored => if truthy stored then (stored, m) else (fresh, <[key := fresh]> m)
  | None => (fresh, <[key := fresh]> m)
  end.

(** The initialising effect ("Initialize from localStorage"); [id1] and
    [id2] are the results [generateId()] would give. *)
Definition init_effect (id1 id2 : string) (st : Storage) (s : State)
  : State * Storage :=
  match st with
  | None => (s, None)
  | Some m =>
      let s := match m !! KEY_POINTS with
               | Some storedPoints => setPoints (parseInt storedPoints) s
               | None => s
               end in
      match rehydrate_history m s with
      | None => (s, Some m)
      | Some s =>
          let '(storedUserId, m) := ensure_id KEY_USER id1 m in
          let s := setUserId storedUserId s in
          let '(storedSessionId, m) := ensure_id KEY_SESSION id2 m in
          let s := setSessionId storedSessionId s in
          (s, Some m)
      end
  end.

(** Page load: the first render shows [initial_state]; its effects run in
    the order they are declared (initialise, persist points, persist
    history), the persisting ones still seeing the first render; the state
    updates queued by the initialising effect then give the second render,
    whose effects run where a dependency changed. *)
Definition mount (id1 id2 : string) (st : Storage) : State * Storage :=
  let '(s, st) := init_effect id1 id2 st initial_state in
  let st := persist_points initial_state st in
  let st := persist_history initial_state st in
  (s, run_effects initial_state s st).

(** [startNewWork]: the state part and the stored session id. *)
Definition startNewWork (newSessionId : string) (s : State) (st : Storage)
  : State * Storage :=
  (startNewWork_state newSessionId s, setItem KEY_SESSION newSessionId st).

(** ** The page as a transition system *)

Record System := {
  ui : State;                 (* the current render *)
  inflight : list Pending;    (* continuations waiting on [callAIAgent] *)
  storage : Storage
}.

Inductive Event :=
| EvInput (text : string)                       (* typing: [setInputValue] *)
| EvSubmit (newId now : string)                 (* send button or Enter *)
| EvSettle (n : nat) (o : Outcome) (st : Stamp) (* the n-th pending call returns *)
| EvBuy (p : Plan) (amountText : string)        (* a plan of the dialog *)
| EvBuyModal (open : bool)                      (* [setShowBuyModal] *)
| EvNewWork (newSessionId : string)
| EvSuccessTimeout
| EvPurchaseTimeout
| EvLoad (id1 id2 : string).                    (* the page is loaded again *)

Definition rendered (w : System) (s : State) (fl : list Pending) : System :=
  {| ui := s; inflight := fl; storage := run_effects (ui w) s (storage w) |}.

Definition load (id1 id2 : string) (st : Storage) : System :=
  let '(s, st) := mount id1 id2 st in
  {| ui := s; inflight := []; storage := st |}.

Definition step (e : Event) (w : System) : System :=
  match e with
  | EvInput text => rendered w (setInputValue text (ui w)) (inflight w)
  | EvSubmit newId now =>
      let '(s, p) := sendMessage_begin newId now (ui w) in
      rendered w s (inflight w ++ option_list p)
  | EvSettle n o st =>
      match inflight w !! n with
      | Some p => rendered w (sendMessage_settle p o st (ui w)) (delete n (inflight w))
      | None => w
      end
  | EvBuy p amountText =>
      rendered w (handleBuyPoints (plan_points p) amountText (ui w)) (inflight w)
  | EvBuyModal open => rendered w (setShowBuyModal open (ui w)) (inflight w)
  | EvNewWork newSessionId =>
      let '(s, st) := startNewWork newSessionId (ui w) (storage w) in
      {| ui := s; inflight := inflight w; storage := run_effects (ui w) s st |}
  | EvSuccessTimeout => rendered w (chatSuccess_timeout (ui w)) (inflight w)
  | EvPurchaseTimeout => rendered w (purchaseSuccess_timeout (ui w)) (inflight w)
  | EvLoad id1 id2 => load id1 id2 (storage w)
  end.

Definition run (es : list Event) (w : System) : System :=
  fold_left (fun w e => step e w) es w.

(** A first visit: nothing stored yet, or a store that cannot be used. *)
Definition fresh_storage (available : bool) : Storage :=
  if available then Some ∅ else None.

(** [generateId()] ends in [Date.now().toString(36)]: it is never empty. *)
Definition generated (i : string) : Prop := truthy i = true.

Definition event_ok (e : Event) : Prop :=
  match e with
  | EvSubmit newId _ => generated newId
  | EvSettle _ _ st => generated (assistant_id st) /\ generated (new_entry_id st)
  | EvNewWork newSessionId => generated newSessionId
  | EvLoad id1 id2 => generated id1 /\ generated id2
  | _ => True
  end.

Inductive reachable : System -> Prop :=
| reach_first available id1 id2 :
    generated id1 -> generated id2 ->
    reachable (load id1 id2 (fresh_storage available))
| reach_step e w :
    event_ok e -> reachable w -> reachable (step e w).

(** ** The specification's vocabulary, for comparison with the code *)

(** [capital] is a capital letter of Latin-1 (A-Z, or an accented capital
    U+00C0-U+00DE other than the multiplication sign U+00D7) and [small]
    is its small letter, 32 places further on. *)
Definition capital_of (small capital : ascii) : Prop :=
  ((65 <= code capital <= 90)
   \/ (192 <= code capital <= 222 /\ code capital <> 215))%N
  /\ code small = (code capital + 32)%N.

(** The same letter when case is ignored: the same code unit, or a capital
    and its small letter. *)
Definition same_letter (a b : ascii) : Prop :=
  a = b \/ capital_of a b \/ capital_of b a.

(** Two texts that differ at most in case: the same length, and the same
    letter at every position. *)
Inductive equal_ci : string -> string -> Prop :=
| equal_ci_nil : equal_ci "" ""
| equal_ci_cons a b s t :
    same_letter a b -> equal_ci s t -> equal_ci (String a s) (String b t).

(** [text] contains [key] when case is ignored: some stretch of [text]
    differs from [key] at most in case. *)
Definition contains_ci (text key : string) : Prop :=
  exists pre mid post,
    text = pre +:+ mid +:+ post /\ equal_ci mid key.

Definition if_then_else_prop (c yes no : Prop) : Prop :=
  (c /\ yes) \/ (~ c /\ no).

(** Level and format as the specification words them (first match wins). *)
Definition spec_level (text lvl : string) : Prop :=
  if_then_else_prop (contains_ci text "fundamental" \/ contains_ci text "basico")
    (lvl = "Fundamental")
    (if_then_else_prop (contains_ci text "medio")
       (lvl = "Medio")
       (if_then_else_prop (contains_ci text "tecnico" \/ contains_ci text "tecnologo")
          (lvl = "Tecnico")
          (lvl = "Faculdade"))).

Definition spec_format (text fmt : string) : Prop :=
  if_then_else_prop
    (contains_ci text "slide" \/ contains_ci text "apresentacao"
     \/ contains_ci text "powerpoint")
    (fmt = "slides")
    (fmt = "documento").

(** The three conjoined predicates of the history filter. *)
Definition spec_matches (searchText levelFilter formatFilter : string)
    (e : HistoryEntry) : Prop :=
  contains_ci (topic e) searchText
  /\ (levelFilter = "all" \/ level e = levelFilter)
  /\ (formatFilter = "all" \/ format e = formatFilter).

(** A failed generation: the call resolved with [success] false, or the
    promise was rejected. *)
Definition failed (o : Outcome) : Prop :=
  match o with
  | Resolved r => success r = false
  | Rejected => True
  end.

(** The entry a returning call archives, if it reports success. *)
Definition archived (e : Event) (w : System) : option HistoryEntry :=
  match e with
  | EvSettle n (Resolved r) st =>
      match inflight w !! n with
      | Some p =>
          if success r
          then Some (make_entry p st (result_text r) (make_assistant st r))
          else None
      | None => None
      end
  | _ => None
  end.

(** The entries archived along a run, oldest first. *)
Fixpoint created (es : list Event) (w : System) : list HistoryEntry :=
  match es with
  | [] => []
  | e :: es' => option_list (archived e w) ++ created es' (step e w)
  end.

Definition is_load (e : Event) : bool :=
  match e with
  | EvLoad _ _ => true
  | _ => false
  end.

(** A run within one page lifetime. *)
Definition no_load (es : list Event) : Prop :=
  Forall (fun e => is_load e = false) es.

(** Exactly the states [Idle] and [Sending] of the orchestrator: nothing
    in flight and the flag down, or one call in flight and the flag up. *)
Definition single_flight (w : System) : Prop :=
  (inflight w = [] /\ isGenerating (ui w) = false)
  \/ (exists p, inflight w = [p] /\ isGenerating (ui w) = true).

(** Every user turn of a session carries non-empty text. *)
Definition user_turns_nonempty (ms : list ChatMessage) : Prop :=
  Forall (fun m => role m = user -> truthy (content m) = true) ms.

(** A character a value can start with is not white space and closes
    neither an array nor an object. *)
Definition value_head (c : ascii) : Prop :=
  is_space c = false /\ Ascii.eqb c "]" = false /\ Ascii.eqb c "}" = false.

(** What may follow a value inside an array or object, or at the end. *)
Definition follow_ok (r : string) : bool :=
  match r with
  | EmptyString => true
  | String c _ => Ascii.eqb c "," || Ascii.eqb c "]" || Ascii.eqb c "}"
  end.

(** The store holds what the page shows: the balance as decimal text, the
    history as JSON text, and the two identifiers. *)
Definition persisted (s : State) (m : gmap string string) : Prop :=
  m !! KEY_POINTS = Some (toString (points s))
  /\ m !! KEY_HISTORY = Some (stringify (encode_history (history s)))
  /\ m !! KEY_USER = Some (userId s) /\ truthy (userId s) = true
  /\ m !! KEY_SESSION = Some (sessionId s) /\ truthy (sessionId s) = true.

(** The balance is a non-negative integer, and an available store is in
    step with the page. *)
Definition store_ok (w : System) : Prop :=
  (exists b, points (ui w) = Num b /\ 0 <= b)
  /\ forall m, storage w = Some m -> persisted (ui w) m.

(** ** A sample visit, for the instances below *)

Module Demo.

Definition result_ok : AgentResult :=
  {| success := true; response_text := Some "# Redes"; extracted := "";
     artifact_files := Some [ {| file_url := "https://files/redes.pdf" |} ];
     error := None; response_message := None |}.

Definition result_failed : AgentResult :=
  {| success := false; response_text := None; extracted := "";
     artifact_files := None; error := Some "limite excedido";
     response_message := None |}.

Definition stamp : Stamp :=
  {| assistant_id := "a1"; assistant_time := "10:01";
     new_entry_id := "e1"; today := "01/11/2026" |}.

Definition first_visit : System := load "u1" "s1" (fresh_storage true).

Definition typed : System :=
  step (EvInput "  Trabalho tecnico sobre redes ") first_visit.

Definition sending : System := step (EvSubmit "m1" "10:00") typed.

Definition user_message : ChatMessage :=
  {| msg_id := "m1"; role := user; content := "Trabalho tecnico sobre redes";
     timestamp := "10:00"; artifactFiles := None |}.

Definition pending : Pending :=
  {| request := {| req_message := "Trabalho tecnico sobre redes";
                   req_agent := AGENT_ID;
                   req_user_id := "u1"; req_session_id := "s1" |};
     k_trimmed := "Trabalho tecnico sobre redes";
     k_messages := [];
     k_userMessage := user_message |}.

Definition events : list Event :=
  [EvInput "  Trabalho tecnico sobre redes "; EvSubmit "m1" "10:00";
   EvSettle 0 (Resolved result_ok) stamp;
   EvInput "Slides sobre fotossintese"; EvSubmit "m2" "10:05";
   EvSettle 0 (Resolved result_ok) stamp].

(** A visitor out of points who has typed only blanks. *)
Definition blank_poor : System :=
  {| ui := setPoints (Num 10) (setInputValue "   " initial_state);
     inflight := []; storage := None |}.

(** A visitor out of points who has typed a topic. *)
Definition topic_poor : System :=
  {| ui := setPoints (Num 10) (setInputValue "Redes" initial_state);
     inflight := []; storage := None |}.

End Demo.

(** * The rest of the page

    The parts of [src/app/page.tsx] around the handlers above: the id
    generator, the remaining handlers and the view state they write, the
    values the three screens compute from the state, and the Markdown
    renderer. *)

(** ** [generateId] *)

Module Base36.

Definition digit_char (d : Z) : ascii :=
  if d <? 10 then ascii_of_N (48 + Z.to_N d) else ascii_of_N (87 + Z.to_N d).

Definition digit_val (c : ascii) : option Z :=
  let n := code c in
  if ((48 <=? n) && (n <=? 57))%N then Some (Z.of_N n - 48)
  else if ((97 <=? n) && (n <=? 122))%N then Some (Z.of_N n - 87)
  else None.

(** The base-36 digits of [n >= 0], most significant first, in front of
    [acc]; [fuel] bounds the number of digits. *)
Fixpoint digits (fuel : nat) (n : Z) (acc : string) : string :=
  match fuel with
  | O => acc
  | S fuel' =>
      let acc' := String (digit_char (n mod 36)) acc in
      if n <? 36 then acc' else digits fuel' (n / 36) acc'
  end.

(** [n.toString(36)] for an integer [n >= 0]. *)
Definition of_nonneg (n : Z) : string :=
  digits (S (Z.to_nat (Z.log2 n))) n "".

(** The number a text of base-36 digits denotes, on top of [acc]; [None]
    when a character is no digit. *)
Fixpoint value (acc : Z) (s : string) : option Z :=
  match s with
  | EmptyString => Some acc
  | String c s' =>
      match digit_val c with
      | Some d => value (36 * acc + d) s'
      | None => None
      end
  end.

End Base36.

(** [Math.random().toString(36).substring(2, 15) + Date.now().toString(36)];
    [randomText] is the text of the random number, [now] the clock in
    milliseconds. *)
Definition generateId (randomText : string) (now : Z) : string :=
  substring randomText 2 15 +:+ Base36.of_nonneg now.

(** ** The remaining handlers and the view state *)

(** [navigateTo]: the purchase entry of the menus opens the dialog, the
    others switch the screen. *)
Definition navigateTo (screen : Screen) (s : State) : State :=
  let s := match screen with
           | buy => setShowBuyModal true s
           | _ => setActiveScreen screen s
           end in
  setMobileMenuOpen false s.

(** What [handleKeyPress] reads from the keyboard event. *)
Record KeyEvent := { ev_key : string; shiftKey : bool }.

(** Whether [handleKeyPress] calls [sendMessage] (and [preventDefault]). *)
Definition handleKeyPress (e : KeyEvent) : bool :=
  bool_decide (ev_key e = "Enter") && negb (shiftKey e).

(** [handleExpandHistory]:
    [setExpandedHistoryId(prev => prev === id ? null : id)]. *)
Definition handleExpandHistory (id : string) (prev : option string)
  : option string :=
  if bool_decide (prev = Some id) then None else Some id.

(** The [useState] cells of [Page] that only the screens read. *)
Record View := {
  expandedHistoryId : option string;
  historySearch : string;
  historyLevelFilter : string;
  historyFormatFilter : string;
  showSampleData : bool;
  sidebarCollapsed : bool
}.

Definition initial_view : View := {|
  expandedHistoryId := None;
  historySearch := "";
  historyLevelFilter := "all";
  historyFormatFilter := "all";
  showSampleData := false;
  sidebarCollapsed := false
|}.

Definition setExpandedHistoryId (v : option string) (x : View) : View :=
  {| expandedHistoryId := v; historySearch := historySearch x;
     historyLevelFilter := historyLevelFilter x;
     historyFormatFilter := historyFormatFilter x;
     showSampleData := showSampleData x;
     sidebarCollapsed := sidebarCollapsed x |}.

Definition setHistorySearch (v : string) (x : View) : View :=
  {| expandedHistoryId := expandedHistoryId x; historySearch := v;
     historyLevelFilter := historyLevelFilter x;
     historyFormatFilter := historyFormatFilter x;
     showSampleData := showSampleData x;
     sidebarCollapsed := sidebarCollapsed x |}.

Definition setHistoryLevelFilter (v : string) (x : View) : View :=
  {| expandedHistoryId := expandedHistoryId x;
     historySearch := historySearch x; historyLevelFilter := v;
     historyFormatFilter := historyFormatFilter x;
     showSampleData := showSampleData x;
     sidebarCollapsed := sidebarCollapsed x |}.

Definition setHistoryFormatFilter (v : string) (x : View) : View :=
  {| expandedHistoryId := expandedHistoryId x;
     historySearch := historySearch x;
     historyLevelFilter := historyLevelFilter x; historyFormatFilter := v;
     showSampleData := showSampleData x;
     sidebarCollapsed := sidebarCollapsed x |}.

Definition setShowSampleData (v : bool) (x : View) : View :=
  {| expandedHistoryId := expandedHistoryId x;
     historySearch := historySearch x;
     historyLevelFilter := historyLevelFilter x;
     historyFormatFilter := historyFormatFilter x; showSampleData := v;
     sidebarCollapsed := sidebarCollapsed x |}.

Definition setSidebarCollapsed (v : bool) (x : View) : View :=
  {| expandedHistoryId := expandedHistoryId x;
     historySearch := historySearch x;
     historyLevelFilter := historyLevelFilter x;
     historyFormatFilter := historyFormatFilter x;
     showSampleData := showSampleData x; sidebarCollapsed := v |}.

(** ** The whole page as a transition system *)

Record Page := {
  sys : System;
  view : View
}.

Inductive PageEvent :=
| PgCore (e : Event)                          (* the events modelled above *)
| PgKey (k : KeyEvent) (newId now : string)   (* a key pressed in the input *)
| PgNavigate (screen : Screen)                (* a menu entry or back button *)
| PgOpenRecent (id : string)                  (* a card of the dashboard *)
| PgExpand (id : string)                      (* a card of the history screen *)
| PgSearch (text : string)
| PgLevelFilter (v : string)
| PgFormatFilter (v : string)
| PgSampleData (on : bool)
| PgSidebar                                   (* collapse or expand the side bar *)
| PgMobileMenu (open : bool)
| PgDismissError.                             (* "Fechar" on the error notice *)

Definition with_ui (pg : Page) (s : State) : Page :=
  {| sys := rendered (sys pg) s (inflight (sys pg)); view := view pg |}.

Definition with_view (pg : Page) (x : View) : Page :=
  {| sys := sys pg; view := x |}.

Definition page_step (ev : PageEvent) (pg : Page) : Page :=
  match ev with
  | PgCore e =>
      {| sys := step e (sys pg);
         view := if is_load e then initial_view else view pg |}
  | PgKey k newId now =>
      if handleKeyPress k
      then {| sys := step (EvSubmit newId now) (sys pg); view := view pg |}
      else pg
  | PgNavigate screen => with_ui pg (navigateTo screen (ui (sys pg)))
  | PgOpenRecent id =>
      with_ui (with_view pg (setExpandedHistoryId (Some id) (view pg)))
        (navigateTo history_screen (ui (sys pg)))
  | PgExpand id =>
      with_view pg
        (setExpandedHistoryId
           (handleExpandHistory id (expandedHistoryId (view pg))) (view pg))
  | PgSearch text => with_view pg (setHistorySearch text (view pg))
  | PgLevelFilter v => with_view pg (setHistoryLevelFilter v (view pg))
  | PgFormatFilter v => with_view pg (setHistoryFormatFilter v (view pg))
  | PgSampleData on => with_view pg (setShowSampleData on (view pg))
  | PgSidebar =>
      with_view pg
        (setSidebarCollapsed (negb (sidebarCollapsed (view pg))) (view pg))
  | PgMobileMenu open => with_ui pg (setMobileMenuOpen open (ui (sys pg)))
  | PgDismissError => with_ui pg (setChatError "" (ui (sys pg)))
  end.

Definition page_event_ok (ev : PageEvent) : Prop :=
  match ev with
  | PgCore e => event_ok e
  | PgKey _ newId _ => generated newId
  | _ => True
  end.

Definition first_page (available : bool) (id1 id2 : string) : Page :=
  {| sys := load id1 id2 (fresh_storage available); view := initial_view |}.

Inductive reachable_page : Page -> Prop :=
| reach_page_first available id1 id2 :
    generated id1 -> generated id2 ->
    reachable_page (first_page available id1 id2)
| reach_page_step ev pg :
    page_event_ok ev -> reachable_page pg -> reachable_page (page_step ev pg).

(** A step that leaves the session, the balance, the archive, the
    identifiers, the pending calls and the store alone: it may only move
    the screen, the two overlays and the error notice. *)
Definition cosmetic (w w' : System) : Prop :=
  inflight w' = inflight w
  /\ storage w' = storage w
  /\ exists a b c d,
       ui w' = setActiveScreen a (setShowBuyModal b (setMobileMenuOpen c
                 (setChatError d (ui w)))).

(** ** Sample data ([SAMPLE_HISTORY]) *)

Definition SAMPLE_HISTORY : list HistoryEntry := [
  {| entry_id := "sample-1";
     topic := "Revolucao Industrial e suas consequencias sociais";
     level := "Faculdade";
     format := "documento";
     pageCount := 10;
     entry_content := "# Revolucao Industrial e suas consequencias sociais

## Introducao

A Revolucao Industrial foi um dos marcos mais significativos da historia moderna, transformando profundamente as relacoes economicas, sociais e culturais da humanidade.

## Desenvolvimento

### Contexto Historico

A Revolucao Industrial teve inicio na Inglaterra, no final do seculo XVIII, e se espalhou progressivamente por toda a Europa e outros continentes.

### Consequencias Sociais

- Urbanizacao acelerada
- Surgimento da classe operaria
- Mudancas nas relacoes de trabalho
- Impactos ambientais

## Conclusao

A Revolucao Industrial transformou irreversivelmente a sociedade, criando as bases para o mundo moderno.

## Referencias

1. HOBSBAWM, Eric. A Era das Revolucoes. Paz & Terra, 2010.
2. THOMPSON, E.P. A Formacao da Classe Operaria Inglesa. Paz & Terra, 2012.";
     date := "18/02/2026";
     pointCost := 75;
     entry_messages := [] |};
  {| entry_id := "sample-2";
     topic := "Fotossintese e ciclo do carbono";
     level := "Medio";
     format := "slides";
     pageCount := 15;
     entry_content := "# Fotossintese e Ciclo do Carbono

## Slide 1: Introducao

A fotossintese e o processo pelo qual plantas convertem energia solar em energia quimica.

## Slide 2: Processo da Fotossintese

- Fase clara (fotoquimica)
- Fase escura (ciclo de Calvin)
- Fatores limitantes

## Slide 3: Ciclo do Carbono

O ciclo do carbono e essencial para a manutencao da vida na Terra.";
     date := "17/02/2026";
     pointCost := 75;
     entry_messages := [] |};
  {| entry_id := "sample-3";
     topic := "Operacoes matematicas basicas";
     level := "Fundamental";
     format := "documento";
     pageCount := 5;
     entry_content := "# Operacoes Matematicas Basicas

## Introducao

As quatro operacoes matematicas basicas sao a base de todo o conhecimento matematico.

## Adicao

A adicao e a operacao de somar dois ou mais numeros.

## Subtracao

A subtracao e a operacao inversa da adicao.

## Multiplicacao

A multiplicacao e uma forma simplificada de adicoes repetidas.

## Divisao

A divisao distribui um valor em partes iguais.";
     date := "16/02/2026";
     pointCost := 75;
     entry_messages := [] |};
  {| entry_id := "sample-4";
     topic := "Redes de computadores e protocolos TCP/IP";
     level := "Tecnico";
     format := "documento";
     pageCount := 8;
     entry_content := "# Redes de Computadores e Protocolos TCP/IP

## Introducao

As redes de computadores sao essenciais para a comunicacao moderna.

## Modelo OSI

- Camada fisica
- Camada de enlace
- Camada de rede
- Camada de transporte

## Protocolo TCP/IP

O TCP/IP e o conjunto de protocolos que fundamenta a Internet.";
     date := "15/02/2026";
     pointCost := 75;
     entry_messages := [] |};
  {| entry_id := "sample-5";
     topic := "Literatura brasileira: Machado de Assis";
     level := "Medio";
     format := "documento";
     pageCount := 7;
     entry_content := "# Literatura Brasileira: Machado de Assis

## Introducao

Machado de Assis e considerado o maior escritor brasileiro de todos os tempos.

## Obras Principais

- Dom Casmurro
- Memorias Postumas de Bras Cubas
- Quincas Borba

## Estilo Literario

Machado desenvolveu um estilo unico, marcado pela ironia e pela profundidade psicologica.";
     date := "14/02/2026";
     pointCost := 75;
     entry_messages := [] |}
].

(** ** What the screens compute from the state *)

(** [showSampleData && history.length === 0 ? SAMPLE_HISTORY : history] *)
Definition displayHistory (showSampleData : bool) (history : list HistoryEntry)
  : list HistoryEntry :=
  if showSampleData && (length history =? 0)%nat then SAMPLE_HISTORY else history.

(** [displayHistory.slice(0, 6)] *)
Definition recentHistory (displayHistory : list HistoryEntry) : list HistoryEntry :=
  take 6 displayHistory.

(** The list of the history screen. *)
Definition page_filteredHistory (pg : Page) : list HistoryEntry :=
  filteredHistory (historySearch (view pg)) (historyLevelFilter (view pg))
    (historyFormatFilter (view pg))
    (displayHistory (showSampleData (view pg)) (history (ui (sys pg)))).

(** [historySearch || historyLevelFilter !== 'all' || historyFormatFilter !== 'all'] *)
Definition filters_active (x : View) : bool :=
  truthy (historySearch x)
  || negb (bool_decide (historyLevelFilter x = "all"))
  || negb (bool_decide (historyFormatFilter x = "all")).

(** The heading of the history screen when its list is empty. *)
Definition empty_history_title (x : View) : string :=
  if filters_active x then "Nenhum resultado encontrado" else "Historico vazio".

(** Whether the empty history screen offers "Criar Primeiro Trabalho". *)
Definition offers_first_work (x : View) : bool :=
  negb (truthy (historySearch x))
  && bool_decide (historyLevelFilter x = "all")
  && bool_decide (historyFormatFilter x = "all").

(** [Math.floor(points / POINTS_PER_GENERATION)] *)
Definition generations_left (points : number) : number :=
  match points with
  | Num b => Num (b / POINTS_PER_GENERATION)
  | NaN => NaN
  end.

Definition num_ge (a b : number) : bool :=
  match a, b with
  | Num x, Num y => y <=? x
  | _, _ => false
  end.

(** [points < 150 && points >= POINTS_PER_GENERATION]: the warning of the
    chat screen. *)
Definition low_points_banner (points : number) : bool :=
  num_lt points (Num 150) && num_ge points (Num POINTS_PER_GENERATION).

(** [disabled={!inputValue.trim() || isGenerating}] on the send button. *)
Definition send_disabled (s : State) : bool :=
  negb (truthy (trim (inputValue s))) || isGenerating s.

(** [entry.topic || 'Sem titulo'] *)
Definition card_title (e : HistoryEntry) : string :=
  or_else (topic e) "Sem titulo".

(** [entry.pageCount > 0]: whether a card shows the page count. *)
Definition card_shows_pages (e : HistoryEntry) : bool := 0 <? pageCount e.

(** [isActive={activeAgentId !== null}] of the agent status card. *)
Definition agent_active (s : State) : bool :=
  match activeAgentId s with
  | Some _ => true
  | None => false
  end.

(** [Array.isArray(message?.artifactFiles) && message.artifactFiles.length > 0]:
    whether a chat bubble shows download links. *)
Definition bubble_shows_files (m : ChatMessage) : bool :=
  match artifactFiles m with
  | Some l => (0 <? length l)%nat
  | None => false
  end.

(** ** Markdown renderer *)

Module Markdown.

(** What [.] of a regular expression does not match (below U+0100). *)
Definition is_line_terminator (c : ascii) : bool :=
  let n := code c in ((n =? 10) || (n =? 13))%N.

(** Whether [\*\*] is found in [s] before any line terminator: whether the
    lazy [(.*?)\*\*] can match at the start of [s]. *)
Fixpoint closes (s : string) : bool :=
  match s with
  | EmptyString => false
  | String c s' =>
      if Ascii.eqb c "*" && startsWith s' "*" then true
      else if is_line_terminator c then false
      else closes s'
  end.

(** [text.split(/\*\*(.*?)\*\*/g)]: the text outside the matches and the
    captured groups, in turn.  [inside] is set between an opening [**]
    that has a closing one and that closing one; [acc] is the part read
    so far. *)
Fixpoint split_bold (inside : bool) (acc : string) (s : string) : list string :=
  match s with
  | EmptyString => [acc]
  | String c s' =>
      match s' with
      | String c' s'' =>
          if Ascii.eqb c "*" && Ascii.eqb c' "*" && (inside || closes s'')
          then acc :: split_bold (negb inside) "" s''
          else split_bold inside (acc +:+ String c "") s'
      | EmptyString => [acc +:+ String c ""]
      end
  end.

(** A piece of a line: text, or [<strong key={i} className=...>]. *)
Inductive Inline :=
| Plain (text : string)
| Strong (key : nat) (className : string) (text : string).

(** [formatInline] returns the string itself or an array of pieces. *)
Inductive InlineResult :=
| Whole (text : string)
| Parts (l : list Inline).

Definition formatInline (text : string) : InlineResult :=
  let parts := split_bold false "" text in
  if (length parts =? 1)%nat then Whole text
  else Parts (imap (fun i part =>
                      if Nat.odd i then Strong i "font-semibold" part
                      else Plain part) parts).

(** [text.split('\n')] *)
Fixpoint split_lines (acc : string) (s : string) : list string :=
  match s with
  | EmptyString => [acc]
  | String c s' =>
      if (code c =? 10)%N then acc :: split_lines "" s'
      else split_lines (acc +:+ String c "") s'
  end.

(** [line.slice(n)] for [n >= 0]. *)
Fixpoint slice (n : nat) (s : string) : string :=
  match n, s with
  | O, _ => s
  | S n', String _ s' => slice n' s'
  | S _, EmptyString => EmptyString
  end.

Fixpoint skip_digits (s : string) : string :=
  match s with
  | String c s' => if Decimal.starts_with_digit s then skip_digits s' else s
  | EmptyString => s
  end.

(** The text after a match of [/^\d+\.\s/], if the line starts with one. *)
Definition numbered (line : string) : option string :=
  if Decimal.starts_with_digit line then
    match skip_digits line with
    | String dot (String sp rest) =>
        if Ascii.eqb dot "." && is_white sp then Some rest else None
    | _ => None
    end
  else None.

(** One element of the rendered list: its tag, [key], [className] and
    content (the spacer [<div className="h-1" />] has none). *)
Record Block := {
  tag : string;
  key : nat;
  className : string;
  children : option InlineResult
}.

Definition element (tag : string) (key : nat) (className : string)
    (text : string) : Block :=
  {| tag := tag; key := key; className := className;
     children := Some (formatInline text) |}.

(** The callback of [text.split('\n').map((line, i) => ...)]. *)
Definition render_line (i : nat) (line : string) : Block :=
  if startsWith line "### "
  then element "h4" i "font-semibold text-sm mt-3 mb-1" (slice 4 line)
  else if startsWith line "## "
  then element "h3" i "font-semibold text-base mt-3 mb-1" (slice 3 line)
  else if startsWith line "# "
  then element "h2" i "font-bold text-lg mt-4 mb-2" (slice 2 line)
  else if startsWith line "- " || startsWith line "* "
  then element "li" i "ml-4 list-disc text-sm leading-relaxed" (slice 2 line)
  else match numbered line with
       | Some rest =>
           element "li" i "ml-4 list-decimal text-sm leading-relaxed" rest
       | None =>
           if negb (truthy (trim line))
           then {| tag := "div"; key := i; className := "h-1"; children := None |}
           else element "p" i "text-sm leading-relaxed" line
       end.

(** [renderMarkdown]: [None] is [null]; otherwise the children of the
    [<div className="space-y-2">] it returns. *)
Definition renderMarkdown (text : string) : option (list Block) :=
  if negb (truthy text) then None
  else Some (imap render_line (split_lines "" text)).

(** The text an inline result shows, with the markers put back. *)
Definition inline_source (x : Inline) : string :=
  match x with
  | Plain t => t
  | Strong _ _ t => "**" +:+ t +:+ "**"
  end.

Definition result_source (r : InlineResult) : string :=
  match r with
  | Whole t => t
  | Parts l => foldr (fun x acc => inline_source x +:+ acc) "" l
  end.

(** The pieces of a split read back: every captured group between its two
    markers.  [inside] tells whether the first piece is a captured group
    whose opening marker has been read already. *)
Fixpoint unsplit (inside : bool) (l : list string) : string :=
  match l with
  | [] => ""
  | x :: l' =>
      if inside then x +:+ "**" +:+ unsplit false l'
      else match l' with
           | [] => x
           | _ :: _ => x +:+ "**" +:+ unsplit true l'
           end
  end.

(** The piece [formatInline] makes of part [k + i] of the split. *)
Definition piece (k i : nat) (part : string) : Inline :=
  if Nat.odd (k + i) then Strong (k + i) "font-semibold" part else Plain part.

(** [lines.join('\n')] *)
Fixpoint join_lines (l : list string) : string :=
  match l with
  | [] => ""
  | x :: l' =>
      match l' with
      | [] => x
      | _ :: _ => x +:+ String (ascii_of_N 10) (join_lines l')
      end
  end.

(** The markers [render_line] takes off the start of a line. *)
Definition markers : list string := ["### "; "## "; "# "; "- "; "* "; ""].

End Markdown.

(** ** Counting along a run *)

(** The points bought along a run. *)
Definition bought (es : list Event) : Z :=
  foldr (fun e acc => match e with
                      | EvBuy p _ => plan_points p + acc
                      | _ => acc
                      end) 0 es.

(** The balance, archive and identifiers of a state over fresh cells:
    what a page load can restore. *)
Definition restored (s : State) : State :=
  setSessionId (sessionId s)
    (setUserId (userId s)
       (setHistory (history s) (setPoints (points s) initial_state))).

(** ** Well-formedness kept by the page *)

(** What a pending continuation holds: a non-empty trimmed input, the user
    message built from it, and a session whose user turns are non-empty. *)
Definition pending_ok (p : Pending) : Prop :=
  truthy (k_trimmed p) = true
  /\ user_turns_nonempty (k_messages p)
  /\ role (k_userMessage p) = user
  /\ content (k_userMessage p) = k_trimmed p.

(** An entry as the success branch of [sendMessage] builds it. *)
Definition entry_ok (e : HistoryEntry) : Prop :=
  pageCount e = 0
  /\ pointCost e = POINTS_PER_GENERATION
  /\ level e ∈ ["Fundamental"; "Medio"; "Tecnico"; "Faculdade"]
  /\ format e ∈ ["documento"; "slides"]
  /\ truthy (topic e) = true
  /\ (String.length (topic e) <= 83)%nat
  /\ exists ms um am,
       entry_messages e = ms ++ [um; am]
       /\ role um = user /\ role am = assistant
       /\ content am = entry_content e.

(** A message as [sendMessage] builds it: no files on a user turn, and a
    list of files, when present, is not empty. *)
Definition message_ok (m : ChatMessage) : Prop :=
  (role m = user -> artifactFiles m = None)
  /\ artifactFiles m <> Some [].

(** The agent's id is held exactly while a generation is in flight. *)
Definition badge_matches (w : System) : Prop :=
  activeAgentId (ui w) = if isGenerating (ui w) then Some AGENT_ID else None.

(** Pending calls, session and archive are well formed, over a store in
    step with the page. *)
Definition archive_inv (w : System) : Prop :=
  store_ok w
  /\ Forall pending_ok (inflight w)
  /\ user_turns_nonempty (messages (ui w))
  /\ Forall entry_ok (history (ui w)).

(** Every message of the session is well formed. *)
Definition messages_inv (w : System) : Prop :=
  Forall message_ok (messages (ui w)).

(** The balance a page load shows: the stored text read by [parseInt], or
    the initial balance when there is none or the store cannot be used. *)
Definition stored_points (st : Storage) : number :=
  match st with
  | Some m =>
      match m !! KEY_POINTS with
      | Some storedPoints => parseInt storedPoints
      | None => Num INITIAL_POINTS
      end
  | None => Num INITIAL_POINTS
  end.

(** While a call is pending the balance covers its cost. *)
Definition afford_inv (w : System) : Prop :=
  single_flight w
  /\ store_ok w
  /\ (inflight w <> [] ->
      exists b, points (ui w) = Num b /\ POINTS_PER_GENERATION <= b).

(** Without a usable store the page has no user id, and neither has any
    pending request. *)
Definition anonymous_inv (w : System) : Prop :=
  storage w = None ->
  userId (ui w) = ""
  /\ Forall (fun p => req_user_id (request p) = "") (inflight w).

Definition run_page (evs : list PageEvent) (pg : Page) : Page :=
  fold_left (fun pg ev => page_step ev pg) evs pg.

(** ** A sample visit of the whole page *)

Module Demo2.

Definition enter : KeyEvent := {| ev_key := "Enter"; shiftKey := false |}.

Definition shift_enter : KeyEvent := {| ev_key := "Enter"; shiftKey := true |}.

Definition events : list PageEvent :=
  [PgNavigate chat;
   PgCore (EvInput "Slides sobre **fotossintese** para o ensino medio");
   PgKey shift_enter "m0" "09:59";
   PgKey enter "m1" "10:00";
   PgNavigate buy;
   PgCore (EvBuy Basico "1.000");
   PgCore (EvSettle 0 (Resolved Demo.result_ok) Demo.stamp);
   PgNavigate history_screen;
   PgSearch "FOTO";
   PgExpand "e1"].

Definition page : Page := run_page events (first_page true "u1" "s1").

(** The entry this visit archives. *)
Definition entry : HistoryEntry :=
  {| entry_id := "e1";
     topic := "Slides sobre **fotossintese** para o ensino medio";
     level := "Medio";
     format := "slides";
     pageCount := 0;
     entry_content := "# Redes";
     date := "01/11/2026";
     pointCost := 75;
     entry_messages :=
       [{| msg_id := "m1"; role := user;
           content := "Slides sobre **fotossintese** para o ensino medio";
           timestamp := "10:00"; artifactFiles := None |};
        {| msg_id := "a1"; role := assistant; content := "# Redes";
           timestamp := "10:01";
           artifactFiles := Some [ {| file_url := "https://files/redes.pdf" |} ] |}] |}.

(** The same visit stopped while the call is pending. *)
Definition sending : Page :=
  run_page (take 4 events) (first_page true "u1" "s1").

(** A visit in a browser whose store cannot be used. *)
Definition private : Page :=
  run_page (take 4 events) (first_page false "u1" "s1").

End Demo2.

(** * Proofs *)

(** ** The definitions on sample inputs *)

Example trim_sample : trim "  Redes de computadores  " = "Redes de computadores".
Proof. reflexivity. Qed.

Example trim_blank : trim "   " = "".
Proof. reflexivity. Qed.

Example toLowerCase_sample : toLowerCase "Ensino MEDIO" = "ensino medio".
Proof. reflexivity. Qed.

Example includes_sample :
  includes "trabalho tecnico" "tecnico" = true
  /\ includes "trabalho tecnico" "medio" = false
  /\ includes "" "" = true.
Proof. by repeat split. Qed.

Example truncate_topic_sample :
  truncate_topic
    "Um trabalho muito longo sobre a historia das redes de computadores no Brasil desde 1990"
  = "Um trabalho muito longo sobre a historia das redes de computadores no Brasil des...".
Proof. reflexivity. Qed.

Example toString_sample :
  toString (Num 250) = "250" /\ toString (Num 0) = "0" /\ toString NaN = "NaN".
Proof. by repeat split. Qed.

Example parseInt_sample :
  parseInt "175" = Num 175 /\ parseInt " 42pts" = Num 42
  /\ parseInt "-5" = Num (-5) /\ parseInt "abc" = NaN /\ parseInt "" = NaN.
Proof. by repeat split. Qed.

Example stringify_sample :
  stringify (JArr [JObj [("pageCount", JNum 0)]; JNull])
  = "[{" +:+ quote "pageCount" +:+ ":0},null]".
Proof. reflexivity. Qed.

Example parse_sample :
  parse " [ 1 , [ ] , { } ] " = Some (JArr [JNum 1; JArr []; JObj []])
  /\ parse "[1,2" = None /\ parse "[01]" = None /\ parse "" = None.
Proof. repeat split; vm_compute; reflexivity. Qed.

(** The sample visit: one generation leaves 175 points, one archived
    entry labelled from the topic, and the store in step. *)
Example demo_sample :
  let w := run Demo.events Demo.first_visit in
  points (ui w) = Num 100
  /\ (topic <$> history (ui w))
     = ["Trabalho tecnico sobre redes"; "Trabalho tecnico sobre redes"]
  /\ (level <$> history (ui w)) = ["Tecnico"; "Tecnico"]
  /\ (storage w ≫= fun m => m !! KEY_POINTS) = Some "100".
Proof. repeat split; vm_compute; reflexivity. Qed.

(** ** Strings *)

Section StringFacts.

Lemma app_cons c (s t : string) : String c s +:+ t = String c (s +:+ t).
Proof. reflexivity. Qed.

Lemma app_empty_l (t : string) : "" +:+ t = t.
Proof. reflexivity. Qed.

Lemma app_empty_r (s : string) : s +:+ "" = s.
Proof. induction s as [|c s IH]; [done|]. by rewrite app_cons, IH. Qed.

Lemma app_assoc' (a b c : string) : (a +:+ b) +:+ c = a +:+ b +:+ c.
Proof. induction a as [|x a IH]; [done|]. by rewrite !app_cons, IH. Qed.

Lemma app_length' (a b : string) :
  String.length (a +:+ b) = (String.length a + String.length b)%nat.
Proof. induction a as [|x a IH]; [done|]. rewrite app_cons. simpl. by rewrite IH. Qed.

Lemma toLowerCase_app (a b : string) :
  toLowerCase (a +:+ b) = toLowerCase a +:+ toLowerCase b.
Proof.
  induction a as [|x a IH]; [done|].
  rewrite app_cons. simpl. by rewrite IH, app_cons.
Qed.

Lemma toLowerCase_length (a : string) :
  String.length (toLowerCase a) = String.length a.
Proof. induction a as [|x a IH]; simpl; congruence. Qed.

(** A split of the lowered text comes from a split of the text. *)
Lemma toLowerCase_split (t a b : string) :
  toLowerCase t = a +:+ b ->
  exists a' b', t = a' +:+ b' /\ toLowerCase a' = a /\ toLowerCase b' = b.
Proof.
  revert t. induction a as [|x a IH]; intros t H.
  - exists "", t. by rewrite !app_empty_l in *.
  - destruct t as [|y t]; [done|].
    rewrite app_cons in H. simpl in H. injection H as Hx Ht.
    destruct (IH _ Ht) as (a' & b' & -> & <- & <-).
    exists (String y a'), b'. rewrite app_cons. simpl. by rewrite Hx.
Qed.

Lemma startsWith_spec (s needle : string) :
  startsWith s needle = true <-> exists post, s = needle +:+ post.
Proof.
  revert s. induction needle as [|a needle IH]; intros s; simpl.
  - split; [|done]. intros _. by exists s.
  - destruct s as [|b s].
    + split; [done|]. intros [post H]. by rewrite app_cons in H.
    + destruct (Ascii.eqb_spec a b) as [->|Hne].
      * rewrite IH. split; intros [post H]; exists post.
        -- by rewrite app_cons, H.
        -- rewrite app_cons in H. by injection H.
      * split; [done|]. intros [post H]. rewrite app_cons in H.
        injection H as -> _. done.
Qed.

Lemma includes_spec (s needle : string) :
  includes s needle = true <-> exists pre post, s = pre +:+ needle +:+ post.
Proof.
  induction s as [|c s IH]; simpl.
  - destruct (startsWith "" needle) eqn:E.
    + split; [|done]. intros _. apply startsWith_spec in E as [post E].
      by exists "", post.
    + split; [done|]. intros (pre & post & H).
      destruct pre; [|by rewrite app_cons in H].
      rewrite app_empty_l in H.
      assert (startsWith "" needle = true) by (apply startsWith_spec; eauto).
      congruence.
  - destruct (startsWith (String c s) needle) eqn:E.
    + split; [|done]. intros _. apply startsWith_spec in E as [post E].
      by exists "", post.
    + rewrite IH. split.
      * intros (pre & post & ->). by exists (String c pre), post.
      * intros (pre & post & H). destruct pre as [|x pre].
        -- rewrite app_empty_l in H.
           assert (startsWith (String c s) needle = true)
             by (apply startsWith_spec; eauto).
           congruence.
        -- rewrite app_cons in H. injection H as _ ->. eauto.
Qed.

Lemma code_inj (a b : ascii) : code a = code b -> a = b.
Proof.
  unfold code. intros H.
  by rewrite <- (ascii_N_embedding a), <- (ascii_N_embedding b), H.
Qed.

(** The test [lower_unit] makes on a code: a capital of Latin-1. *)
Lemma capital_test (n : N) :
  ((65 <=? n) && (n <=? 90) || (192 <=? n) && (n <=? 222) && negb (n =? 215))%N
  = true
  <-> ((65 <= n <= 90) \/ (192 <= n <= 222 /\ n <> 215))%N.
Proof.
  rewrite orb_true_iff, !andb_true_iff, negb_true_iff, !N.leb_le, N.eqb_neq.
  tauto.
Qed.

(** The code of a lowered unit: capitals move up by 32. *)
Lemma lower_unit_code (c : ascii) :
  code (lower_unit c)
  = if ((65 <=? code c) && (code c <=? 90)
        || (192 <=? code c) && (code c <=? 222) && negb (code c =? 215))%N
    then (code c + 32)%N else code c.
Proof.
  unfold lower_unit. cbv zeta.
  destruct ((65 <=? code c) && (code c <=? 90)
            || (192 <=? code c) && (code c <=? 222) && negb (code c =? 215))%N
    eqn:E; [|done].
  unfold code at 1. apply N_ascii_embedding. apply capital_test in E. lia.
Qed.

(** Two code units are lowered to the same unit exactly when they are the
    same letter with case ignored. *)
Lemma lower_unit_same (a b : ascii) :
  lower_unit a = lower_unit b <-> same_letter a b.
Proof.
  unfold same_letter, capital_of.
  pose proof (capital_test (code a)) as Ta.
  pose proof (capital_test (code b)) as Tb.
  split.
  - intros H. apply (f_equal code) in H. rewrite !lower_unit_code in H.
    destruct ((65 <=? code a) && (code a <=? 90)
              || (192 <=? code a) && (code a <=? 222) && negb (code a =? 215))%N;
    destruct ((65 <=? code b) && (code b <=? 90)
              || (192 <=? code b) && (code b <=? 222) && negb (code b =? 215))%N.
    + left. apply code_inj. lia.
    + right. right. split; [by apply Ta|lia].
    + right. left. split; [by apply Tb|lia].
    + left. by apply code_inj.
  - intros H. apply code_inj. rewrite !lower_unit_code.
    destruct ((65 <=? code a) && (code a <=? 90)
              || (192 <=? code a) && (code a <=? 222) && negb (code a =? 215))%N;
    destruct ((65 <=? code b) && (code b <=? 90)
              || (192 <=? code b) && (code b <=? 222) && negb (code b =? 215))%N;
    destruct H as [->|[[Hc Hs]|[Hc Hs]]]; try done;
    repeat match goal with
           | T : true = true <-> _ |- _ => apply proj1 in T; specialize (T eq_refl)
           | T : false = true <-> _ |- _ =>
               apply proj2 in T;
               assert (~ ((65 <= _ <= 90) \/ (192 <= _ <= 222 /\ _ <> 215))%N)
                 by (intros X; by specialize (T X));
               clear T
           end; lia.
Qed.

(** Two texts are lowered to the same text exactly when they differ at
    most in case. *)
Lemma toLowerCase_equal_ci (s t : string) :
  toLowerCase s = toLowerCase t <-> equal_ci s t.
Proof.
  split.
  - revert t. induction s as [|a s IH]; intros [|b t] H; try done.
    + constructor.
    + simpl in H. injection H as Hab Hst.
      constructor; [by apply lower_unit_same | by apply IH].
  - induction 1 as [|a b s t Hab _ IH]; [done|].
    simpl. apply lower_unit_same in Hab. by rewrite Hab, IH.
Qed.

(** The test the code performs against a lowered needle is containment
    with case ignored. *)
Lemma includes_lower_ci (text key : string) :
  includes (toLowerCase text) (toLowerCase key) = true <-> contains_ci text key.
Proof.
  rewrite includes_spec. split.
  - intros (pre & post & H).
    apply toLowerCase_split in H as (pre' & rest & -> & _ & H).
    apply toLowerCase_split in H as (mid & post' & -> & H & _).
    exists pre', mid, post'. split; [done|]. by apply toLowerCase_equal_ci.
  - intros (pre & mid & post & -> & H).
    exists (toLowerCase pre), (toLowerCase post).
    apply toLowerCase_equal_ci in H. by rewrite !toLowerCase_app, H.
Qed.

Lemma contains_ci_empty (text : string) : contains_ci text "".
Proof. exists "", "", text. split; [done|constructor]. Qed.

End StringFacts.

Global Instance contains_ci_dec text key : Decision (contains_ci text key).
Proof.
  refine (cast_if (decide (includes (toLowerCase text) (toLowerCase key) = true)));
    abstract (by rewrite <- includes_lower_ci).
Defined.

Global Instance spec_matches_dec search lf ff e :
  Decision (spec_matches search lf ff e).
Proof. unfold spec_matches. apply _. Defined.

(** ** Classification *)

Section Classification.

Lemma includes_key (text key : string) :
  toLowerCase key = key ->
  includes (toLowerCase text) key = true <-> contains_ci text key.
Proof. intros H. rewrite <- includes_lower_ci. by rewrite H. Qed.

Lemma includes_widen (s a b c : string) :
  includes s (a +:+ b +:+ c) = true -> includes s b = true.
Proof.
  rewrite !includes_spec. intros (pre & post & ->).
  exists (pre +:+ a), (c +:+ post). by rewrite !app_assoc'.
Qed.

Lemma if_then_else_prop_intro (b : bool) (c yes no : Prop) :
  (b = true <-> c) -> (if b then yes else no) -> if_then_else_prop c yes no.
Proof.
  intros Hb H. unfold if_then_else_prop. destruct b.
  - left. split; [by apply Hb | done].
  - right. split; [|done]. intros Hc. apply Hb in Hc. done.
Qed.

Lemma if_then_else_prop_elim (b : bool) (c yes no : Prop) :
  (b = true <-> c) -> if_then_else_prop c yes no -> if b then yes else no.
Proof.
  intros Hb [[Hc H]|[Hc H]]; destruct b; try done.
  - apply Hb in Hc. done.
  - exfalso. apply Hc, Hb. done.
Qed.

Lemma orb_reflect_iff (a b : bool) (A B : Prop) :
  (a = true <-> A) -> (b = true <-> B) -> (a || b = true <-> A \/ B).
Proof. rewrite orb_true_iff. tauto. Qed.

Lemma level_medio_test (l : string) :
  includes l "medio" || includes l "ensino medio" = includes l "medio".
Proof.
  destruct (includes l "medio") eqn:E; [done|]. simpl.
  destruct (includes l "ensino medio") eqn:E'; [|done].
  apply (includes_widen l "ensino " "medio" "") in E'. congruence.
Qed.

Lemma level_of_spec (text lvl : string) :
  level_of text = lvl <-> spec_level text lvl.
Proof.
  unfold level_of, spec_level. rewrite level_medio_test.
  set (l := toLowerCase text).
  assert (H1 : includes l "fundamental" || includes l "basico" = true
               <-> contains_ci text "fundamental" \/ contains_ci text "basico")
    by (apply orb_reflect_iff; by apply includes_key).
  assert (H2 : includes l "medio" = true <-> contains_ci text "medio")
    by (by apply includes_key).
  assert (H3 : includes l "tecnico" || includes l "tecnologo" = true
               <-> contains_ci text "tecnico" \/ contains_ci text "tecnologo")
    by (apply orb_reflect_iff; by apply includes_key).
  split.
  - intros <-.
    apply (if_then_else_prop_intro _ _ _ _ H1).
    destruct (includes l "fundamental" || includes l "basico"); [done|].
    apply (if_then_else_prop_intro _ _ _ _ H2).
    destruct (includes l "medio"); [done|].
    apply (if_then_else_prop_intro _ _ _ _ H3).
    by destruct (includes l "tecnico" || includes l "tecnologo").
  - intros H. apply (if_then_else_prop_elim _ _ _ _ H1) in H.
    destruct (includes l "fundamental" || includes l "basico"); [done|].
    apply (if_then_else_prop_elim _ _ _ _ H2) in H.
    destruct (includes l "medio"); [done|].
    apply (if_then_else_prop_elim _ _ _ _ H3) in H.
    by destruct (includes l "tecnico" || includes l "tecnologo").
Qed.

Lemma format_of_spec (text fmt : string) :
  format_of text = fmt <-> spec_format text fmt.
Proof.
  unfold format_of, spec_format.
  set (l := toLowerCase text).
  assert (H1 : includes l "slide" || includes l "apresentacao"
               || includes l "powerpoint" = true
               <-> contains_ci text "slide" \/ contains_ci text "apresentacao"
                   \/ contains_ci text "powerpoint").
  { rewrite <- orb_assoc. apply orb_reflect_iff; [by apply includes_key|].
    apply orb_reflect_iff; by apply includes_key. }
  split.
  - intros <-. apply (if_then_else_prop_intro _ _ _ _ H1).
    by destruct (_ || _).
  - intros H. apply (if_then_else_prop_elim _ _ _ _ H1) in H.
    by destruct (_ || _).
Qed.

End Classification.

(** C6.  Classification is a function of the topic text alone, deciding by
    containment with case ignored: the level is Fundamental when the text
    contains "fundamental" or "basico", else Medio when it contains "medio",
    else Tecnico when it contains "tecnico" or "tecnologo", else Faculdade;
    the format is slides exactly when the text contains "slide",
    "apresentacao" or "powerpoint", else documento.  The two sample topics
    classify as (Tecnico, documento) and (Fundamental, slides), and so do
    the same topics written in capitals. *)
Theorem classify_spec :
  (forall text lvl fmt,
     classify text = (lvl, fmt) <-> spec_level text lvl /\ spec_format text fmt)
  /\ classify "Trabalho tecnico sobre redes" = ("Tecnico", "documento")
  /\ classify "Apresentacao de slides sobre fotossintese para fundamental"
     = ("Fundamental", "slides")
  /\ classify "TRABALHO TECNICO SOBRE REDES" = ("Tecnico", "documento")
  /\ classify "APRESENTACAO DE SLIDES SOBRE FOTOSSINTESE PARA FUNDAMENTAL"
     = ("Fundamental", "slides").
Proof.
  split; [|repeat split; reflexivity].
  intros text lvl fmt. unfold classify.
  rewrite <- level_of_spec, <- format_of_spec.
  split; [by intros [= -> ->] | by intros [-> ->]].
Qed.

(** ** History filter *)

Section Filter.

Lemma filter_reflect {A} (f : A -> bool) (P : A -> Prop)
    `{!forall x, Decision (P x)} (l : list A) :
  (forall x, f x = true <-> P x) -> List.filter f l = filter P l.
Proof.
  intros Hf. induction l as [|x l IH]; [done|].
  simpl. rewrite filter_cons, IH.
  destruct (f x) eqn:E; case_decide as HP; try done.
  - exfalso. apply HP, Hf. done.
  - apply Hf in HP. congruence.
Qed.

Lemma entry_matches_spec search lf ff e :
  entry_matches search lf ff e = true <-> spec_matches search lf ff e.
Proof.
  unfold entry_matches, spec_matches.
  rewrite !andb_true_iff, !orb_true_iff, !bool_decide_eq_true.
  assert (negb (truthy search) = true
          \/ includes (toLowerCase (topic e)) (toLowerCase search) = true
          <-> contains_ci (topic e) search) as ->; [|tauto].
  rewrite includes_lower_ci. split; [|tauto].
  intros [H|H]; [|done].
  destruct search; [apply contains_ci_empty | done].
Qed.

End Filter.

(** C8.  The history filter returns, in archive order, exactly the entries
    that satisfy all three predicates: the topic contains the search text
    with case ignored (an empty search text is contained in every topic),
    the level equals the level filter unless that is "all", and the format
    equals the format filter unless that is "all".  With an empty search
    and format "all", filtering on "Medio" gives exactly the entries whose
    level is Medio. *)
Theorem filteredHistory_spec (archive : list HistoryEntry) :
  (forall searchText levelFilter formatFilter,
     filteredHistory searchText levelFilter formatFilter archive
     = filter (spec_matches searchText levelFilter formatFilter) archive)
  /\ (forall e, contains_ci (topic e) "")
  /\ filteredHistory "" "Medio" "all" archive
     = filter (fun e => level e = "Medio") archive
  /\ (forall searchText levelFilter formatFilter e,
        e ∈ filteredHistory searchText levelFilter formatFilter archive
        <-> e ∈ archive /\ spec_matches searchText levelFilter formatFilter e).
Proof.
  split; [|split; [|split]].
  - intros. apply filter_reflect, entry_matches_spec.
  - intros. apply contains_ci_empty.
  - apply filter_reflect. intros e. rewrite entry_matches_spec.
    unfold spec_matches. split.
    + intros (_ & [H|H] & _); done.
    + intros H. split; [apply contains_ci_empty|]. split; [by right | by left].
  - intros. unfold filteredHistory. rewrite list_elem_of_In, filter_In.
    by rewrite <- list_elem_of_In, entry_matches_spec.
Qed.

(** ** The submit gate *)

Section Gate.

Lemma run_effects_same s st : run_effects s s st = st.
Proof. unfold run_effects. by rewrite !decide_True. Qed.

Lemma run_effects_keep old new st :
  points new = points old -> history new = history old ->
  run_effects old new st = st.
Proof. intros H1 H2. unfold run_effects. by rewrite !decide_True. Qed.

Lemma rendered_same w : rendered w (ui w) (inflight w) = w.
Proof. unfold rendered. rewrite run_effects_same. by destruct w. Qed.

Lemma sendMessage_begin_blank newId now s :
  trim (inputValue s) = "" -> sendMessage_begin newId now s = (s, None).
Proof. intros H. unfold sendMessage_begin. by rewrite H. Qed.

Lemma sendMessage_begin_busy newId now s :
  isGenerating s = true -> sendMessage_begin newId now s = (s, None).
Proof.
  intros H. unfold sendMessage_begin. rewrite H. by rewrite orb_true_r.
Qed.

Lemma truthy_nonempty s : s <> "" -> truthy s = true.
Proof. by destruct s. Qed.

Lemma sendMessage_begin_poor newId now s b :
  trim (inputValue s) <> "" -> isGenerating s = false ->
  points s = Num b -> b < POINTS_PER_GENERATION ->
  sendMessage_begin newId now s = (setShowBuyModal true s, None).
Proof.
  intros Ht Hg Hp Hb. unfold sendMessage_begin.
  rewrite (truthy_nonempty _ Ht), Hg, Hp. simpl.
  by rewrite (proj2 (Z.ltb_lt _ _) Hb).
Qed.

(** The branch that starts a call, spelled out. *)
Lemma sendMessage_begin_start newId now s s1 p :
  sendMessage_begin newId now s = (s1, Some p) ->
  truthy (trim (inputValue s)) = true
  /\ isGenerating s = false
  /\ k_trimmed p = trim (inputValue s)
  /\ k_messages p = messages s
  /\ k_userMessage p
     = {| msg_id := newId; role := user; content := trim (inputValue s);
          timestamp := now; artifactFiles := None |}
  /\ messages s1 = messages s ++ [k_userMessage p]
  /\ points s1 = points s
  /\ history s1 = history s
  /\ isGenerating s1 = true.
Proof.
  unfold sendMessage_begin.
  destruct (truthy (trim (inputValue s))); [|done].
  destruct (isGenerating s); [done|]. simpl.
  destruct (num_lt _ _); [done|].
  intros [= <- <-]. done.
Qed.

End Gate.

(** C10.  When the input trims to the empty string, submitting changes
    nothing, whatever the balance: the state (so the message list, the
    balance and the purchase dialog flag) is returned as it was, no call
    is started, and the whole system, store included, stays put. *)
Theorem submit_blank_noop (w : System) (newId now : string) :
  trim (inputValue (ui w)) = "" ->
  sendMessage_begin newId now (ui w) = (ui w, None)
  /\ step (EvSubmit newId now) w = w.
Proof.
  intros H. split; [by apply sendMessage_begin_blank|].
  simpl. rewrite (sendMessage_begin_blank _ _ _ H). simpl.
  rewrite app_nil_r. apply rendered_same.
Qed.

(** C3.  A submit with non-empty trimmed input, nothing in flight and a
    balance below 75 only raises the purchase dialog: no user message is
    appended, no call is started, and balance, archive and store are
    unchanged. *)
Theorem submit_insufficient (w : System) (newId now : string) (b : Z) :
  trim (inputValue (ui w)) <> "" ->
  isGenerating (ui w) = false ->
  points (ui w) = Num b ->
  b < 75 ->
  let w' := step (EvSubmit newId now) w in
  snd (sendMessage_begin newId now (ui w)) = None
  /\ inflight w' = inflight w
  /\ messages (ui w') = messages (ui w)
  /\ points (ui w') = points (ui w)
  /\ history (ui w') = history (ui w)
  /\ storage w' = storage w
  /\ showBuyModal (ui w') = true.
Proof.
  intros Ht Hg Hp Hb. simpl.
  rewrite (sendMessage_begin_poor _ _ _ _ Ht Hg Hp Hb). simpl.
  rewrite app_nil_r, run_effects_keep by done. done.
Qed.

(** ** The return of the call *)

Section Settle.

Lemma sendMessage_settle_success p r st s :
  success r = true ->
  sendMessage_settle p (Resolved r) st s
  = setActiveAgentId None
      (setIsGenerating false
         (setChatSuccess "Conteudo gerado com sucesso!"
            (setHistory_with
               (fun prev => make_entry p st (result_text r) (make_assistant st r) :: prev)
               (setPoints_with
                  (fun prev => Math_max (Num 0) (num_sub prev (Num POINTS_PER_GENERATION)))
                  (setMessages_with (fun prev => prev ++ [make_assistant st r]) s))))).
Proof. intros H. unfold sendMessage_settle. by rewrite H. Qed.

Lemma sendMessage_settle_failed p o st s :
  failed o ->
  let s' := sendMessage_settle p o st s in
  points s' = points s /\ history s' = history s /\ messages s' = messages s
  /\ isGenerating s' = false /\ truthy (chatError s') = true.
Proof.
  destruct o as [r|]; simpl; [intros ->|intros _]; simpl; repeat split; try done.
  unfold error_text, opt_or_else, or_else.
  destruct (error r) as [[|]|], (response_message r) as [[|]|]; done.
Qed.

Lemma sendMessage_settle_idle p o st s :
  isGenerating (sendMessage_settle p o st s) = false.
Proof. done. Qed.

Lemma sendMessage_begin_history newId now s :
  history (sendMessage_begin newId now s).1 = history s
  /\ points (sendMessage_begin newId now s).1 = points s.
Proof.
  unfold sendMessage_begin.
  destruct (_ || _); [done|]. destruct (num_lt _ _); done.
Qed.

Lemma debit_floor (b : Z) :
  Math_max (Num 0) (num_sub (Num b) (Num POINTS_PER_GENERATION))
  = Num (Z.max 0 (b - 75)).
Proof. done. Qed.

Lemma mount_fields id1 id2 st :
  isGenerating (mount id1 id2 st).1 = false
  /\ messages (mount id1 id2 st).1 = []
  /\ inputValue (mount id1 id2 st).1 = "".
Proof.
  unfold mount, init_effect. destruct st as [m|]; [|done].
  destruct (m !! KEY_POINTS); (destruct (rehydrate_history _ _) as [s'|] eqn:E;
    [|done]); unfold rehydrate_history in E;
    destruct (m !! KEY_HISTORY) as [t|]; simplify_eq/=;
    repeat (match goal with
            | H : context [if ?c then _ else _] |- _ => destruct c
            | H : context [match ?c with _ => _ end] |- _ => destruct c
            end; simplify_eq/=);
    repeat (match goal with
            | |- context [ensure_id ?k ?i ?m] => destruct (ensure_id k i m)
            end); done.
Qed.

(** One step within a page lifetime puts the archived entry, if any, in
    front of the archive and leaves the rest alone. *)
Lemma step_history e w :
  is_load e = false ->
  history (ui (step e w)) = option_list (archived e w) ++ history (ui w).
Proof.
  destruct e as [text|newId now|n o st|pl txt|open|sid| | |id1 id2]; try done.
  - intros _. simpl.
    pose proof (sendMessage_begin_history newId now (ui w)) as [H _].
    by destruct (sendMessage_begin newId now (ui w)).
  - intros _. simpl. destruct (inflight w !! n) as [p|]; [|by destruct o].
    destruct o as [r|]; [|done]. simpl.
    by destruct (success r).
Qed.

Lemma run_history es w :
  no_load es ->
  history (ui (run es w)) = reverse (created es w) ++ history (ui w).
Proof.
  revert w. induction es as [|e es IH]; intros w H; [done|].
  apply Forall_cons in H as [He Hes]. simpl.
  unfold run in IH. rewrite IH by done. rewrite step_history by done.
  rewrite reverse_app, <- app_assoc. f_equal.
  by destruct (archived e w).
Qed.

Lemma created_cost es w : Forall (fun e => pointCost e = 75) (created es w).
Proof.
  revert w. induction es as [|e es IH]; intros w; simpl; [done|].
  apply Forall_app. split; [|done].
  destruct e as [| |n [r|] st| | | | | |]; simpl; try done.
  destruct (inflight w !! n); [|done]. destruct (success r); simpl; [|done].
  by constructor.
Qed.

End Settle.

(** C2.  A failed attempt, whether the call resolved with a failure or was
    rejected, charges nothing and archives nothing: with the call returning
    right after the submit, balance and archive are those before the
    submit, the session is the old one followed by the user message built
    from the trimmed input, the orchestrator is idle again and an error
    text is shown; and whatever happened in between, the return of a
    failed call leaves balance, archive and session as it finds them. *)
Theorem failure_no_charge (s s1 : State) (p : Pending) (newId now : string)
    (o : Outcome) (st : Stamp) :
  sendMessage_begin newId now s = (s1, Some p) ->
  failed o ->
  (let s2 := sendMessage_settle p o st s1 in
   points s2 = points s
   /\ history s2 = history s
   /\ messages s2 = messages s ++ [k_userMessage p]
   /\ role (k_userMessage p) = user
   /\ content (k_userMessage p) = trim (inputValue s)
   /\ isGenerating s2 = false
   /\ truthy (chatError s2) = true)
  /\ (forall s', points (sendMessage_settle p o st s') = points s'
              /\ history (sendMessage_settle p o st s') = history s'
              /\ messages (sendMessage_settle p o st s') = messages s').
Proof.
  intros Hb Hf.
  apply sendMessage_begin_start in Hb
    as (_ & _ & _ & _ & Hu & Hm & Hp & Hh & _).
  split.
  - pose proof (sendMessage_settle_failed p o st s1 Hf) as H.
    cbv zeta in H |- *. destruct H as (-> & -> & -> & ? & ?).
    rewrite Hu at 2 3. done.
  - intros s'.
    pose proof (sendMessage_settle_failed p o st s' Hf) as H.
    cbv zeta in H. tauto.
Qed.

(** C1.  When the call reports success, the balance becomes
    max(0, balance - 75) and exactly one entry, of point cost 75, is put in
    front of the archive; so along any run within one page lifetime the
    archive is the entries archived so far, newest first, in front of the
    archive the run started with: after N successful generations position 0
    holds the most recent entry and position N-1 the oldest. *)
Theorem success_charges_and_archives (w : System) (es : list Event)
    (p : Pending) (r : AgentResult) (st : Stamp) (s : State) (b : Z) :
  success r = true ->
  points s = Num b ->
  no_load es ->
  (let s' := sendMessage_settle p (Resolved r) st s in
   points s' = Num (Z.max 0 (b - 75))
   /\ exists e, history s' = e :: history s /\ pointCost e = 75)
  /\ (let N := length (created es w) in
      history (ui (run es w)) = reverse (created es w) ++ history (ui w)
      /\ Forall (fun e => pointCost e = 75) (created es w)
      /\ (forall i, (i < N)%nat ->
           history (ui (run es w)) !! i = created es w !! (N - 1 - i)%nat)
      /\ (forall e, last (created es w) = Some e ->
           history (ui (run es w)) !! 0%nat = Some e)
      /\ (forall e, head (created es w) = Some e ->
           history (ui (run es w)) !! (N - 1)%nat = Some e)).
Proof.
  intros Hs Hp Hes. split.
  - rewrite sendMessage_settle_success by done. simpl.
    unfold setPoints_with; simpl. rewrite Hp. split; [done|]. eauto.
  - cbv zeta. rewrite run_history by done.
    assert (Hi : forall i, (i < length (created es w))%nat ->
              (reverse (created es w) ++ history (ui w)) !! i
              = created es w !! (length (created es w) - 1 - i)%nat).
    { intros i Hi. rewrite lookup_app_l by (by rewrite length_reverse).
      rewrite reverse_lookup by done. f_equal. lia. }
    split; [done|]. split; [apply created_cost|]. split; [done|]. split.
    + intros e He. rewrite last_lookup in He.
      assert (length (created es w) <> 0%nat)
        by (intros E; apply length_zero_iff_nil in E; by rewrite E in He).
      rewrite Hi by lia. rewrite <- He. f_equal. lia.
    + intros e He. rewrite head_lookup in He.
      assert (length (created es w) <> 0%nat)
        by (intros E; apply length_zero_iff_nil in E; by rewrite E in He).
      rewrite Hi by lia. rewrite <- He. f_equal. lia.
Qed.

(** ** Invariants of the running page *)

Section Invariants.

Lemma load_fields id1 id2 st :
  inflight (load id1 id2 st) = []
  /\ isGenerating (ui (load id1 id2 st)) = false
  /\ messages (ui (load id1 id2 st)) = [].
Proof.
  unfold load. pose proof (mount_fields id1 id2 st) as (? & ? & ?).
  by destruct (mount id1 id2 st).
Qed.

Lemma single_flight_load id1 id2 st : single_flight (load id1 id2 st).
Proof. left. pose proof (load_fields id1 id2 st). tauto. Qed.

Lemma single_flight_step e w : single_flight w -> single_flight (step e w).
Proof.
  intros Hw.
  destruct e as [text|newId now|n o st|pl txt|open|sid| | |id1 id2];
    try exact Hw; [| |apply single_flight_load].
  - simpl. destruct (sendMessage_begin newId now (ui w)) as [s [p|]] eqn:E.
    + apply sendMessage_begin_start in E as (_ & Hg & _ & _ & _ & _ & _ & _ & Hg').
      destruct Hw as [[Hi _]|(q & _ & Hq)]; [|congruence].
      right. exists p. simpl. by rewrite Hi.
    + simpl. rewrite app_nil_r.
      assert (isGenerating s = isGenerating (ui w)) as Hs.
      { revert E. unfold sendMessage_begin.
        destruct (_ || _); [by intros [= <-]|].
        destruct (num_lt _ _); [by intros [= <-]|done]. }
      destruct Hw as [[Hi Hg]|(q & Hi & Hg)]; [left|right; exists q];
        simpl; by rewrite Hs.
  - simpl. destruct (inflight w !! n) as [p|] eqn:E; [|done].
    left. simpl. split; [|done].
    destruct Hw as [[Hi _]|(q & Hi & _)]; rewrite Hi in *; [done|].
    by destruct n.
Qed.

Lemma reachable_single_flight w : reachable w -> single_flight w.
Proof.
  induction 1; [apply single_flight_load | by apply single_flight_step].
Qed.

Lemma user_turns_step e w :
  user_turns_nonempty (messages (ui w)) ->
  user_turns_nonempty (messages (ui (step e w))).
Proof.
  intros Hw.
  destruct e as [text|newId now|n o st|pl txt|open|sid| | |id1 id2];
    try exact Hw.
  - simpl. destruct (sendMessage_begin newId now (ui w)) as [s [p|]] eqn:E.
    + apply sendMessage_begin_start in E
        as (Ht & _ & _ & _ & Hu & Hm & _).
      simpl. rewrite Hm. apply Forall_app. split; [done|].
      constructor; [|done]. intros _. by rewrite Hu.
    + simpl. revert E. unfold sendMessage_begin.
      destruct (_ || _); [by intros [= <-]|].
      destruct (num_lt _ _); [by intros [= <-]|done].
  - simpl. destruct (inflight w !! n) as [p|]; [|done]. simpl.
    destruct o as [r|]; [|done]. destruct (success r); [|done]. simpl.
    apply Forall_app. split; [done|]. by constructor.
  - simpl. constructor.
  - simpl. pose proof (load_fields id1 id2 (storage w)) as (_ & _ & ->).
    constructor.
Qed.

Lemma reachable_user_turns w :
  reachable w -> user_turns_nonempty (messages (ui w)).
Proof.
  induction 1 as [av id1 id2 _ _|]; [|by apply user_turns_step].
  pose proof (load_fields id1 id2 (fresh_storage av)) as (_ & _ & ->).
  constructor.
Qed.

End Invariants.

(** C4.  At most one generation is in flight at any time, and while one is
    (the flag [isGenerating] is up exactly then) a further submit is a
    no-op: it starts no call and leaves session, balance and everything
    else as they are. *)
Theorem second_submit_noop (w : System) (newId now : string) :
  reachable w ->
  (length (inflight w) <= 1)%nat
  /\ (isGenerating (ui w) = true <-> inflight w <> [])
  /\ (isGenerating (ui w) = true ->
      sendMessage_begin newId now (ui w) = (ui w, None)
      /\ step (EvSubmit newId now) w = w).
Proof.
  intros Hw. apply reachable_single_flight in Hw.
  split; [|split].
  - destruct Hw as [[-> _]|(p & -> & _)]; simpl; lia.
  - destruct Hw as [[-> ->]|(p & -> & ->)]; split; done.
  - intros Hg. split; [by apply sendMessage_begin_busy|].
    simpl. rewrite (sendMessage_begin_busy _ _ _ Hg). simpl.
    rewrite app_nil_r. apply rendered_same.
Qed.

(** ** Topic of an archived entry *)

Section Topic.



Lemma substring_prefix (n : nat) (s : string) :
  (n <= String.length s)%nat ->
  exists rest, s = String.substring 0 n s +:+ rest
               /\ String.length (String.substring 0 n s) = n.
Proof.
  revert s. induction n as [|n IH]; intros s Hn.
  - exists s. by destruct s.
  - destruct s as [|c s]; simpl in Hn; [lia|].
    destruct (IH s) as (rest & Hs & Hl); [lia|].
    exists rest. simpl. rewrite app_cons, <- Hs, Hl. done.
Qed.

Lemma truncate_topic_short (t : string) :
  (String.length t <= 80)%nat -> truncate_topic t = t.
Proof.
  intros H. unfold truncate_topic.
  by rewrite (proj2 (Nat.ltb_ge _ _) H).
Qed.

Lemma truncate_topic_long (t : string) :
  (80 < String.length t)%nat ->
  exists first rest,
    t = first +:+ rest /\ String.length first = 80%nat
    /\ truncate_topic t = first +:+ "...".
Proof.
  intros H. unfold truncate_topic.
  rewrite (proj2 (Nat.ltb_lt _ _) H).
  destruct (substring_prefix 80 t) as (rest & Ht & Hl); [lia|].
  exists (String.substring 0 80 t), rest. done.
Qed.


End Topic.


(** ** Decimal text *)

Section DecimalFacts.

Import Decimal.

Lemma digit_cases (d : Z) :
  0 <= d < 10 ->
  d = 0 \/ d = 1 \/ d = 2 \/ d = 3 \/ d = 4 \/ d = 5 \/ d = 6 \/ d = 7
  \/ d = 8 \/ d = 9.
Proof. lia. Qed.

Lemma digit_val_char (d : Z) : 0 <= d < 10 -> digit_val (digit_char d) = Some d.
Proof.
  intros H. destruct (digit_cases d H) as [->|[->|[->|[->|[->|[->|[->|[->|[->| ->]]]]]]]]];
    reflexivity.
Qed.

Lemma read_digits_cons a d r :
  0 <= d < 10 ->
  read_digits a (String (digit_char d) r) = read_digits (10 * a + d) r.
Proof. intros H. simpl. by rewrite digit_val_char. Qed.

Lemma read_digits_stop a r :
  starts_with_digit r = false -> read_digits a r = (a, r).
Proof.
  destruct r as [|c r]; [done|]. simpl.
  destruct (digit_val c); [|done].
  rewrite bool_decide_eq_true_2 by eauto. done.
Qed.

(** Reading back the digits written in front of [r] continues on [r]
    with the number accumulated. *)
Lemma read_digits_digits (fuel : nat) :
  forall n r, 0 <= n < 10 ^ Z.of_nat fuel ->
    exists k, 0 <= k /\ forall a,
      read_digits a (digits fuel n r) = read_digits (a * 10 ^ k + n) r.
Proof.
  induction fuel as [|fuel IH]; intros n r Hn.
  - exists 0. split; [done|]. intros a.
    change (10 ^ Z.of_nat 0) with 1 in Hn.
    replace (a * 10 ^ 0 + n) with a by (rewrite Z.pow_0_r; lia). done.
  - simpl digits. destruct (Z.ltb_spec n 10) as [Hlt|Hge].
    + exists 1. split; [done|]. intros a.
      rewrite read_digits_cons by (apply Z.mod_pos_bound; lia).
      rewrite Z.mod_small by lia. f_equal. lia.
    + destruct (IH (n / 10) (String (digit_char (n mod 10)) r)) as (k & Hk & H).
      { split; [apply Z.div_pos; lia|].
        apply Z.div_lt_upper_bound; [lia|].
        rewrite Nat2Z.inj_succ, Z.pow_succ_r in Hn by lia. lia. }
      exists (k + 1). split; [lia|]. intros a.
      rewrite H, read_digits_cons by (apply Z.mod_pos_bound; lia).
      f_equal. rewrite Z.pow_add_r by lia.
      pose proof (Z.div_mod n 10). lia.
Qed.

Lemma digits_head (fuel : nat) :
  forall n r, 0 <= n -> (fuel <> 0%nat \/ starts_with_digit r = true) ->
    starts_with_digit (digits fuel n r) = true.
Proof.
  induction fuel as [|fuel IH]; intros n r Hn H.
  - simpl. by destruct H.
  - simpl.
    assert (starts_with_digit (String (digit_char (n mod 10)) r) = true) as Hd.
    { simpl. rewrite digit_val_char by (apply Z.mod_pos_bound; lia).
      apply bool_decide_eq_true_2. eauto. }
    destruct (n <? 10); [done|].
    apply IH; [apply Z.div_pos; lia | by right].
Qed.

(** A positive number is written without a leading zero. *)
Lemma digits_leading (fuel : nat) :
  forall n r, 0 < n < 10 ^ Z.of_nat fuel ->
    exists d t, 1 <= d < 10 /\ digits fuel n r = String (digit_char d) t.
Proof.
  induction fuel as [|fuel IH]; intros n r Hn.
  - simpl in Hn. lia.
  - simpl. destruct (Z.ltb_spec n 10) as [Hlt|Hge].
    + exists (n mod 10), r. rewrite Z.mod_small by lia. split; [lia|done].
    + apply IH. split.
      * apply Z.div_str_pos. lia.
      * apply Z.div_lt_upper_bound; [lia|].
        rewrite Nat2Z.inj_succ, Z.pow_succ_r in Hn by lia. lia.
Qed.

Lemma fuel_enough (n : Z) :
  0 <= n -> n < 10 ^ Z.of_nat (S (Z.to_nat (Z.log2 n))).
Proof.
  intros Hn. rewrite Nat2Z.inj_succ, Z2Nat.id by apply Z.log2_nonneg.
  destruct (Z.eq_dec n 0) as [->|Hne]; [done|].
  pose proof (Z.log2_spec n) as [_ H]; [lia|].
  pose proof (Z.log2_nonneg n).
  eapply Z.lt_le_trans; [exact H|].
  apply Z.pow_le_mono_l. lia.
Qed.

Lemma digits_app (fuel : nat) :
  forall n acc r, digits fuel n acc +:+ r = digits fuel n (acc +:+ r).
Proof.
  induction fuel as [|fuel IH]; intros n acc r; [done|].
  simpl. destruct (n <? 10); [done|]. by rewrite IH.
Qed.

Lemma of_nonneg_read (n : Z) (r : string) :
  0 <= n -> starts_with_digit r = false ->
  starts_with_digit (of_nonneg n +:+ r) = true
  /\ read_digits 0 (of_nonneg n +:+ r) = (n, r).
Proof.
  intros Hn Hr. unfold of_nonneg. rewrite digits_app, app_empty_l.
  split; [apply digits_head; [done | by left]|].
  destruct (read_digits_digits _ n r (conj Hn (fuel_enough n Hn))) as (k & _ & H).
  rewrite H. simpl. by apply read_digits_stop.
Qed.

Lemma digit_char_not_white d : 0 <= d < 10 -> is_white (digit_char d) = false.
Proof.
  intros H. destruct (digit_cases d H) as [->|[->|[->|[->|[->|[->|[->|[->|[->| ->]]]]]]]]];
    reflexivity.
Qed.

Lemma of_nonneg_head (n : Z) :
  0 <= n -> exists d t, 0 <= d < 10 /\ of_nonneg n = String (digit_char d) t
                        /\ (0 < n -> 1 <= d).
Proof.
  intros Hn. destruct (Z.eq_dec n 0) as [->|Hne].
  - exists 0, "". split; [lia|]. split; [done|lia].
  - destruct (digits_leading _ n "" (conj (ltac:(lia) : 0 < n) (fuel_enough n Hn)))
      as (d & t & Hd & Ht).
    exists d, t. split; [lia|]. split; [done|lia].
Qed.

End DecimalFacts.

Lemma parseInt_unsigned (c : ascii) (t : string) :
  is_Some (Decimal.digit_val c) ->
  parseInt (String c t) = Num (Decimal.read_digits 0 (String c t)).1.
Proof.
  intros [d H].
  destruct c as [[] [] [] [] [] [] [] []]; try discriminate H; reflexivity.
Qed.

(** The balance text read back by [parseInt] is the balance. *)
Lemma parseInt_toString_Num (b : Z) : parseInt (toString (Num b)) = Num b.
Proof.
  unfold toString, Decimal.of_Z.
  destruct (Z.ltb_spec b 0) as [Hneg|Hpos].
  - unfold parseInt. simpl trimStart.
    destruct (of_nonneg_read (- b) "" ltac:(lia) eq_refl) as [H1 H2].
    rewrite app_empty_r in H1, H2.
    cbn match. rewrite H1, H2. simpl. f_equal. lia.
  - destruct (of_nonneg_head b Hpos) as (d & t & Hd & Ht & _).
    destruct (of_nonneg_read b "" Hpos eq_refl) as [_ H2].
    rewrite app_empty_r in H2. rewrite Ht in *.
    rewrite parseInt_unsigned, H2; [done|].
    rewrite digit_val_char by done. eauto.
Qed.

Lemma parseInt_toString (n : number) : parseInt (toString n) = n.
Proof. destruct n as [|b]; [reflexivity | apply parseInt_toString_Num]. Qed.

(** ** JSON text: what is written is read back *)

Section JsonFacts.

Import Decimal.

Lemma quote_unit_parse (c : ascii) (rest : string) :
  parse_string_body (quote_unit c +:+ rest) = push c (parse_string_body rest).
Proof. destruct c as [[] [] [] [] [] [] [] []]; reflexivity. Qed.

Lemma parse_string_body_quote (s r : string) :
  parse_string_body (quote_body s +:+ String dquote r) = Some (s, r).
Proof.
  induction s as [|c s IH]; [done|].
  simpl quote_body. by rewrite app_assoc', quote_unit_parse, IH.
Qed.

Lemma quote_app (s r : string) :
  quote s +:+ r = String dquote (quote_body s +:+ String dquote r).
Proof. unfold quote. by rewrite app_cons, app_assoc'. Qed.

Lemma follow_ok_number (r : string) :
  follow_ok r = true -> starts_with_digit r = false /\ after_number_ok r = true.
Proof.
  destruct r as [|c r]; [done|]. simpl.
  destruct c as [[] [] [] [] [] [] [] []]; done.
Qed.

Lemma digit_char_nonzero d : 1 <= d < 10 -> Ascii.eqb (digit_char d) "0" = false.
Proof.
  intros H. destruct (digit_cases d ltac:(lia))
    as [->|[->|[->|[->|[->|[->|[->|[->|[->| ->]]]]]]]]]; done || lia.
Qed.

Lemma digit_char_not_minus d : 0 <= d < 10 -> Ascii.eqb (digit_char d) "-" = false.
Proof.
  intros H. destruct (digit_cases d H)
    as [->|[->|[->|[->|[->|[->|[->|[->|[->| ->]]]]]]]]]; done.
Qed.

Lemma parse_number_unsigned (n : Z) (r : string) :
  0 <= n -> starts_with_digit r = false ->
  forall negative,
    match of_nonneg n +:+ r with
    | String c r' =>
        if Ascii.eqb c "0" then
          if starts_with_digit r' then None else Some (0, r')
        else if starts_with_digit (of_nonneg n +:+ r) then
          let '(v, r') := read_digits 0 (of_nonneg n +:+ r) in
          Some (if negative : bool then - v else v, r')
        else None
    | EmptyString => None
    end = Some (if negative then - n else n, r).
Proof.
  intros Hn Hr negative.
  destruct (of_nonneg_read n r Hn Hr) as [H1 H2].
  destruct (Z.eq_dec n 0) as [->|Hne].
  - change (of_nonneg 0 +:+ r) with (String "0" r). simpl.
    rewrite Hr. by destruct negative.
  - destruct (of_nonneg_head n Hn) as (d & t & Hd & Ht & Hpos).
    rewrite H1, H2. rewrite Ht, app_cons.
    rewrite digit_char_nonzero by lia. done.
Qed.

Lemma parse_number_of_Z (z : Z) (r : string) :
  starts_with_digit r = false -> parse_number (of_Z z +:+ r) = Some (z, r).
Proof.
  intros Hr. unfold parse_number, of_Z.
  destruct (Z.ltb_spec z 0) as [Hneg|Hpos].
  - rewrite app_cons. cbn [Ascii.eqb Bool.eqb].
    rewrite (parse_number_unsigned (- z) r ltac:(lia) Hr true).
    f_equal. f_equal. lia.
  - destruct (of_nonneg_head z Hpos) as (d & t & Hd & Ht & _).
    pose proof (parse_number_unsigned z r Hpos Hr false) as H.
    rewrite Ht, app_cons in *. by rewrite digit_char_not_minus.
Qed.

Lemma parse_value_number (f : nat) (c : ascii) (t : string) :
  c = "-"%char \/ is_Some (digit_val c) ->
  parse_value (S f) (String c t)
  = match parse_number (String c t) with
    | Some (z, r') => if after_number_ok r' then Some (JNum z, r') else None
    | None => None
    end.
Proof.
  intros H.
  destruct c as [[] [] [] [] [] [] [] []];
    try reflexivity; exfalso; destruct H as [H|[d H]]; discriminate H.
Qed.

Lemma of_Z_head (z : Z) :
  exists c t, of_Z z = String c t /\ (c = "-"%char \/ is_Some (digit_val c)).
Proof.
  unfold of_Z. destruct (Z.ltb_spec z 0) as [Hneg|Hpos]; [by eauto|].
  destruct (of_nonneg_head z Hpos) as (d & t & Hd & Ht & _).
  exists (digit_char d), t. split; [done|]. right.
  rewrite digit_val_char by done. eauto.
Qed.

Lemma parse_value_num (f : nat) (z : Z) (r : string) :
  follow_ok r = true ->
  parse_value (S f) (of_Z z +:+ r) = Some (JNum z, r).
Proof.
  intros Hr. apply follow_ok_number in Hr as [Hd Ha].
  pose proof (parse_number_of_Z z r Hd) as Hn.
  destruct (of_Z_head z) as (c & t & Hz & Hc).
  rewrite Hz, app_cons in *.
  by rewrite parse_value_number, Hn, Ha.
Qed.

Lemma parse_value_str (f : nat) (s r : string) :
  parse_value (S f) (quote s +:+ r) = Some (JStr s, r).
Proof.
  rewrite quote_app.
  change (parse_value (S f) (String dquote ?x))
    with (wrap JStr (parse_string_body x)).
  by rewrite parse_string_body_quote.
Qed.

End JsonFacts.

Section JsonRoundTrip.

Import Decimal.

Lemma number_head (c : ascii) :
  c = "-"%char \/ is_Some (digit_val c) -> value_head c.
Proof.
  intros H. destruct c as [[] [] [] [] [] [] [] []];
    try done; exfalso; destruct H as [H|[d H]]; discriminate H.
Qed.

Lemma stringify_arr (l : list json) :
  stringify (JArr l) = "[" +:+ stringify_elems l.
Proof. reflexivity. Qed.

Lemma stringify_obj (l : list (string * json)) :
  stringify (JObj l) = "{" +:+ stringify_members l.
Proof. reflexivity. Qed.

Lemma stringify_head (j : json) (r : string) :
  exists c t, stringify j +:+ r = String c t /\ value_head c.
Proof.
  destruct j as [|[]|z|s|l|l].
  - by exists "n"%char, ("ull" +:+ r).
  - by exists "t"%char, ("rue" +:+ r).
  - by exists "f"%char, ("alse" +:+ r).
  - destruct (of_Z_head z) as (c & t & Hz & Hc). simpl. rewrite Hz.
    exists c, (t +:+ r). split; [done|]. by apply number_head.
  - simpl. rewrite quote_app. eexists _, _. split; [reflexivity|].
    by repeat split.
  - rewrite stringify_arr. by exists "["%char, (stringify_elems l +:+ r).
  - rewrite stringify_obj. by exists "{"%char, (stringify_members l +:+ r).
Qed.

Lemma size_pos (j : json) : (1 <= size j)%nat.
Proof. destruct j; simpl; lia. Qed.

Lemma size_arr (l : list json) : size (JArr l) = S (sizes l).
Proof. reflexivity. Qed.

Lemma size_obj (l : list (string * json)) : size (JObj l) = S (msizes l).
Proof. reflexivity. Qed.

Lemma parse_value_open_arr (f : nat) (c : ascii) (t : string) :
  value_head c ->
  parse_value (S f) (String "[" (String c t))
  = wrap JArr (parse_elems f (String c t)).
Proof.
  intros (Hs & Ha & _).
  change (parse_value (S f) (String "[" (String c t)))
    with (match skip_ws (String c t) with
          | EmptyString => None
          | String c' r' =>
              if Ascii.eqb c' "]" then Some (JArr [], r')
              else wrap JArr (parse_elems f (String c t))
          end).
  simpl skip_ws. by rewrite Hs, Ha.
Qed.

Lemma parse_value_open_obj (f : nat) (c : ascii) (t : string) :
  value_head c ->
  parse_value (S f) (String "{" (String c t))
  = wrap JObj (parse_members f (String c t)).
Proof.
  intros (Hs & _ & Ho).
  change (parse_value (S f) (String "{" (String c t)))
    with (match skip_ws (String c t) with
          | EmptyString => None
          | String c' r' =>
              if Ascii.eqb c' "}" then Some (JObj [], r')
              else wrap JObj (parse_members f (String c t))
          end).
  simpl skip_ws. by rewrite Hs, Ho.
Qed.

Lemma parse_elems_eq (f : nat) (s : string) :
  parse_elems (S f) s
  = match parse_value f s with
    | Some (v, r) =>
        match skip_ws r with
        | String c r' =>
            if Ascii.eqb c "," then
              match parse_elems f r' with
              | Some (vs, r'') => Some (v :: vs, r'')
              | None => None
              end
            else if Ascii.eqb c "]" then Some ([v], r')
            else None
        | EmptyString => None
        end
    | None => None
    end.
Proof. reflexivity. Qed.

Lemma parse_members_eq (f : nat) (k : string) (rest : string) :
  parse_members (S f) (String dquote (quote_body k +:+ String dquote (String ":" rest)))
  = match parse_value f rest with
    | Some (v, r3) =>
        match skip_ws r3 with
        | String c3 r4 =>
            if Ascii.eqb c3 "," then
              match parse_members f r4 with
              | Some (kvs, r5) => Some ((k, v) :: kvs, r5)
              | None => None
              end
            else if Ascii.eqb c3 "}" then Some ([(k, v)], r4)
            else None
        | EmptyString => None
        end
    | None => None
    end.
Proof.
  change (parse_members (S f) (String dquote ?x))
    with (match parse_string_body x with
          | Some (k, r1) =>
              match skip_ws r1 with
              | String c1 r2 =>
                  if Ascii.eqb c1 ":" then
                    match parse_value f r2 with
                    | Some (v, r3) =>
                        match skip_ws r3 with
                        | String c3 r4 =>
                            if Ascii.eqb c3 "," then
                              match parse_members f r4 with
                              | Some (kvs, r5) => Some ((k, v) :: kvs, r5)
                              | None => None
                              end
                            else if Ascii.eqb c3 "}" then Some ([(k, v)], r4)
                            else None
                        | EmptyString => None
                        end
                    | None => None
                    end
                  else None
              | EmptyString => None
              end
          | None => None
          end).
  by rewrite parse_string_body_quote.
Qed.

Lemma member_app (k : string) (v : json) (rest : string) :
  (quote k +:+ ":" +:+ stringify v +:+ rest)
  = String dquote (quote_body k +:+ String dquote (String ":" (stringify v +:+ rest))).
Proof. by rewrite quote_app. Qed.

(** Enough fuel reads a written value back and stops right after it. *)
Lemma parse_stringify_fuel (fuel : nat) :
  (forall j r, (size j <= fuel)%nat -> follow_ok r = true ->
     parse_value fuel (stringify j +:+ r) = Some (j, r))
  /\ (forall l r, l <> [] -> (sizes l <= fuel)%nat ->
        parse_elems fuel (stringify_elems l +:+ r) = Some (l, r))
  /\ (forall l r, l <> [] -> (msizes l <= fuel)%nat ->
        parse_members fuel (stringify_members l +:+ r) = Some (l, r)).
Proof.
  induction fuel as [|f (IHv & IHe & IHm)].
  - split; [|split].
    + intros j r H. pose proof (size_pos j). lia.
    + intros [|x l] r H; [done|]. simpl. lia.
    + intros [|[k v] l] r H; [done|]. simpl. lia.
  - split; [|split].
    + intros j r Hsz Hr. destruct j as [|[]|z|s|l|l]; try reflexivity.
      * by apply parse_value_num.
      * apply parse_value_str.
      * destruct l as [|x l]; [reflexivity|].
        rewrite size_arr in Hsz. rewrite stringify_arr, app_assoc'.
        change ("[" +:+ ?x) with (String "[" x).
        destruct (stringify_head x
                    (match l with [] => "]" | _ => "," +:+ stringify_elems l end +:+ r))
          as (c & t & Hc & Hh).
        assert (stringify_elems (x :: l) +:+ r = String c t) as Ht.
        { rewrite <- Hc. destruct l; simpl stringify_elems;
            by rewrite ?app_assoc'. }
        rewrite Ht, parse_value_open_arr, <- Ht by done.
        rewrite IHe by (done || lia). done.
      * destruct l as [|[k v] l]; [reflexivity|].
        rewrite size_obj in Hsz. rewrite stringify_obj, app_assoc'.
        change ("{" +:+ ?x) with (String "{" x).
        assert (exists t, stringify_members ((k, v) :: l) +:+ r = String dquote t)
          as [t Ht].
        { destruct l as [|[] ?]; simpl stringify_members;
            rewrite ?app_assoc', quote_app; eauto. }
        rewrite Ht, parse_value_open_obj, <- Ht by done.
        rewrite IHm by (done || lia). done.
    + intros [|x l] r Hne Hsz; [done|]. simpl in Hsz.
      rewrite parse_elems_eq. destruct l as [|y l].
      * simpl stringify_elems. rewrite app_assoc'.
        change ("]" +:+ r) with (String "]" r).
        rewrite IHv by (done || lia). done.
      * change (stringify_elems (x :: y :: l))
          with (stringify x +:+ "," +:+ stringify_elems (y :: l)).
        assert (Hl : y :: l <> []) by done.
        assert (Hs : (size x <= f)%nat /\ (sizes (y :: l) <= f)%nat) by lia.
        clear Hsz Hne. revert Hl Hs. generalize (y :: l). intros l' Hl [Hx Hs].
        rewrite !app_assoc'.
        change ("," +:+ ?z) with (String "," z).
        rewrite IHv by done. simpl skip_ws. cbn [Ascii.eqb Bool.eqb].
        rewrite IHe by done. done.
    + intros [|[k v] l] r Hne Hsz; [done|]. simpl in Hsz.
      destruct l as [|[k' v'] l].
      * simpl stringify_members. rewrite !app_assoc', member_app.
        rewrite parse_members_eq.
        change ("}" +:+ r) with (String "}" r).
        rewrite IHv by (done || lia). done.
      * change (stringify_members ((k, v) :: (k', v') :: l))
          with (quote k +:+ ":" +:+ stringify v +:+ "," +:+
                stringify_members ((k', v') :: l)).
        assert (Hl : (k', v') :: l <> []) by done.
        assert (Hs : (size v <= f)%nat /\ (msizes ((k', v') :: l) <= f)%nat) by lia.
        clear Hsz Hne. revert Hl Hs. generalize ((k', v') :: l). intros l' Hl [Hx Hs].
        rewrite !app_assoc', member_app, parse_members_eq.
        change ("," +:+ ?z) with (String "," z).
        rewrite IHv by done. simpl skip_ws. cbn [Ascii.eqb Bool.eqb].
        rewrite IHm by done. done.
Qed.

End JsonRoundTrip.

Section JsonInduction.

Variable P : json -> Prop.
Hypothesis Hnull : P JNull.
Hypothesis Hbool : forall b, P (JBool b).
Hypothesis Hnum : forall z, P (JNum z).
Hypothesis Hstr : forall s, P (JStr s).
Hypothesis Harr : forall l, Forall P l -> P (JArr l).
Hypothesis Hobj : forall l, Forall (fun kv => P kv.2) l -> P (JObj l).

Fixpoint json_nested_ind (j : json) : P j :=
  match j with
  | JNull => Hnull
  | JBool b => Hbool b
  | JNum z => Hnum z
  | JStr s => Hstr s
  | JArr l =>
      Harr l ((fix all (l : list json) : Forall P l :=
                 match l with
                 | [] => List.Forall_nil P
                 | x :: l' => @List.Forall_cons _ P x l' (json_nested_ind x) (all l')
                 end) l)
  | JObj l =>
      Hobj l ((fix all (l : list (string * json)) : Forall (fun kv => P kv.2) l :=
                 match l with
                 | [] => List.Forall_nil _
                 | kv :: l' =>
                     @List.Forall_cons _ (fun kv => P kv.2) kv l'
                       (json_nested_ind kv.2) (all l')
                 end) l)
  end.

End JsonInduction.

Section JsonParse.

Lemma size_le_length (j : json) : (size j <= String.length (stringify j))%nat.
Proof.
  induction j as [|b|z|s|l IH|l IH] using json_nested_ind.
  - simpl. lia.
  - destruct b; simpl; lia.
  - destruct (of_Z_head z) as (c & t & Hz & _). simpl. rewrite Hz. simpl. lia.
  - simpl. lia.
  - rewrite size_arr, stringify_arr.
    change ("[" +:+ ?x) with (String "[" x). simpl String.length.
    apply le_n_S. induction IH as [|x l Hx Hl IHl]; [simpl; lia|].
    change (sizes (x :: l)) with (S (size x + sizes l)).
    destruct l as [|y l].
    + simpl stringify_elems. rewrite app_length'. simpl. lia.
    + change (stringify_elems (x :: y :: l))
        with (stringify x +:+ "," +:+ stringify_elems (y :: l)).
      rewrite !app_length'. simpl String.length at 2. lia.
  - rewrite size_obj, stringify_obj.
    change ("{" +:+ ?x) with (String "{" x). simpl String.length.
    apply le_n_S. induction IH as [|[k v] l Hx Hl IHl]; [simpl; lia|].
    change (msizes ((k, v) :: l)) with (S (size v + msizes l)).
    simpl in Hx. destruct l as [|[k' v'] l].
    + simpl stringify_members. rewrite !app_length'. simpl. lia.
    + change (stringify_members ((k, v) :: (k', v') :: l))
        with (quote k +:+ ":" +:+ stringify v +:+ "," +:+
              stringify_members ((k', v') :: l)).
      rewrite !app_length'. simpl String.length at 2 4. lia.
Qed.

(** [JSON.parse(JSON.stringify(j))] is [j]. *)
Lemma parse_stringify (j : json) : parse (stringify j) = Some j.
Proof.
  unfold parse.
  destruct (parse_stringify_fuel (S (String.length (stringify j)))) as [H _].
  specialize (H j "").
  rewrite app_empty_r in H. rewrite H; [done| |done].
  pose proof (size_le_length j). lia.
Qed.

Lemma JSON_parse_stringify (j : json) : JSON_parse (stringify j) = Value j.
Proof. unfold JSON_parse. by rewrite parse_stringify. Qed.

Lemma stringify_truthy (j : json) : truthy (stringify j) = true.
Proof.
  destruct (stringify_head j "") as (c & t & H & _).
  rewrite app_empty_r in H. by rewrite H.
Qed.

End JsonParse.

(** ** The stored history read back at its type *)

Section Decode.

Lemma mapM_encode {A} (enc : A -> json) (dec : json -> option A) (l : list A) :
  (forall x, dec (enc x) = Some x) -> mapM dec (enc <$> l) = Some l.
Proof.
  intros H. induction l as [|x l IH]; [done|].
  rewrite fmap_cons. simpl. rewrite H. simpl. by rewrite IH.
Qed.

Lemma decode_encode_file f : decode_file (encode_file f) = Some f.
Proof. by destruct f. Qed.

Lemma decode_encode_message m : decode_message (encode_message m) = Some m.
Proof.
  destruct m as [i r c t [a|]]; unfold encode_message; simpl app.
  - pose proof (mapM_encode _ _ a decode_encode_file) as H.
    revert H. simpl artifactFiles. generalize (encode_file <$> a). intros js H.
    unfold decode_message.
    destruct r; cbn -[mapM]; by rewrite H.
  - by destruct r.
Qed.

Lemma decode_encode_entry e : decode_entry (encode_entry e) = Some e.
Proof.
  destruct e as [i tp lv fm pc c d cost ms]. unfold encode_entry.
  pose proof (mapM_encode _ _ ms decode_encode_message) as H.
  revert H. simpl entry_messages. generalize (encode_message <$> ms).
  intros js H. unfold decode_entry. cbn -[mapM]. by rewrite H.
Qed.

Lemma decode_encode_history h : decode_history (encode_history h) = Some h.
Proof. apply (mapM_encode _ _ _ decode_encode_entry). Qed.

End Decode.

(** ** Persistence *)

Section Persistence.

Lemma keys_distinct :
  KEY_POINTS <> KEY_HISTORY /\ KEY_POINTS <> KEY_USER /\ KEY_POINTS <> KEY_SESSION
  /\ KEY_HISTORY <> KEY_USER /\ KEY_HISTORY <> KEY_SESSION
  /\ KEY_USER <> KEY_SESSION.
Proof. repeat split; discriminate. Qed.

(** The persisting effects bring the two texts in step with the new
    render and touch no other key. *)
Lemma run_effects_persisted old new (m : gmap string string) :
  m !! KEY_POINTS = Some (toString (points old)) ->
  m !! KEY_HISTORY = Some (stringify (encode_history (history old))) ->
  exists m', run_effects old new (Some m) = Some m'
    /\ m' !! KEY_POINTS = Some (toString (points new))
    /\ m' !! KEY_HISTORY = Some (stringify (encode_history (history new)))
    /\ m' !! KEY_USER = m !! KEY_USER
    /\ m' !! KEY_SESSION = m !! KEY_SESSION.
Proof.
  intros Hp Hh. destruct keys_distinct as (? & ? & ? & ? & ? & ?).
  unfold run_effects, persist_points, persist_history, setItem.
  destruct (decide (points old = points new)) as [Ep|Ep];
    destruct (decide (history old = history new)) as [Eh|Eh];
    rewrite <- ?Ep, <- ?Eh;
    generalize (stringify (encode_history (history new)));
    revert Hh; generalize (stringify (encode_history (history old)));
    intros h Hh h';
    cbn [fmap option_fmap option_map]; eexists; (split; [reflexivity|]);
    rewrite ?lookup_insert; repeat case_decide; done.
Qed.

Lemma rendered_store_ok w s fl :
  userId s = userId (ui w) -> sessionId s = sessionId (ui w) ->
  (exists b, points s = Num b /\ 0 <= b) ->
  store_ok w -> store_ok (rendered w s fl).
Proof.
  intros Hu Hs Hb [_ Hw]. split; [done|]. simpl.
  destruct (storage w) as [m|] eqn:E.
  - destruct (Hw m eq_refl) as (Hp & Hh & Hku & Htu & Hks & Hts).
    destruct (run_effects_persisted (ui w) s m Hp Hh)
      as (m' & -> & Hp' & Hh' & Hu' & Hs').
    intros ? [= <-]. unfold persisted.
    rewrite Hp', Hh', Hu', Hs', Hu, Hs. done.
  - unfold run_effects, persist_points, persist_history, setItem.
    repeat case_decide; done.
Qed.

Lemma ensure_id_stored key fresh (m : gmap string string) v :
  m !! key = Some v -> truthy v = true -> ensure_id key fresh m = (v, m).
Proof. intros H Hv. unfold ensure_id. by rewrite H, Hv. Qed.

Lemma ensure_id_absent key fresh (m : gmap string string) :
  m !! key = None -> ensure_id key fresh m = (fresh, <[key := fresh]> m).
Proof. intros H. unfold ensure_id. by rewrite H. Qed.

(** Loading over a store in step with a state gives that state's
    balance, archive and identifiers back, and a store in step again. *)
Lemma mount_persisted (s : State) (m : gmap string string) id1 id2 :
  persisted s m ->
  exists s' m',
    mount id1 id2 (Some m) = (s', Some m')
    /\ points s' = points s /\ history s' = history s
    /\ userId s' = userId s /\ sessionId s' = sessionId s
    /\ persisted s' m'.
Proof.
  intros (Hp & Hh & Hku & Htu & Hks & Hts).
  destruct keys_distinct as (? & ? & ? & ? & ? & ?).
  unfold mount, init_effect. rewrite Hp, parseInt_toString.
  unfold rehydrate_history. rewrite Hh, stringify_truthy, JSON_parse_stringify.
  rewrite decode_encode_history.
  rewrite (ensure_id_stored _ _ _ _ Hku Htu), (ensure_id_stored _ _ _ _ Hks Hts).
  set (s' := setSessionId _ _).
  destruct (run_effects_persisted initial_state s'
              (<[KEY_HISTORY := stringify (encode_history (history initial_state))]>
                 (<[KEY_POINTS := toString (points initial_state)]> m)))
    as (m' & Hm' & Hp' & Hh' & Hu' & Hs').
  { by rewrite lookup_insert_ne, lookup_insert_eq. }
  { by rewrite lookup_insert_eq. }
  exists s', m'. split.
  { rewrite <- Hm'. reflexivity. }
  rewrite !lookup_insert_ne in Hu', Hs' by done.
  unfold persisted. rewrite Hp', Hh', Hu', Hs'. subst s'. done.
Qed.

(** What a load reads from a store holding the texts of [s]. *)
Lemma mount_reads (s : State) (m : gmap string string) id1 id2 :
  m !! KEY_POINTS = Some (toString (points s)) ->
  m !! KEY_HISTORY = Some (stringify (encode_history (history s))) ->
  m !! KEY_USER = Some (userId s) -> truthy (userId s) = true ->
  points (mount id1 id2 (Some m)).1 = points s
  /\ history (mount id1 id2 (Some m)).1 = history s
  /\ userId (mount id1 id2 (Some m)).1 = userId s
  /\ (forall sid, m !! KEY_SESSION = Some sid -> truthy sid = true ->
        sessionId (mount id1 id2 (Some m)).1 = sid).
Proof.
  intros Hp Hh Hku Htu.
  unfold mount, init_effect. rewrite Hp, parseInt_toString.
  unfold rehydrate_history. rewrite Hh, stringify_truthy, JSON_parse_stringify.
  rewrite decode_encode_history.
  rewrite (ensure_id_stored _ _ _ _ Hku Htu).
  destruct (ensure_id KEY_SESSION id2 m) as [sid' m2] eqn:E.
  repeat split. intros sid Hs Ht.
  rewrite (ensure_id_stored _ _ _ _ Hs Ht) in E. by injection E as -> _.
Qed.

Lemma mount_fresh id1 id2 :
  generated id1 -> generated id2 ->
  exists s' m',
    mount id1 id2 (Some ∅) = (s', Some m')
    /\ points s' = Num INITIAL_POINTS /\ persisted s' m'.
Proof.
  intros H1 H2. destruct keys_distinct as (? & ? & ? & ? & ? & ?).
  unfold mount, init_effect, rehydrate_history.
  rewrite !lookup_empty.
  rewrite ensure_id_absent by apply lookup_empty.
  rewrite ensure_id_absent by (by rewrite lookup_insert_ne).
  set (s' := setSessionId _ _). set (m := <[KEY_SESSION := id2]> _).
  destruct (run_effects_persisted initial_state s'
              (<[KEY_HISTORY := stringify (encode_history (history initial_state))]>
                 (<[KEY_POINTS := toString (points initial_state)]> m)))
    as (m' & Hm' & Hp' & Hh' & Hu' & Hs').
  { by rewrite lookup_insert_ne, lookup_insert_eq. }
  { by rewrite lookup_insert_eq. }
  exists s', m'. split.
  { rewrite <- Hm'. reflexivity. }
  split; [done|].
  rewrite !lookup_insert_ne in Hu', Hs' by done.
  unfold persisted. rewrite Hp', Hh', Hu', Hs'. subst s' m. simpl.
  rewrite lookup_insert_ne, lookup_insert_eq, lookup_insert_eq by done.
  done.
Qed.

Lemma mount_unavailable id1 id2 : mount id1 id2 None = (initial_state, None).
Proof. done. Qed.

Lemma store_ok_load id1 id2 (s : State) st :
  generated id1 -> generated id2 ->
  (exists b, points s = Num b /\ 0 <= b) ->
  (forall m, st = Some m -> persisted s m) ->
  store_ok (load id1 id2 st)
  /\ (forall m, st = Some m ->
        points (ui (load id1 id2 st)) = points s
        /\ history (ui (load id1 id2 st)) = history s
        /\ userId (ui (load id1 id2 st)) = userId s
        /\ sessionId (ui (load id1 id2 st)) = sessionId s).
Proof.
  intros H1 H2 (b & Hb & Hb0) Hst. unfold load. destruct st as [m|].
  - destruct (mount_persisted s m id1 id2 (Hst m eq_refl))
      as (s' & m' & -> & Hp & Hh & Hu & Hs & Hper).
    split.
    + split; [exists b; simpl; by rewrite Hp|].
      simpl. by intros ? [= <-].
    + intros ? _. done.
  - rewrite mount_unavailable. split; [|done].
    split; [by exists INITIAL_POINTS|done].
Qed.

Lemma store_ok_step e w : event_ok e -> store_ok w -> store_ok (step e w).
Proof.
  intros He Hw. pose proof Hw as [(b & Hb & Hb0) Hst].
  destruct e as [text|newId now|n o st|pl txt|open|sid| | |id1 id2].
  - apply rendered_store_ok; eauto.
  - simpl. pose proof (sendMessage_begin_history newId now (ui w)) as [Hh Hp].
    assert (userId (sendMessage_begin newId now (ui w)).1 = userId (ui w)
            /\ sessionId (sendMessage_begin newId now (ui w)).1 = sessionId (ui w))
      as [Hu Hs].
    { unfold sendMessage_begin. destruct (_ || _); [done|].
      by destruct (num_lt _ _). }
    destruct (sendMessage_begin newId now (ui w)) as [s p]. simpl in *.
    apply rendered_store_ok; [done..| |done]. rewrite Hp. eauto.
  - simpl. destruct (inflight w !! n) as [p|]; [|done].
    apply rendered_store_ok; [by destruct o as [[[]]|]..| |done].
    destruct o as [r|]; [|by eauto]. destruct (success r) eqn:E.
    + rewrite sendMessage_settle_success by done. simpl.
      unfold setPoints_with. simpl. rewrite Hb. simpl.
      eexists. split; [done|]. lia.
    + unfold sendMessage_settle. rewrite E. simpl. eauto.
  - apply rendered_store_ok; [done..| |done]. simpl. rewrite Hb. simpl.
    eexists. split; [done|]. destruct pl; simpl; lia.
  - apply rendered_store_ok; eauto.
  - simpl. split; [simpl; eauto|]. simpl.
    rewrite run_effects_keep by done.
    destruct (storage w) as [m|] eqn:E; [|done].
    destruct (Hst m eq_refl) as (Hp & Hh & Hku & Htu & Hks & Hts).
    destruct keys_distinct as (? & ? & ? & ? & ? & ?).
    intros ? [= <-]. unfold persisted. simpl.
    rewrite !lookup_insert_ne, lookup_insert_eq by done. done.
  - apply rendered_store_ok; eauto.
  - apply rendered_store_ok; eauto.
  - destruct He as [H1 H2].
    apply (store_ok_load id1 id2 (ui w) (storage w)); eauto.
Qed.

Lemma reachable_store_ok w : reachable w -> store_ok w.
Proof.
  induction 1 as [av id1 id2 H1 H2|]; [|by apply store_ok_step].
  unfold load. destruct av; simpl fresh_storage.
  - destruct (mount_fresh id1 id2 H1 H2) as (s' & m' & -> & Hp & Hper).
    split; [exists INITIAL_POINTS; simpl; by rewrite Hp|].
    simpl. by intros ? [= <-].
  - rewrite mount_unavailable. split; [by exists INITIAL_POINTS|done].
Qed.

End Persistence.

(** C5.  The balance is a non-negative integer in every state the page
    can reach from a first visit: every event keeps it so, the debit of a
    successful generation being max(0, balance - 75), the credit of a
    purchase adding the points of the plan bought, and a reload reading
    back the decimal text the page stored. *)
Theorem balance_nonnegative (w : System) :
  reachable w ->
  (exists b, points (ui w) = Num b /\ 0 <= b)
  /\ (forall e, event_ok e ->
        exists b', points (ui (step e w)) = Num b' /\ 0 <= b')
  /\ (forall p r st b, points (ui w) = Num b -> success r = true ->
        points (sendMessage_settle p (Resolved r) st (ui w))
        = Num (Z.max 0 (b - 75)))
  /\ (forall pl txt b, points (ui w) = Num b ->
        points (handleBuyPoints (plan_points pl) txt (ui w))
        = Num (b + plan_points pl)
        /\ 0 < plan_points pl)
  /\ (forall id1 id2 m, storage w = Some m ->
        points (ui (load id1 id2 (storage w))) = points (ui w)).
Proof.
  intros Hw. pose proof (reachable_store_ok w Hw) as Hok.
  split; [apply Hok|]. split; [|split; [|split]].
  - intros e He. by apply (store_ok_step e w He Hok).
  - intros p r st b Hb Hs. rewrite sendMessage_settle_success by done.
    simpl. unfold setPoints_with. simpl. by rewrite Hb.
  - intros pl txt b Hb. simpl. rewrite Hb. split; [done|]. by destruct pl.
  - intros id1 id2 m Hm. destruct Hok as [_ Hst].
    destruct (mount_persisted (ui w) m id1 id2 (Hst m Hm))
      as (s' & m' & Hmount & Hp & _).
    unfold load. rewrite Hm, Hmount. done.
Qed.

(** C9.  Persisting a state (the balance as decimal text, the archive as
    JSON text, next to the stored user id) and loading the page again
    gives back the same balance, the same archive, entry for entry in the
    same order, and the same user id; and in every state the running page
    can reach with a usable store, a reload shows the balance, archive,
    user id and session id it showed before. *)
Theorem reload_reproduces (s : State) (m : gmap string string) (w : System)
    (id1 id2 : string) :
  m !! KEY_USER = Some (userId s) ->
  truthy (userId s) = true ->
  reachable w ->
  is_Some (storage w) ->
  (let st := persist_history s (persist_points s (Some m)) in
   let s' := (mount id1 id2 st).1 in
   (exists m0, st = Some m0
      /\ m0 !! KEY_POINTS = Some (toString (points s))
      /\ m0 !! KEY_HISTORY = Some (stringify (encode_history (history s))))
   /\ points s' = points s
   /\ history s' = history s
   /\ userId s' = userId s)
  /\ (let w' := step (EvLoad id1 id2) w in
      points (ui w') = points (ui w)
      /\ history (ui w') = history (ui w)
      /\ userId (ui w') = userId (ui w)
      /\ sessionId (ui w') = sessionId (ui w)).
Proof.
  intros Hu Ht Hw [m1 Hm1].
  destruct keys_distinct as (? & ? & ? & ? & ? & ?).
  split.
  - cbv zeta.
    set (m0 := <[KEY_HISTORY := stringify (encode_history (history s))]>
                 (<[KEY_POINTS := toString (points s)]> m)).
    change (persist_history s (persist_points s (Some m))) with (Some m0).
    assert (Hp0 : m0 !! KEY_POINTS = Some (toString (points s)))
      by (subst m0; by rewrite lookup_insert_ne, lookup_insert_eq).
    assert (Hh0 : m0 !! KEY_HISTORY
                  = Some (stringify (encode_history (history s))))
      by (subst m0; by rewrite lookup_insert_eq).
    assert (Hu0 : m0 !! KEY_USER = Some (userId s))
      by (subst m0; by rewrite !lookup_insert_ne).
    split; [by exists m0|].
    destruct (mount_reads s m0 id1 id2 Hp0 Hh0 Hu0 Ht) as (? & ? & ? & _).
    done.
  - pose proof (reachable_store_ok w Hw) as [_ Hst].
    destruct (mount_persisted (ui w) m1 id1 id2 (Hst m1 Hm1))
      as (s' & m' & Hmount & Hp & Hh & Hid & Hs & _).
    cbv zeta. simpl step. unfold load. rewrite Hm1, Hmount. done.
Qed.

(** ** Instances on the sample visit *)

Lemma demo_typed_reachable : reachable Demo.typed.
Proof. apply reach_step; [exact I|]. by apply reach_first. Defined.

Lemma demo_sending_reachable : reachable Demo.sending.
Proof. apply reach_step; [reflexivity|]. apply demo_typed_reachable. Defined.

Lemma demo_begin :
  sendMessage_begin "m1" "10:00" (ui Demo.typed)
  = (ui Demo.sending, Some Demo.pending).
Proof. vm_compute. reflexivity. Defined.

Lemma classify_spec_witness :
  contains_ci "Redes no Ensino MEDIO, em SLIDES" "medio"
  /\ spec_level "Redes no Ensino MEDIO, em SLIDES" "Medio"
  /\ spec_format "Redes no Ensino MEDIO, em SLIDES" "slides".
Proof.
  split.
  - exists "Redes no Ensino ", "MEDIO", ", em SLIDES". split; [reflexivity|].
    repeat (constructor;
            [right; right; split; [left; split; by vm_compute|reflexivity]|]).
    constructor.
  - apply (proj1 classify_spec "Redes no Ensino MEDIO, em SLIDES").
    reflexivity.
Defined.

Lemma filteredHistory_spec_witness :
  filter (spec_matches "REDES" "Tecnico" "all")
    [ {| entry_id := "e2"; topic := "Slides sobre fotossintese";
         level := "Faculdade"; format := "slides"; pageCount := 0;
         entry_content := ""; date := "01/11/2026"; pointCost := 75;
         entry_messages := [] |};
      make_entry Demo.pending Demo.stamp "# Redes"
        (make_assistant Demo.stamp Demo.result_ok) ]
  = [ make_entry Demo.pending Demo.stamp "# Redes"
        (make_assistant Demo.stamp Demo.result_ok) ]
  /\ spec_matches "REDES" "Tecnico" "all"
       (make_entry Demo.pending Demo.stamp "# Redes"
          (make_assistant Demo.stamp Demo.result_ok)).
Proof.
  destruct (filteredHistory_spec
              [ {| entry_id := "e2"; topic := "Slides sobre fotossintese";
                   level := "Faculdade"; format := "slides"; pageCount := 0;
                   entry_content := ""; date := "01/11/2026"; pointCost := 75;
                   entry_messages := [] |};
                make_entry Demo.pending Demo.stamp "# Redes"
                  (make_assistant Demo.stamp Demo.result_ok) ])
    as (H1 & _ & _ & H4).
  split.
  - rewrite <- H1. by vm_compute.
  - apply (H4 "REDES" "Tecnico" "all"). replace (filteredHistory _ _ _ _)
      with [ make_entry Demo.pending Demo.stamp "# Redes"
               (make_assistant Demo.stamp Demo.result_ok) ]
      by (by vm_compute).
    apply list_elem_of_here.
Defined.

Lemma submit_blank_noop_witness :
  trim (inputValue (ui Demo.blank_poor)) = ""
  /\ sendMessage_begin "m1" "10:00" (ui Demo.blank_poor) = (ui Demo.blank_poor, None)
  /\ step (EvSubmit "m1" "10:00") Demo.blank_poor = Demo.blank_poor.
Proof.
  split; [reflexivity|].
  apply (submit_blank_noop Demo.blank_poor "m1" "10:00"). reflexivity.
Defined.

Lemma submit_insufficient_witness :
  trim (inputValue (ui Demo.topic_poor)) <> ""
  /\ points (ui Demo.topic_poor) = Num 10
  /\ showBuyModal (ui (step (EvSubmit "m1" "10:00") Demo.topic_poor)) = true
  /\ messages (ui (step (EvSubmit "m1" "10:00") Demo.topic_poor)) = [].
Proof.
  assert (H : trim (inputValue (ui Demo.topic_poor)) <> "") by discriminate.
  split; [exact H|]. split; [reflexivity|].
  destruct (submit_insufficient Demo.topic_poor "m1" "10:00" 10 H eq_refl eq_refl
              ltac:(lia)) as (_ & _ & Hm & _ & _ & _ & Hb).
  split; [exact Hb | exact Hm].
Defined.

Lemma failure_no_charge_witness :
  failed (Resolved Demo.result_failed)
  /\ let s2 := sendMessage_settle Demo.pending (Resolved Demo.result_failed)
                 Demo.stamp (ui Demo.sending) in
     points s2 = Num 250 /\ history s2 = [] /\ messages s2 = [Demo.user_message].
Proof.
  split; [reflexivity|].
  destruct (failure_no_charge (ui Demo.typed) (ui Demo.sending) Demo.pending
              "m1" "10:00" (Resolved Demo.result_failed) Demo.stamp
              demo_begin eq_refl) as [(Hp & Hh & Hm & _) _].
  cbv zeta in *. split; [exact Hp|]. split; [exact Hh | exact Hm].
Defined.

Lemma success_charges_and_archives_witness :
  no_load Demo.events
  /\ points (sendMessage_settle Demo.pending (Resolved Demo.result_ok) Demo.stamp
               (ui Demo.sending)) = Num 175
  /\ length (created Demo.events Demo.first_visit) = 2%nat
  /\ history (ui (run Demo.events Demo.first_visit))
     = reverse (created Demo.events Demo.first_visit).
Proof.
  assert (H : no_load Demo.events) by (repeat constructor).
  split; [exact H|].
  destruct (success_charges_and_archives Demo.first_visit Demo.events Demo.pending
              Demo.result_ok Demo.stamp (ui Demo.sending) 250 eq_refl eq_refl H)
    as [[Hp _] (Hh & _)].
  split; [exact Hp|]. split; [reflexivity|].
  rewrite Hh. apply app_nil_r.
Defined.

Lemma second_submit_noop_witness :
  isGenerating (ui Demo.sending) = true
  /\ length (inflight Demo.sending) = 1%nat
  /\ step (EvSubmit "m2" "10:00") Demo.sending = Demo.sending.
Proof.
  destruct (second_submit_noop Demo.sending "m2" "10:00" demo_sending_reachable)
    as (_ & _ & H).
  split; [reflexivity|]. split; [reflexivity|]. apply (H eq_refl).
Defined.


Lemma balance_nonnegative_witness :
  exists b, points (ui Demo.sending) = Num b /\ 0 <= b.
Proof. apply (balance_nonnegative Demo.sending demo_sending_reachable). Defined.

Lemma reload_reproduces_witness :
  let w' := step (EvLoad "u2" "s2") Demo.sending in
  points (ui w') = points (ui Demo.sending)
  /\ history (ui w') = history (ui Demo.sending)
  /\ userId (ui w') = "u1"
  /\ sessionId (ui w') = "s1".
Proof.
  assert (Hs : is_Some (storage Demo.sending)) by (eexists; reflexivity).
  assert (Hu : ({[ KEY_USER := "u1" ]} : gmap string string) !! KEY_USER
               = Some (userId (ui Demo.sending)))
    by (vm_compute; reflexivity).
  destruct (reload_reproduces (ui Demo.sending) {[ KEY_USER := "u1" ]}
              Demo.sending "u2" "s2" Hu eq_refl demo_sending_reachable Hs)
    as [_ H].
  exact H.
Defined.

(** * The rest of the page: proofs *)

(** ** The page-level system *)

Section PageSystem.

Lemma state_eta (s : State) :
  setActiveScreen (activeScreen s) (setShowBuyModal (showBuyModal s)
    (setMobileMenuOpen (mobileMenuOpen s) (setChatError (chatError s) s))) = s.
Proof. by destruct s. Qed.

Lemma cosmetic_refl w : cosmetic w w.
Proof.
  split; [done|]. split; [done|].
  exists (activeScreen (ui w)), (showBuyModal (ui w)), (mobileMenuOpen (ui w)),
    (chatError (ui w)).
  by rewrite state_eta.
Qed.

Lemma cosmetic_rendered w s :
  (exists a b c d,
     s = setActiveScreen a (setShowBuyModal b (setMobileMenuOpen c
           (setChatError d (ui w))))) ->
  cosmetic w (rendered w s (inflight w)).
Proof.
  intros (a & b & c & d & ->). split; [done|]. split; [|by eauto].
  simpl. by apply run_effects_keep.
Qed.

Lemma navigateTo_cosmetic screen s :
  exists a b c d,
    navigateTo screen s
    = setActiveScreen a (setShowBuyModal b (setMobileMenuOpen c (setChatError d s))).
Proof.
  exists (match screen with buy => activeScreen s | x => x end),
    (match screen with buy => true | _ => showBuyModal s end), false,
    (chatError s).
  by destruct screen, s.
Qed.

(** A page load sets four cells over the initial state; the balance is
    the one read from the store. *)
Lemma mount_shape id1 id2 st :
  exists h u i,
    (mount id1 id2 st).1
    = setSessionId i (setUserId u (setHistory h
        (setPoints (stored_points st) initial_state))).
Proof.
  unfold mount, init_effect. destruct st as [m|].
  2: { by exists [], "", "". }
  set (s0 := match m !! KEY_POINTS with
             | Some t => setPoints (parseInt t) initial_state
             | None => initial_state
             end).
  assert (s0 = setSessionId "" (setUserId "" (setHistory []
                 (setPoints (stored_points (Some m)) initial_state)))) as Hs0
    by (subst s0; simpl; by destruct (m !! KEY_POINTS)).
  assert (setHistory [] s0 = s0) as Hh0 by (by rewrite Hs0).
  destruct (rehydrate_history m s0) as [s1|] eqn:E.
  - assert (exists h, s1 = setHistory h s0) as [h ->].
    { unfold rehydrate_history in E.
      destruct (m !! KEY_HISTORY) as [t|];
        [|exists []; injection E as <-; by rewrite Hh0].
      destruct (truthy t); [|exists []; injection E as <-; by rewrite Hh0].
      destruct (Json.JSON_parse t) as [j| |];
        [|exists []; injection E as <-; by rewrite Hh0|done].
      destruct (decode_history j) as [h|]; injection E as <-; [by exists h|].
      exists []. by rewrite Hh0. }
    destruct (ensure_id KEY_USER id1 m) as [u m1].
    destruct (ensure_id KEY_SESSION id2 m1) as [i m2].
    exists h, u, i. cbn [fst]. by rewrite Hs0.
  - exists [], "", "". cbn [fst]. by rewrite Hs0 at 1.
Qed.

Lemma load_shape id1 id2 st :
  exists p h u i,
    ui (load id1 id2 st)
    = setSessionId i (setUserId u (setHistory h (setPoints p initial_state))).
Proof.
  unfold load. destruct (mount_shape id1 id2 st) as (h & u & i & H).
  exists (stored_points st), h, u, i. by destruct (mount id1 id2 st).
Qed.

(** Every event of the page either is one of the events modelled above or
    leaves everything but the screen, the overlays and the error notice
    alone. *)
Lemma page_step_cases ev pg :
  page_event_ok ev ->
  (exists e, event_ok e /\ sys (page_step ev pg) = step e (sys pg))
  \/ cosmetic (sys pg) (sys (page_step ev pg)).
Proof.
  intros Hev.
  destruct ev as [e|k newId now|screen|id|id|text|v|v|on| |open|];
    try (right; apply cosmetic_refl).
  - left. by exists e.
  - simpl. destruct (handleKeyPress k).
    + left. by exists (EvSubmit newId now).
    + right. apply cosmetic_refl.
  - right. apply cosmetic_rendered, navigateTo_cosmetic.
  - right. apply (cosmetic_rendered (sys pg)), navigateTo_cosmetic.
  - right. apply cosmetic_rendered.
    exists (activeScreen (ui (sys pg))), (showBuyModal (ui (sys pg))), open,
      (chatError (ui (sys pg))).
    by destruct (ui (sys pg)).
  - right. apply cosmetic_rendered.
    exists (activeScreen (ui (sys pg))), (showBuyModal (ui (sys pg))),
      (mobileMenuOpen (ui (sys pg))), "".
    by destruct (ui (sys pg)).
Qed.

(** Induction over the page for a property of the system. *)
Lemma reachable_page_sys (P : System -> Prop) :
  (forall av id1 id2, generated id1 -> generated id2 ->
     P (load id1 id2 (fresh_storage av))) ->
  (forall e w, event_ok e -> P w -> P (step e w)) ->
  (forall w w', cosmetic w w' -> P w -> P w') ->
  forall pg, reachable_page pg -> P (sys pg).
Proof.
  intros Hfirst Hstep Hcos pg Hpg.
  induction Hpg as [av id1 id2 H1 H2|ev pg Hev Hpg IH]; [by apply Hfirst|].
  destruct (page_step_cases ev pg Hev) as [(e & He & ->)|Hc].
  - by apply Hstep.
  - by apply (Hcos (sys pg)).
Qed.

(** The states of the system modelled above are states of the page. *)
Lemma reachable_lift w :
  reachable w -> exists pg, reachable_page pg /\ sys pg = w.
Proof.
  induction 1 as [av id1 id2 H1 H2|e w He Hw (pg & Hpg & <-)].
  - exists (first_page av id1 id2). split; [by constructor|done].
  - exists (page_step (PgCore e) pg). split; [by constructor|done].
Qed.

Lemma cosmetic_fields w w' :
  cosmetic w w' ->
  inflight w' = inflight w /\ storage w' = storage w
  /\ points (ui w') = points (ui w) /\ messages (ui w') = messages (ui w)
  /\ history (ui w') = history (ui w) /\ isGenerating (ui w') = isGenerating (ui w)
  /\ userId (ui w') = userId (ui w) /\ sessionId (ui w') = sessionId (ui w)
  /\ inputValue (ui w') = inputValue (ui w)
  /\ activeAgentId (ui w') = activeAgentId (ui w).
Proof. intros (Hi & Hs & a & b & c & d & ->). done. Qed.

Lemma single_flight_cosmetic w w' : cosmetic w w' -> single_flight w -> single_flight w'.
Proof.
  intros Hc. apply cosmetic_fields in Hc as (Hi & _ & _ & _ & _ & Hg & _).
  unfold single_flight. by rewrite Hi, Hg.
Qed.

Lemma store_ok_cosmetic w w' : cosmetic w w' -> store_ok w -> store_ok w'.
Proof.
  intros Hc. apply cosmetic_fields in Hc
    as (_ & Hs & Hp & _ & Hh & _ & Hu & Hsi & _).
  unfold store_ok, persisted. by rewrite Hs, Hp, Hh, Hu, Hsi.
Qed.

Lemma user_turns_cosmetic w w' :
  cosmetic w w' -> user_turns_nonempty (messages (ui w)) ->
  user_turns_nonempty (messages (ui w')).
Proof.
  intros Hc. apply cosmetic_fields in Hc as (_ & _ & _ & Hm & _). by rewrite Hm.
Qed.

Lemma reachable_page_core pg :
  reachable_page pg ->
  single_flight (sys pg) /\ store_ok (sys pg)
  /\ user_turns_nonempty (messages (ui (sys pg))).
Proof.
  apply (reachable_page_sys
           (fun w => single_flight w /\ store_ok w
                     /\ user_turns_nonempty (messages (ui w)))).
  - intros av id1 id2 H1 H2.
    assert (reachable (load id1 id2 (fresh_storage av))) as Hr by by constructor.
    split; [apply single_flight_load|]. split; [by apply reachable_store_ok|].
    by apply reachable_user_turns.
  - intros e w He (H1 & H2 & H3).
    split; [by apply single_flight_step|]. split; [by apply store_ok_step|].
    by apply user_turns_step.
  - intros w w' Hc (H1 & H2 & H3).
    split; [by apply (single_flight_cosmetic w)|].
    split; [by apply (store_ok_cosmetic w)|]. by apply (user_turns_cosmetic w).
Qed.

End PageSystem.

(** X1.  With every handler of the page taken in (key presses, navigation,
    card expansion, the filters, the sample switch, the menus and the error
    notice, next to submit, call return, purchase, new work, timers and
    reload), at most one call is pending and the flag [isGenerating] is up
    exactly then, the balance is a non-negative integer, and a usable
    store holds the balance, the archive and the two identifiers shown. *)
Theorem page_keeps_ledger_and_store (pg : Page) :
  reachable_page pg ->
  (length (inflight (sys pg)) <= 1)%nat
  /\ (isGenerating (ui (sys pg)) = true <-> inflight (sys pg) <> [])
  /\ (exists b, points (ui (sys pg)) = Num b /\ 0 <= b)
  /\ (forall m, storage (sys pg) = Some m -> persisted (ui (sys pg)) m).
Proof.
  intros Hpg. destruct (reachable_page_core pg Hpg) as (Hf & [Hb Hs] & _).
  split; [|split; [|done]].
  - destruct Hf as [[-> _]|(p & -> & _)]; simpl; lia.
  - destruct Hf as [[-> ->]|(p & -> & ->)]; split; done.
Qed.

(** ** The active screen and the agent badge *)

Section Screens.

Lemma navigateTo_screen screen s :
  activeScreen s <> buy -> activeScreen (navigateTo screen s) <> buy.
Proof. by destruct screen. Qed.

Lemma step_screen e w :
  activeScreen (ui w) <> buy -> activeScreen (ui (step e w)) <> buy.
Proof.
  intros Hw.
  destruct e as [text|newId now|n o st|pl txt|open|sid| | |id1 id2];
    try done.
  - simpl. unfold sendMessage_begin. destruct (_ || _); [done|].
    by destruct (num_lt _ _).
  - simpl. destruct (inflight w !! n); [|done].
    destruct o as [r|]; [|done]. simpl. by destruct (success r).
  - simpl. destruct (load_shape id1 id2 (storage w)) as (p & h & u & i & ->).
    done.
Qed.

Lemma page_step_screen ev pg :
  activeScreen (ui (sys pg)) <> buy ->
  activeScreen (ui (sys (page_step ev pg))) <> buy.
Proof.
  intros Hpg.
  destruct ev as [e|k newId now|screen|id|id|text|v|v|on| |open|]; try done.
  - by apply step_screen.
  - simpl. destruct (handleKeyPress k); [|done].
    by apply (step_screen (EvSubmit newId now)).
  - by apply navigateTo_screen.
Qed.

Lemma badge_matches_step e w : badge_matches w -> badge_matches (step e w).
Proof.
  unfold badge_matches. intros Hw.
  destruct e as [text|newId now|n o st|pl txt|open|sid| | |id1 id2];
    try done.
  - simpl. unfold sendMessage_begin. destruct (_ || _); [done|].
    by destruct (num_lt _ _).
  - simpl. by destruct (inflight w !! n).
  - simpl. destruct (load_shape id1 id2 (storage w)) as (p & h & u & i & ->).
    done.
Qed.

End Screens.

(** X2.  The purchase entry of the menus never becomes the active screen:
    [navigateTo('buy')] opens the purchase dialog and leaves the screen
    where it is, and no other handler sets the screen to it, so in every
    state of the page the active screen is the dashboard, the chat or the
    history. *)
Theorem buy_is_never_a_screen (pg : Page) :
  reachable_page pg ->
  activeScreen (ui (sys pg)) <> buy
  /\ showBuyModal (ui (sys (page_step (PgNavigate buy) pg))) = true
  /\ activeScreen (ui (sys (page_step (PgNavigate buy) pg)))
     = activeScreen (ui (sys pg)).
Proof.
  intros Hpg. split; [|done].
  induction Hpg as [av id1 id2 H1 H2|ev pg Hev Hpg IH].
  - apply (step_screen (EvLoad id1 id2)
             {| ui := initial_state; inflight := [];
                storage := fresh_storage av |}). done.
  - by apply page_step_screen.
Qed.

(** X3.  The agent status card shows the agent active exactly while a
    generation is in flight: [activeAgentId] is the agent's id when
    [isGenerating] is set and null otherwise, in every state of the page. *)
Theorem agent_badge_follows_generation (pg : Page) :
  reachable_page pg ->
  agent_active (ui (sys pg)) = isGenerating (ui (sys pg))
  /\ (isGenerating (ui (sys pg)) = true ->
      activeAgentId (ui (sys pg)) = Some AGENT_ID).
Proof.
  intros Hpg.
  assert (badge_matches (sys pg)) as H.
  { revert pg Hpg. apply (reachable_page_sys badge_matches).
    - intros av id1 id2 _ _.
      apply (badge_matches_step (EvLoad id1 id2)
               {| ui := initial_state; inflight := [];
                  storage := fresh_storage av |}). done.
    - intros e w _. apply badge_matches_step.
    - intros w w' Hc. apply cosmetic_fields in Hc
        as (_ & _ & _ & _ & _ & Hg & _ & _ & _ & Ha).
      unfold badge_matches. by rewrite Hg, Ha. }
  unfold badge_matches in H. unfold agent_active. rewrite H.
  by destruct (isGenerating (ui (sys pg))).
Qed.

(** ** What the page archives and shows *)

Section Archive.

Lemma level_of_known (t : string) :
  level_of t ∈ ["Fundamental"; "Medio"; "Tecnico"; "Faculdade"].
Proof.
  unfold level_of. rewrite !elem_of_cons.
  repeat (match goal with |- context [if ?c then _ else _] => destruct c end);
    tauto.
Qed.

Lemma format_of_known (t : string) : format_of t ∈ ["documento"; "slides"].
Proof.
  unfold format_of. rewrite !elem_of_cons. destruct (_ || _); tauto.
Qed.

Lemma truthy_length (s : string) : truthy s = true <-> (0 < String.length s)%nat.
Proof. destruct s; simpl; split; (done || lia). Qed.

Lemma truncate_topic_bounds (t : string) :
  truthy t = true ->
  truthy (truncate_topic t) = true /\ (String.length (truncate_topic t) <= 83)%nat.
Proof.
  intros Ht. destruct (Nat.le_gt_cases (String.length t) 80) as [Hle|Hgt].
  - rewrite truncate_topic_short by done. split; [done|lia].
  - destruct (truncate_topic_long t Hgt) as (first & rest & _ & Hl & ->).
    rewrite truthy_length, app_length'. simpl. lia.
Qed.

Lemma topic_source_truthy ms trimmed :
  truthy trimmed = true -> truthy (topic_source ms trimmed) = true.
Proof.
  intros Ht. unfold topic_source, opt_or_else, or_else.
  destruct (find_user ms) as [m|]; simpl; [|done].
  by destruct (truthy (content m)) eqn:E.
Qed.

Lemma make_entry_ok p st r :
  pending_ok p ->
  entry_ok (make_entry p st (result_text r) (make_assistant st r)).
Proof.
  intros (Ht & _ & Hr & _).
  destruct (truncate_topic_bounds _ (topic_source_truthy (k_messages p) _ Ht))
    as [H1 H2].
  split; [done|]. split; [done|]. split; [apply level_of_known|].
  split; [apply format_of_known|]. split; [done|]. split; [done|].
  by exists (k_messages p), (k_userMessage p), (make_assistant st r).
Qed.

Lemma mount_fresh_state id1 id2 :
  (mount id1 id2 (Some ∅)).1 = setSessionId id2 (setUserId id1 initial_state).
Proof.
  unfold mount, init_effect, rehydrate_history.
  rewrite !lookup_empty.
  rewrite ensure_id_absent by apply lookup_empty.
  rewrite ensure_id_absent by (by rewrite lookup_insert_ne).
  done.
Qed.

Lemma load_first_fields av id1 id2 :
  history (ui (load id1 id2 (fresh_storage av))) = []
  /\ messages (ui (load id1 id2 (fresh_storage av))) = []
  /\ inflight (load id1 id2 (fresh_storage av)) = []
  /\ points (ui (load id1 id2 (fresh_storage av))) = Num INITIAL_POINTS.
Proof.
  unfold load. destruct av; simpl fresh_storage.
  - pose proof (mount_fresh_state id1 id2) as H.
    destruct (mount id1 id2 (Some ∅)) as [s st]. simpl in *. by subst s.
  - by rewrite mount_unavailable.
Qed.

(** The archive a reload shows is the archive shown before, or empty when
    the store cannot be used. *)
Lemma load_history id1 id2 w :
  store_ok w ->
  history (ui (load id1 id2 (storage w)))
  = match storage w with
    | Some _ => history (ui w)
    | None => []
    end.
Proof.
  intros [_ Hst]. destruct (storage w) as [m|] eqn:E.
  - destruct (mount_persisted (ui w) m id1 id2 (Hst m eq_refl))
      as (s' & m' & Hm & _ & Hh & _).
    unfold load. by rewrite Hm.
  - unfold load. by rewrite mount_unavailable.
Qed.

Lemma archive_inv_step e w : event_ok e -> archive_inv w -> archive_inv (step e w).
Proof.
  intros He (Hs & Hp & Hm & Hh).
  split; [by apply store_ok_step|].
  split; [|split; [by apply user_turns_step|]].
  - destruct e as [text|newId now|n o st|pl txt|open|sid| | |id1 id2];
      try done.
    + simpl. destruct (sendMessage_begin newId now (ui w)) as [s [p|]] eqn:E;
        simpl; [|by rewrite app_nil_r].
      apply sendMessage_begin_start in E
        as (Ht & _ & Hk & Hkm & Hu & _).
      apply Forall_app. split; [done|]. constructor; [|done].
      unfold pending_ok. rewrite Hk, Hkm, Hu. done.
    + simpl. destruct (inflight w !! n) as [p|]; [|done]. simpl.
      by apply Forall_delete.
    + simpl. pose proof (load_fields id1 id2 (storage w)) as (-> & _). done.
  - destruct e as [text|newId now|n o st|pl txt|open|sid| | |id1 id2];
      try done.
    + simpl. pose proof (sendMessage_begin_history newId now (ui w)) as [H _].
      destruct (sendMessage_begin newId now (ui w)). simpl in *. by rewrite H.
    + simpl. destruct (inflight w !! n) as [p|] eqn:E; [|done]. simpl.
      destruct o as [r|]; [|done]. destruct (success r); [|done]. simpl.
      constructor; [|done]. apply make_entry_ok.
      rewrite Forall_forall in Hp. apply Hp. by apply list_elem_of_lookup_2 in E.
    + simpl. rewrite load_history by done. by destruct (storage w).
Qed.

Lemma archive_inv_page pg : reachable_page pg -> archive_inv (sys pg).
Proof.
  apply (reachable_page_sys archive_inv).
  - intros av id1 id2 H1 H2.
    pose proof (load_first_fields av id1 id2) as (Hh & Hm & Hi & _).
    split; [apply reachable_store_ok; by constructor|].
    unfold user_turns_nonempty. rewrite Hh, Hm, Hi. done.
  - apply archive_inv_step.
  - intros w w' Hc (Hs & Hp & Hm & Hh).
    pose proof (cosmetic_fields w w' Hc) as (Hi & _ & _ & Hms & Hhs & _).
    split; [by apply (store_ok_cosmetic w)|].
    unfold user_turns_nonempty in *. by rewrite Hi, Hms, Hhs.
Qed.

Lemma messages_inv_step e w : messages_inv w -> messages_inv (step e w).
Proof.
  unfold messages_inv. intros Hw.
  destruct e as [text|newId now|n o st|pl txt|open|sid| | |id1 id2];
    try done.
  - simpl. destruct (sendMessage_begin newId now (ui w)) as [s [p|]] eqn:E.
    + apply sendMessage_begin_start in E as (_ & _ & _ & _ & Hu & Hm & _).
      simpl. rewrite Hm.
      apply Forall_app. split; [done|]. constructor; [|done]. by rewrite Hu.
    + simpl. revert E. unfold sendMessage_begin.
      destruct (_ || _); [by intros [= <-]|].
      destruct (num_lt _ _); [by intros [= <-]|done].
  - simpl. destruct (inflight w !! n) as [p|]; [|done]. simpl.
    destruct o as [r|]; [|done]. destruct (success r); [|done]. simpl.
    apply Forall_app. split; [done|]. constructor; [|done].
    split; [done|]. simpl. by destruct (_ <? _)%nat eqn:E, (artifact_files r) as [[|]|].
  - simpl. pose proof (load_fields id1 id2 (storage w)) as (_ & _ & ->).
    constructor.
Qed.

End Archive.

Section Afford.

Lemma afford_inv_step e w : event_ok e -> afford_inv w -> afford_inv (step e w).
Proof.
  intros He (Hf & Hs & Ha).
  split; [by apply single_flight_step|]. split; [by apply store_ok_step|].
  destruct Hs as [(b & Hb & Hb0) _].
  destruct e as [text|newId now|n o st|pl txt|open|sid| | |id1 id2];
    try done.
  - simpl. destruct (sendMessage_begin newId now (ui w)) as [s [p|]] eqn:E.
    + intros _. simpl. exists b. revert E. unfold sendMessage_begin.
      destruct (_ || _); [done|]. rewrite Hb. simpl.
      destruct (Z.ltb_spec b POINTS_PER_GENERATION); [done|].
      by intros [= <- _].
    + simpl. rewrite app_nil_r. intros Hi. revert E. unfold sendMessage_begin.
      destruct (_ || _); [by intros [= <-]; apply Ha|].
      destruct (num_lt _ _); [by intros [= <-]; apply Ha|done].
  - simpl. destruct (inflight w !! n) as [p|] eqn:E; [|done]. simpl.
    destruct Hf as [[Hi _]|(q & Hi & _)]; rewrite Hi in *; [done|].
    by destruct n.
  - simpl. intros Hi. destruct (Ha Hi) as (b' & Hb' & Hle).
    rewrite Hb'. simpl. eexists. split; [done|]. destruct pl; simpl; lia.
  - simpl. by pose proof (load_fields id1 id2 (storage w)) as (-> & _).
Qed.

Lemma afford_inv_page pg : reachable_page pg -> afford_inv (sys pg).
Proof.
  apply (reachable_page_sys afford_inv).
  - intros av id1 id2 H1 H2.
    split; [apply single_flight_load|].
    split; [apply reachable_store_ok; by constructor|].
    by pose proof (load_fields id1 id2 (fresh_storage av)) as (-> & _).
  - apply afford_inv_step.
  - intros w w' Hc (Hf & Hs & Ha).
    split; [by apply (single_flight_cosmetic w)|].
    split; [by apply (store_ok_cosmetic w)|].
    apply cosmetic_fields in Hc as (-> & _ & -> & _). done.
Qed.

Lemma run_effects_none old new st : run_effects old new st = None <-> st = None.
Proof.
  unfold run_effects, persist_points, persist_history, setItem.
  destruct st; repeat case_decide; done.
Qed.

Lemma mount_none id1 id2 st : (mount id1 id2 st).2 = None <-> st = None.
Proof.
  unfold mount. destruct (init_effect id1 id2 st initial_state) as [s st'] eqn:E.
  simpl. rewrite run_effects_none.
  assert (st' = None <-> st = None) as <-.
  { revert E. unfold init_effect. destruct st as [m|]; [|by intros [= _ <-]].
    destruct (rehydrate_history _ _); [|by intros [= _ <-]].
    destruct (ensure_id KEY_USER id1 m) as [u m1].
    destruct (ensure_id KEY_SESSION id2 m1) as [i m2]. by intros [= _ <-]. }
  unfold persist_points, persist_history, setItem. by destruct st'.
Qed.

(** Whether the store can be used never changes. *)
Lemma storage_none_step e w : storage (step e w) = None <-> storage w = None.
Proof.
  destruct e as [text|newId now|n o st|pl txt|open|sid| | |id1 id2];
    simpl; rewrite ?run_effects_none; try done.
  - destruct (sendMessage_begin newId now (ui w)). simpl.
    by rewrite run_effects_none.
  - destruct (inflight w !! n); [|done]. simpl. by rewrite run_effects_none.
  - unfold setItem. by destruct (storage w).
  - unfold load. pose proof (mount_none id1 id2 (storage w)).
    by destruct (mount id1 id2 (storage w)).
Qed.

Lemma anonymous_inv_step e w : anonymous_inv w -> anonymous_inv (step e w).
Proof.
  unfold anonymous_inv. intros Hw Hn. apply storage_none_step in Hn as Hn'.
  destruct (Hw Hn') as [Hu Hp].
  destruct e as [text|newId now|n o st|pl txt|open|sid| | |id1 id2];
    try done.
  - simpl. destruct (sendMessage_begin newId now (ui w)) as [s [p|]] eqn:E.
    + simpl. unfold sendMessage_begin in E.
      destruct (_ || _); [done|]. destruct (num_lt _ _); [done|].
      injection E as <- <-. simpl. split; [done|].
      apply Forall_app. split; [done|]. by constructor.
    + simpl. rewrite app_nil_r. split; [|done].
      revert E. unfold sendMessage_begin.
      destruct (_ || _); [by intros [= <-]|].
      destruct (num_lt _ _); [by intros [= <-]|done].
  - simpl. destruct (inflight w !! n) as [p|]; [|done]. simpl.
    split; [by destruct o as [[[]]|]|by apply Forall_delete].
  - simpl in *. unfold load in *. rewrite Hn'. done.
Qed.

Lemma anonymous_inv_page pg : reachable_page pg -> anonymous_inv (sys pg).
Proof.
  apply (reachable_page_sys anonymous_inv).
  - intros av id1 id2 H1 H2 Hn. unfold load in *.
    pose proof (mount_none id1 id2 (fresh_storage av)) as Hm.
    destruct (mount id1 id2 (fresh_storage av)) as [s st] eqn:E.
    simpl in *. apply Hm in Hn. rewrite Hn in E.
    rewrite mount_unavailable in E. by injection E as <- _.
  - intros e w _. apply anonymous_inv_step.
  - intros w w' Hc Hw. unfold anonymous_inv.
    apply cosmetic_fields in Hc as (-> & -> & _ & _ & _ & _ & -> & _). done.
Qed.

Lemma reachable_run_page evs pg :
  Forall page_event_ok evs -> reachable_page pg ->
  reachable_page (run_page evs pg).
Proof.
  revert pg. induction evs as [|ev evs IH]; intros pg Hev Hpg; [done|].
  apply Forall_cons in Hev as [H1 H2]. simpl. apply IH; [done|].
  by constructor.
Qed.

End Afford.

Lemma demo2_page_reachable : reachable_page Demo2.page.
Proof.
  apply reachable_run_page; [|by constructor].
  repeat (constructor; [by repeat split|]). constructor.
Defined.

Lemma demo2_sending_reachable : reachable_page Demo2.sending.
Proof.
  apply reachable_run_page; [|by constructor].
  repeat (constructor; [by repeat split|]). constructor.
Defined.

Lemma demo2_private_reachable : reachable_page Demo2.private.
Proof.
  apply reachable_run_page; [|by constructor].
  repeat (constructor; [by repeat split|]). constructor.
Defined.

Lemma demo2_history : history (ui (sys Demo2.page)) = [Demo2.entry].
Proof. vm_compute. reflexivity. Defined.

Example demo2_sample :
  points (ui (sys Demo2.page)) = Num 1175
  /\ activeScreen (ui (sys Demo2.page)) = history_screen
  /\ (topic <$> page_filteredHistory Demo2.page)
     = ["Slides sobre **fotossintese** para o ensino medio"]
  /\ (level <$> page_filteredHistory Demo2.page) = ["Medio"]
  /\ (format <$> page_filteredHistory Demo2.page) = ["slides"]
  /\ expandedHistoryId (view Demo2.page) = Some "e1"
  /\ length (inflight (sys Demo2.sending)) = 1%nat
  /\ userId (ui (sys Demo2.private)) = "".
Proof. repeat split; vm_compute; reflexivity. Qed.

Lemma page_keeps_ledger_and_store_witness :
  (length (inflight (sys Demo2.sending)) <= 1)%nat
  /\ (isGenerating (ui (sys Demo2.sending)) = true
      <-> inflight (sys Demo2.sending) <> []).
Proof.
  destruct (page_keeps_ledger_and_store Demo2.sending demo2_sending_reachable)
    as (H1 & H2 & _).
  exact (conj H1 H2).
Defined.

Lemma buy_is_never_a_screen_witness :
  activeScreen (ui (sys Demo2.page)) <> buy.
Proof.
  exact (proj1 (buy_is_never_a_screen Demo2.page demo2_page_reachable)).
Defined.

Lemma agent_badge_follows_generation_witness :
  agent_active (ui (sys Demo2.sending)) = isGenerating (ui (sys Demo2.sending)).
Proof.
  exact (proj1 (agent_badge_follows_generation Demo2.sending
                  demo2_sending_reachable)).
Defined.

(** X4.  Every entry of the archive, in every state of the page, is as the
    success branch of [sendMessage] builds it, also after reloads: page
    count 0, cost 75, a level among Fundamental, Medio, Tecnico and
    Faculdade, a format among documento and slides, a non-empty topic of at
    most 83 characters, and a snapshot of messages that ends with the user
    message and the assistant message whose content is the entry's. *)
Theorem archived_entries_well_formed (pg : Page) (e : HistoryEntry) :
  reachable_page pg ->
  e ∈ history (ui (sys pg)) ->
  pageCount e = 0
  /\ pointCost e = 75
  /\ level e ∈ ["Fundamental"; "Medio"; "Tecnico"; "Faculdade"]
  /\ format e ∈ ["documento"; "slides"]
  /\ topic e <> ""
  /\ (String.length (topic e) <= 83)%nat
  /\ exists ms um am,
       entry_messages e = ms ++ [um; am]
       /\ role um = user /\ role am = assistant
       /\ content am = entry_content e.
Proof.
  intros Hpg He. destruct (archive_inv_page pg Hpg) as (_ & _ & _ & Hh).
  rewrite Forall_forall in Hh.
  destruct (Hh e He) as (H1 & H2 & H3 & H4 & H5 & H6 & H7).
  repeat (split; [done|]). split; [|done].
  intros E. by rewrite E in H5.
Qed.

Lemma archived_entries_well_formed_witness :
  Demo2.entry ∈ history (ui (sys Demo2.page))
  /\ pageCount Demo2.entry = 0 /\ pointCost Demo2.entry = 75.
Proof.
  assert (H : Demo2.entry ∈ history (ui (sys Demo2.page)))
    by (rewrite demo2_history; apply list_elem_of_here).
  split; [exact H|].
  destruct (archived_entries_well_formed Demo2.page Demo2.entry
              demo2_page_reachable H) as (H1 & H2 & _).
  by split.
Defined.

(** X5.  A card of an archived entry always shows the entry's own topic,
    never the fallback "Sem titulo", and never shows a page count: the
    topic of an archived entry is not empty and its [pageCount] is 0. *)
Theorem archived_card_display (pg : Page) (e : HistoryEntry) :
  reachable_page pg ->
  e ∈ history (ui (sys pg)) ->
  card_title e = topic e /\ card_shows_pages e = false.
Proof.
  intros Hpg He. destruct (archive_inv_page pg Hpg) as (_ & _ & _ & Hh).
  rewrite Forall_forall in Hh.
  destruct (Hh e He) as (H1 & _ & _ & _ & H5 & _).
  unfold card_title, card_shows_pages, or_else. by rewrite H1, H5.
Qed.

Lemma archived_card_display_witness :
  Demo2.entry ∈ history (ui (sys Demo2.page))
  /\ card_title Demo2.entry = topic Demo2.entry
  /\ card_shows_pages Demo2.entry = false.
Proof.
  assert (H : Demo2.entry ∈ history (ui (sys Demo2.page)))
    by (rewrite demo2_history; apply list_elem_of_here).
  split; [exact H|].
  apply (archived_card_display Demo2.page Demo2.entry demo2_page_reachable H).
Defined.

(** X6.  A user message of the session never carries files, and a message
    that carries a list of files carries a non-empty one; so a chat bubble
    shows download links exactly for the messages that have the
    [artifactFiles] member, and those are assistant messages. *)
Theorem session_messages_well_formed (pg : Page) (m : ChatMessage) :
  reachable_page pg ->
  m ∈ messages (ui (sys pg)) ->
  (role m = user -> artifactFiles m = None)
  /\ artifactFiles m <> Some []
  /\ (bubble_shows_files m = true <-> is_Some (artifactFiles m))
  /\ (bubble_shows_files m = true -> role m = assistant).
Proof.
  intros Hpg Hm.
  assert (messages_inv (sys pg)) as H.
  { revert pg Hpg Hm. intros pg Hpg _. revert pg Hpg.
    apply (reachable_page_sys messages_inv).
    - intros av id1 id2 _ _. unfold messages_inv.
      by pose proof (load_fields id1 id2 (fresh_storage av)) as (_ & _ & ->).
    - intros e w _. apply messages_inv_step.
    - intros w w' Hc. apply cosmetic_fields in Hc as (_ & _ & _ & Hms & _).
      unfold messages_inv. by rewrite Hms. }
  unfold messages_inv in H. rewrite Forall_forall in H.
  destruct (H m Hm) as [Hu Hn]. split; [done|]. split; [done|].
  unfold bubble_shows_files. destruct (artifactFiles m) as [[|f l]|] eqn:E.
  - done.
  - split; [by split; eauto|]. intros _. destruct (role m); [|done].
    by specialize (Hu eq_refl).
  - split; [|done]. split; [done|]. by intros [? ?].
Qed.

Lemma session_messages_well_formed_witness :
  exists m, m ∈ messages (ui (sys Demo2.page))
            /\ bubble_shows_files m = true /\ role m = assistant.
Proof.
  exists {| msg_id := "a1"; role := assistant; content := "# Redes";
            timestamp := "10:01";
            artifactFiles := Some [ {| file_url := "https://files/redes.pdf" |} ] |}.
  match goal with |- ?m ∈ _ /\ _ =>
    assert (H : m ∈ messages (ui (sys Demo2.page)))
      by (vm_compute; apply list_elem_of_further, list_elem_of_here);
    split; [exact H|];
    destruct (session_messages_well_formed Demo2.page m demo2_page_reachable H)
      as (_ & _ & _ & Hr)
  end.
  split; [reflexivity|]. by apply Hr.
Defined.

Section Accounting.

Lemma step_points e w b :
  afford_inv w -> is_load e = false -> points (ui w) = Num b ->
  points (ui (step e w))
  = Num (b + bought [e] - 75 * Z.of_nat (length (option_list (archived e w)))).
Proof.
  intros (Hf & Hs & Ha) Hl Hb.
  assert (Hsame : points (ui w) = Num (b + 0 - 75 * Z.of_nat 0))
    by (rewrite Hb; f_equal; lia).
  destruct e as [text|newId now|n o st|pl txt|open|sid| | |id1 id2];
    try done.
  - simpl. pose proof (sendMessage_begin_history newId now (ui w)) as [_ Hp].
    destruct (sendMessage_begin newId now (ui w)). simpl in *. by rewrite Hp.
  - simpl. destruct (inflight w !! n) as [p|] eqn:E; [|by destruct o].
    destruct Ha as (b' & Hb' & Hle).
    { intros Hi. by rewrite Hi in E. }
    assert (b' = b) as -> by congruence.
    destruct o as [r|]; [|done]. simpl.
    destruct (success r); [|done]. simpl. rewrite Hb. simpl. f_equal.
    unfold POINTS_PER_GENERATION in *. lia.
  - simpl. rewrite Hb. simpl. f_equal. lia.
Qed.

Lemma bought_cons e es : bought (e :: es) = bought [e] + bought es.
Proof. destruct e; simpl; lia. Qed.

Lemma run_points es : forall w b,
  afford_inv w -> no_load es -> Forall event_ok es -> points (ui w) = Num b ->
  points (ui (run es w))
  = Num (b + bought es - 75 * Z.of_nat (length (created es w))).
Proof.
  induction es as [|e es IH]; intros w b Hw Hl He Hb.
  - simpl. rewrite Hb. f_equal. lia.
  - apply Forall_cons in Hl as [Hl1 Hl2]. apply Forall_cons in He as [He1 He2].
    change (run (e :: es) w) with (run es (step e w)).
    change (created (e :: es) w)
      with (option_list (archived e w) ++ created es (step e w)).
    rewrite (IH _ _ (afford_inv_step e w He1 Hw) Hl2 He2
               (step_points e w b Hw Hl1 Hb)).
    f_equal. rewrite length_app, Nat2Z.inj_add, (bought_cons e es). lia.
Qed.

End Accounting.

(** X7.  In every state of the page a successful call finds the balance at
    75 or more, so its debit is exactly 75 and the floor at 0 is never
    reached; hence along any run of events within one page lifetime the
    balance is the starting balance plus the points bought minus 75 for
    each archived generation. *)
Theorem balance_accounting (pg : Page) (es : list Event) :
  reachable_page pg ->
  no_load es ->
  Forall event_ok es ->
  exists b,
    points (ui (sys pg)) = Num b
    /\ points (ui (run es (sys pg)))
       = Num (b + bought es - 75 * Z.of_nat (length (created es (sys pg))))
    /\ (forall n p r st, inflight (sys pg) !! n = Some p -> success r = true ->
          75 <= b
          /\ points (ui (step (EvSettle n (Resolved r) st) (sys pg)))
             = Num (b - 75)).
Proof.
  intros Hpg Hl He. pose proof (afford_inv_page pg Hpg) as Hinv.
  pose proof Hinv as (_ & [(b & Hb & _) _] & Ha).
  exists b. split; [done|]. split; [by apply run_points|].
  intros n p r st Hn Hs.
  destruct Ha as (b' & Hb' & Hle); [intros Hi; by rewrite Hi in Hn|].
  assert (b' = b) as -> by congruence. split; [done|].
  rewrite (step_points (EvSettle n (Resolved r) st) _ b Hinv eq_refl Hb).
  simpl. rewrite Hn, Hs. simpl. f_equal. lia.
Qed.

Lemma balance_accounting_witness :
  points (ui (run Demo.events (sys (first_page true "u1" "s1"))))
  = Num (250 + 0 - 75 * 2).
Proof.
  assert (Hp : reachable_page (first_page true "u1" "s1")) by by constructor.
  assert (Hl : no_load Demo.events) by (repeat constructor).
  assert (He : Forall event_ok Demo.events)
    by (repeat (constructor; [by repeat split|]); constructor).
  destruct (balance_accounting _ Demo.events Hp Hl He) as (b & Hb & Hr & _).
  assert (b = 250) as -> by (vm_compute in Hb; congruence).
  exact Hr.
Defined.

(** X8.  When the store cannot be used the page never gets a user id: in
    every state of such a visit [userId] is the empty string, and every
    generation request it sends carries the empty [user_id]. *)
Theorem no_store_no_user_id (pg : Page) (newId now : string) (s1 : State)
    (p : Pending) :
  reachable_page pg ->
  storage (sys pg) = None ->
  userId (ui (sys pg)) = ""
  /\ (sendMessage_begin newId now (ui (sys pg)) = (s1, Some p) ->
      req_user_id (request p) = "")
  /\ Forall (fun q => req_user_id (request q) = "") (inflight (sys pg)).
Proof.
  intros Hpg Hn. destruct (anonymous_inv_page pg Hpg Hn) as [Hu Hp].
  split; [done|]. split; [|done].
  unfold sendMessage_begin. destruct (_ || _); [done|].
  destruct (num_lt _ _); [done|]. by intros [= _ <-].
Qed.

Lemma no_store_no_user_id_witness :
  storage (sys Demo2.private) = None
  /\ userId (ui (sys Demo2.private)) = ""
  /\ (req_user_id ∘ request <$> inflight (sys Demo2.private)) = [""].
Proof.
  assert (H : storage (sys Demo2.private) = None) by reflexivity.
  split; [exact H|].
  destruct (no_store_no_user_id Demo2.private "m" "t" initial_state Demo.pending
              demo2_private_reachable H) as (Hu & _ & _).
  split; [exact Hu|]. vm_compute. reflexivity.
Defined.

(** ** Edge cases of the initialising effect *)

Section InitEdges.

Lemma mount_points id1 id2 st :
  points (mount id1 id2 st).1 = stored_points st.
Proof. destruct (mount_shape id1 id2 st) as (h & u & i & ->). done. Qed.

Lemma decode_history_not_array j :
  (forall l, j <> JArr l) -> decode_history j = None.
Proof. destruct j; try done. intros H. by destruct (H l). Qed.

Lemma ensure_id_truthy key fresh (m : gmap string string) :
  generated fresh -> truthy (ensure_id key fresh m).1 = true.
Proof.
  intros H. unfold ensure_id. destruct (m !! key) as [v|]; [|done].
  by destruct (truthy v) eqn:E.
Qed.

(** What [parse_value] reads is what the grammar reads. *)
Lemma string_body_quote (c : ascii) (r : string) :
  code c = 34%N ->
  parse_string_body (String c r) = Some ("", r)
  /\ skip_string_body (String c r) = Some r.
Proof. intros H. assert (c = dquote) as -> by (by apply code_inj). done. Qed.

Lemma string_body_plain (c : ascii) (r : string) :
  code c <> 34%N -> code c <> 92%N ->
  parse_string_body (String c r)
  = (if (code c <? 32)%N then None else push c (parse_string_body r))
  /\ skip_string_body (String c r)
     = (if (code c <? 32)%N then None else skip_string_body r).
Proof.
  intros H1 H2.
  destruct c as [[] [] [] [] [] [] [] []];
    first [ split; reflexivity
          | exfalso; apply H1; reflexivity
          | exfalso; apply H2; reflexivity ].
Qed.

Lemma string_body_escape (e : ascii) (r1 x r : string) :
  parse_string_body (String backslash (String e r1)) = Some (x, r) ->
  (exists a,
     push a (parse_string_body r1) = Some (x, r)
     /\ skip_string_body (String backslash (String e r1))
        = skip_string_body r1)
  \/ (exists h1 h2 h3 h4 r2 k,
        r1 = String h1 (String h2 (String h3 (String h4 r2)))
        /\ hex4 h1 h2 h3 h4 = Some k
        /\ push (ascii_of_N k) (parse_string_body r2) = Some (x, r)
        /\ skip_string_body (String backslash (String e r1))
           = match hex4 h1 h2 h3 h4 with
             | Some _ => skip_string_body r2
             | None => None
             end).
Proof.
  intros H.
  destruct e as [[] [] [] [] [] [] [] []];
    first [ left; eexists; split; [exact H|reflexivity]
          | exfalso; vm_compute in H; discriminate H
          | idtac ].
  right. destruct r1 as [|h1 [|h2 [|h3 [|h4 r2]]]];
    try (exfalso; vm_compute in H; discriminate H).
  change (match hex4 h1 h2 h3 h4 with
          | Some n =>
              if (n <? 256)%N
              then push (ascii_of_N n) (parse_string_body r2)
              else None
          | None => None
          end = Some (x, r)) in H.
  destruct (hex4 h1 h2 h3 h4) as [k|] eqn:Eh; [|done].
  destruct (k <? 256)%N; [|done].
  exists h1, h2, h3, h4, r2, k. repeat (split; [done|]). reflexivity.
Qed.

Lemma parse_string_body_skip (n : nat) :
  forall s x r,
    (String.length s <= n)%nat ->
    parse_string_body s = Some (x, r) -> skip_string_body s = Some r.
Proof.
  induction n as [|n IH]; intros s x r Hn H.
  - destruct s; [done|simpl in Hn; lia].
  - destruct s as [|c s1]; [done|].
    assert (Hpush : forall t a,
              (String.length t <= n)%nat ->
              push a (parse_string_body t) = Some (x, r) ->
              skip_string_body t = Some r).
    { intros t a Ht Hp. destruct (parse_string_body t) as [[x' r']|] eqn:E;
        [|done]. injection Hp as <- <-. by apply (IH t x'). }
    simpl in Hn.
    destruct (decide (code c = 34%N)) as [Hq|Hq].
    { destruct (string_body_quote c s1 Hq) as [Ep Es].
      rewrite Ep in H. rewrite Es. congruence. }
    destruct (decide (code c = 92%N)) as [Hb|Hb].
    { assert (c = backslash) as -> by (by apply code_inj).
      destruct s1 as [|e r1]; [done|]. simpl in Hn.
      destruct (string_body_escape e r1 x r H)
        as [(a & Hp & ->)|(h1 & h2 & h3 & h4 & r2 & k & -> & Hh & Hp & ->)].
      - apply (Hpush r1 a); [lia|done].
      - rewrite Hh. apply (Hpush r2 (ascii_of_N k)); [simpl in Hn; lia|done]. }
    destruct (string_body_plain c s1 Hq Hb) as [Ep Es].
    rewrite Ep in H. rewrite Es.
    destruct (code c <? 32)%N; [done|]. apply (Hpush s1 c); [lia|done].
Qed.

Lemma after_number_skip (r : string) :
  after_number_ok r = true ->
  skip_fraction r = Some r /\ skip_exponent r = Some r.
Proof.
  destruct r as [|c t]; [done|]. unfold after_number_ok. simpl.
  destruct (Ascii.eqb c "."), (Ascii.eqb c "e"), (Ascii.eqb c "E"); done.
Qed.

Lemma parse_number_skip (s r : string) (z : Z) :
  parse_number s = Some (z, r) -> after_number_ok r = true ->
  skip_number s = Some r.
Proof.
  intros H Hr. apply after_number_skip in Hr as [Hf He].
  assert (skip_int s = Some r) as Hi.
  { unfold parse_number in H. unfold skip_int.
    assert (forall (negative : bool) body,
              match body with
              | String c r0 =>
                  if Ascii.eqb c "0"
                  then if Decimal.starts_with_digit r0 then None else Some (0, r0)
                  else if Decimal.starts_with_digit body
                       then let '(v, r') := Decimal.read_digits 0 body in
                            Some (if negative then - v else v, r')
                       else None
              | EmptyString => None
              end = Some (z, r) ->
              match body with
              | String c r0 => if Ascii.eqb c "0" then Some r0 else skip_digits1 body
              | EmptyString => None
              end = Some r) as Hbody.
    { intros negative [|c r0] Hb; [done|].
      destruct (Ascii.eqb c "0").
      - destruct (Decimal.starts_with_digit r0); [done|]. by injection Hb as _ ->.
      - unfold skip_digits1.
        destruct (Decimal.starts_with_digit (String c r0)); [|done].
        destruct (Decimal.read_digits 0 (String c r0)) as [v r'].
        by injection Hb as _ ->. }
    destruct s as [|c0 r0]; [done|].
    destruct (Ascii.eqb c0 "-");
      [exact (Hbody true r0 H)|exact (Hbody false (String c0 r0) H)]. }
  unfold skip_number. by rewrite Hi, Hf.
Qed.

Lemma literal_strip (word : string) (v j : json) (s r : string) :
  literal word v s = Some (j, r) -> strip word s = Some r.
Proof. unfold literal. destruct (strip word s); [|done]. by intros [= _ ->]. Qed.

Lemma parse_value_skip (fuel : nat) :
  (forall s j r, parse_value fuel s = Some (j, r) -> skip_value fuel s = Some r)
  /\ (forall s l r, parse_elems fuel s = Some (l, r) -> skip_elems fuel s = Some r)
  /\ (forall s l r,
        parse_members fuel s = Some (l, r) -> skip_members fuel s = Some r).
Proof.
  induction fuel as [|f (IHv & IHe & IHm)]; [done|].
  split; [|split].
  - intros s j r H. simpl in H |- *.
    destruct (skip_ws s) as [|c t]; [done|].
    destruct (Ascii.eqb c "[").
    { destruct (skip_ws t) as [|c' t']; [done|].
      destruct (Ascii.eqb c' "]"); [by injection H as _ ->|].
      destruct (parse_elems f t) as [[l r']|] eqn:E; [|done].
      injection H as _ <-. by apply (IHe t l). }
    destruct (Ascii.eqb c "{").
    { destruct (skip_ws t) as [|c' t']; [done|].
      destruct (Ascii.eqb c' "}"); [by injection H as _ ->|].
      destruct (parse_members f t) as [[l r']|] eqn:E; [|done].
      injection H as _ <-. by apply (IHm t l). }
    destruct (Ascii.eqb c dquote).
    { destruct (parse_string_body t) as [[x r']|] eqn:E; [|done].
      injection H as _ <-.
      by apply (parse_string_body_skip (String.length t) t x). }
    destruct (Ascii.eqb c "n"); [by apply literal_strip in H|].
    destruct (Ascii.eqb c "t"); [by apply literal_strip in H|].
    destruct (Ascii.eqb c "f"); [by apply literal_strip in H|].
    destruct (parse_number (String c t)) as [[z r']|] eqn:E; [|done].
    destruct (after_number_ok r') eqn:Ea; [|done].
    injection H as _ <-. by apply (parse_number_skip _ _ z).
  - intros s l r H. rewrite parse_elems_eq in H.
    change (skip_elems (S f) s)
      with (match skip_value f s with
            | Some r0 =>
                match skip_ws r0 with
                | String c r' =>
                    if Ascii.eqb c "," then skip_elems f r'
                    else if Ascii.eqb c "]" then Some r'
                    else None
                | EmptyString => None
                end
            | None => None
            end).
    destruct (parse_value f s) as [[v r0]|] eqn:E; [|done].
    rewrite (IHv _ _ _ E).
    destruct (skip_ws r0) as [|c r']; [done|].
    destruct (Ascii.eqb c ",").
    { destruct (parse_elems f r') as [[vs r'']|] eqn:E'; [|done].
      injection H as _ <-. by apply (IHe r' vs). }
    destruct (Ascii.eqb c "]"); [|done]. by injection H as _ ->.
  - intros s l r H. simpl in H |- *.
    destruct (skip_ws s) as [|c t]; [done|].
    destruct (Ascii.eqb c dquote); [|done].
    destruct (parse_string_body t) as [[k r1]|] eqn:Ek; [|done].
    rewrite (parse_string_body_skip (String.length t) t k r1) by done.
    destruct (skip_ws r1) as [|c1 r2]; [done|].
    destruct (Ascii.eqb c1 ":"); [|done].
    destruct (parse_value f r2) as [[v r3]|] eqn:Ev; [|done].
    rewrite (IHv _ _ _ Ev).
    destruct (skip_ws r3) as [|c3 r4]; [done|].
    destruct (Ascii.eqb c3 ",").
    { destruct (parse_members f r4) as [[kvs r5]|] eqn:E'; [|done].
      injection H as _ <-. by apply (IHm r4 kvs). }
    destruct (Ascii.eqb c3 "}"); [|done]. by injection H as _ ->.
Qed.

(** A text the model gives a value to is JSON. *)
Lemma parse_valid (s : string) (j : json) : parse s = Some j -> valid s = true.
Proof.
  unfold parse, valid.
  destruct (parse_value (S (String.length s)) s) as [[j' r]|] eqn:E; [|done].
  destruct (parse_value_skip (S (String.length s))) as [Hv _].
  rewrite (Hv _ _ _ E). by destruct (is_empty (skip_ws r)).
Qed.

(** The value of a text is an array only if the text starts one. *)
Lemma parse_array_text (s : string) (l : list json) :
  parse s = Some (JArr l) -> is_array_text s = true.
Proof.
  unfold parse, is_array_text.
  destruct (parse_value (S (String.length s)) s) as [[j r]|] eqn:E; [|done].
  destruct (is_empty (skip_ws r)); [|done]. intros [= ->].
  simpl in E. destruct (skip_ws s) as [|c t]; [done|].
  destruct (Ascii.eqb c "["); [done|]. exfalso.
  destruct (Ascii.eqb c "{").
  { destruct (skip_ws t) as [|c' t']; [done|].
    destruct (Ascii.eqb c' "}"); [done|].
    by destruct (parse_members (String.length s) t) as [[? ?]|]. }
  destruct (Ascii.eqb c dquote);
    [by destruct (parse_string_body t) as [[? ?]|]|].
  unfold literal in E.
  destruct (Ascii.eqb c "n"); [by destruct (strip "ull" t)|].
  destruct (Ascii.eqb c "t"); [by destruct (strip "rue" t)|].
  destruct (Ascii.eqb c "f"); [by destruct (strip "alse" t)|].
  destruct (parse_number (String c t)) as [[z r']|]; [|done].
  by destruct (after_number_ok r').
Qed.

(** What the initialising effect makes of a stored history text. *)
Lemma rehydrate_syntax_error (m : gmap string string) (text : string) (s : State) :
  m !! KEY_HISTORY = Some text -> truthy text = true -> valid text = false ->
  rehydrate_history m s = None.
Proof.
  intros Hm Ht Hv. unfold rehydrate_history, JSON_parse. rewrite Hm, Ht, Hv.
  destruct (parse text) as [j|] eqn:E; [|done].
  apply parse_valid in E. congruence.
Qed.

Lemma rehydrate_non_array (m : gmap string string) (text : string) (s : State) :
  m !! KEY_HISTORY = Some text ->
  text = "" \/ (valid text = true /\ is_array_text text = false) ->
  rehydrate_history m s = Some s.
Proof.
  intros Hm Ht. unfold rehydrate_history, JSON_parse. rewrite Hm.
  destruct Ht as [->|[Hv Ha]]; [done|].
  destruct (truthy text); [|done]. rewrite Hv.
  destruct (parse text) as [j|] eqn:E; [|done].
  rewrite decode_history_not_array; [done|].
  intros l ->. apply parse_array_text in E. congruence.
Qed.

End InitEdges.

(** X9.  A stored balance text that does not start with a number makes
    the balance NaN on load, and NaN stays: a non-blank submit then always
    passes the balance check and starts a call, a successful generation
    and a purchase both leave NaN, and the text written back reads as NaN
    again on the next load. *)
Theorem nan_balance_is_sticky (m : gmap string string) (text id1 id2 : string)
    (s : State) :
  m !! KEY_POINTS = Some text ->
  parseInt text = NaN ->
  points s = NaN ->
  points (mount id1 id2 (Some m)).1 = NaN
  /\ (forall newId now,
        truthy (trim (inputValue s)) = true -> isGenerating s = false ->
        exists s1 p, sendMessage_begin newId now s = (s1, Some p))
  /\ (forall p o st, points (sendMessage_settle p o st s) = NaN)
  /\ (forall amount amountText,
        points (handleBuyPoints amount amountText s) = NaN)
  /\ parseInt (toString (points s)) = NaN
  /\ generations_left (points s) = NaN.
Proof.
  intros Hm Hp Hs. split; [|split; [|split; [|split]]].
  - rewrite mount_points. simpl. by rewrite Hm.
  - intros newId now Ht Hg. unfold sendMessage_begin.
    rewrite Ht, Hg, Hs. simpl. eauto.
  - intros p [r|] st; simpl; [|done]. destruct (success r); simpl; [|done].
    by rewrite Hs.
  - intros. simpl. by rewrite Hs.
  - by rewrite Hs.
Qed.

Lemma nan_balance_is_sticky_witness :
  parseInt "abc" = NaN
  /\ points (mount "u1" "s1" (Some {[ KEY_POINTS := "abc" ]})).1 = NaN.
Proof.
  split; [reflexivity|].
  apply (nan_balance_is_sticky {[ KEY_POINTS := "abc" ]} "abc" "u1" "s1"
           (setPoints NaN initial_state)); [vm_compute|..]; reflexivity.
Defined.

(** X10.  When [JSON.parse] throws on the stored history text (the text is
    not empty and is not JSON), the rest of the initialising effect is
    skipped: the page loads with an empty archive and with empty user and
    session ids (none is read, generated or stored), keeping only the
    balance read before; the persisting effect then replaces the stored
    history text by that of the empty archive. *)
Theorem malformed_history_aborts_init (m : gmap string string)
    (text id1 id2 : string) :
  m !! KEY_HISTORY = Some text ->
  truthy text = true ->
  Json.valid text = false ->
  userId (mount id1 id2 (Some m)).1 = ""
  /\ sessionId (mount id1 id2 (Some m)).1 = ""
  /\ history (mount id1 id2 (Some m)).1 = []
  /\ points (mount id1 id2 (Some m)).1 = stored_points (Some m)
  /\ exists m', (mount id1 id2 (Some m)).2 = Some m'
       /\ m' !! KEY_USER = m !! KEY_USER
       /\ m' !! KEY_SESSION = m !! KEY_SESSION
       /\ m' !! KEY_HISTORY = Some "[]".
Proof.
  intros Hm Ht Hp. destruct keys_distinct as (? & ? & ? & ? & ? & ?).
  unfold mount, init_effect.
  set (s0 := match m !! KEY_POINTS with
             | Some t => setPoints (parseInt t) initial_state
             | None => initial_state
             end).
  rewrite (rehydrate_syntax_error m text s0 Hm Ht Hp).
  assert (history s0 = [] /\ userId s0 = "" /\ sessionId s0 = ""
          /\ points s0 = stored_points (Some m)) as (Hh & Hu & Hs & Hpt)
    by (subst s0; simpl; by destruct (m !! KEY_POINTS)).
  cbn [fst snd]. repeat (split; [done|]).
  destruct (run_effects_persisted initial_state s0
              (<[KEY_HISTORY := stringify (encode_history (history initial_state))]>
                 (<[KEY_POINTS := toString (points initial_state)]> m)))
    as (m' & Hm' & Hp' & Hh' & Hu' & Hs').
  { by rewrite lookup_insert_ne, lookup_insert_eq. }
  { by rewrite lookup_insert_eq. }
  exists m'. split; [rewrite <- Hm'; reflexivity|].
  rewrite !lookup_insert_ne in Hu', Hs' by done.
  rewrite Hu', Hs', Hh', Hh. done.
Qed.

Lemma malformed_history_aborts_init_witness :
  Json.valid "{oops" = false
  /\ userId (mount "u1" "s1" (Some {[ KEY_HISTORY := "{oops" ]})).1 = "".
Proof.
  assert (H : Json.valid "{oops" = false) by (vm_compute; reflexivity).
  split; [exact H|].
  apply (malformed_history_aborts_init {[ KEY_HISTORY := "{oops" ]} "{oops"
           "u1" "s1"); [vm_compute; reflexivity | reflexivity | exact H].
Defined.

(** X11.  A stored history text that is empty, or that is JSON for
    something other than an array (an object, a string, a number with or
    without fraction and exponent, a boolean or null), is ignored: the
    archive stays empty and the initialising effect goes on, so the page
    still ends up with a non-empty user id and session id (the stored
    ones, or freshly generated and stored ones). *)
Theorem non_array_history_is_ignored (m : gmap string string)
    (text id1 id2 : string) :
  m !! KEY_HISTORY = Some text ->
  (text = "" \/ (Json.valid text = true /\ Json.is_array_text text = false)) ->
  generated id1 ->
  generated id2 ->
  history (mount id1 id2 (Some m)).1 = []
  /\ truthy (userId (mount id1 id2 (Some m)).1) = true
  /\ truthy (sessionId (mount id1 id2 (Some m)).1) = true.
Proof.
  intros Hm Ht H1 H2.
  unfold mount, init_effect.
  set (s0 := match m !! KEY_POINTS with
             | Some t => setPoints (parseInt t) initial_state
             | None => initial_state
             end).
  assert (history s0 = []) as Hh by (subst s0; by destruct (m !! KEY_POINTS)).
  rewrite (rehydrate_non_array m text s0 Hm Ht).
  pose proof (ensure_id_truthy KEY_USER id1 m H1) as Hu.
  destruct (ensure_id KEY_USER id1 m) as [u m1].
  pose proof (ensure_id_truthy KEY_SESSION id2 m1 H2) as Hs.
  destruct (ensure_id KEY_SESSION id2 m1) as [i m2]. done.
Qed.

Lemma non_array_history_is_ignored_witness :
  Json.valid "1e3" = true
  /\ history (mount "u1" "s1" (Some {[ KEY_HISTORY := "1e3" ]})).1 = []
  /\ userId (mount "u1" "s1" (Some {[ KEY_HISTORY := "1e3" ]})).1 = "u1".
Proof.
  assert (H : Json.valid "1e3" = true) by (vm_compute; reflexivity).
  split; [exact H|].
  destruct (non_array_history_is_ignored {[ KEY_HISTORY := "1e3" ]} "1e3" "u1" "s1")
    as (Hh & _ & _); [vm_compute; reflexivity| |reflexivity..|].
  { right. by split. }
  split; [exact Hh|]. vm_compute. reflexivity.
Defined.

(** ** How the handlers compose *)

(** X12.  Starting a new work while a call is pending does not cancel it:
    the new session is empty under a new session id, the call stays
    pending and further submits stay blocked; when the call then reports
    success, its assistant message lands alone in the new session, while
    the archived entry holds the snapshot of the old session (its
    messages, the user message of the request and the assistant message). *)
Theorem new_work_while_sending (w : System) (p : Pending) (sid newId now : string)
    (r : AgentResult) (st : Stamp) :
  inflight w = [p] ->
  isGenerating (ui w) = true ->
  success r = true ->
  let w1 := step (EvNewWork sid) w in
  let w2 := step (EvSettle 0 (Resolved r) st) w1 in
  let entry := make_entry p st (result_text r) (make_assistant st r) in
  messages (ui w1) = []
  /\ sessionId (ui w1) = sid
  /\ inflight w1 = [p]
  /\ isGenerating (ui w1) = true
  /\ step (EvSubmit newId now) w1 = w1
  /\ messages (ui w2) = [make_assistant st r]
  /\ sessionId (ui w2) = sid
  /\ history (ui w2) = entry :: history (ui w)
  /\ entry_messages entry
     = k_messages p ++ [k_userMessage p; make_assistant st r].
Proof.
  intros Hi Hg Hs. cbv zeta.
  assert (Hg1 : isGenerating (ui (step (EvNewWork sid) w)) = true) by done.
  repeat (split; [done|]). split.
  - revert Hg1. generalize (step (EvNewWork sid) w). intros w1 Hg1.
    simpl. rewrite (sendMessage_begin_busy _ _ _ Hg1). simpl.
    rewrite app_nil_r. apply rendered_same.
  - assert (ui (step (EvSettle 0 (Resolved r) st) (step (EvNewWork sid) w))
            = sendMessage_settle p (Resolved r) st (ui (step (EvNewWork sid) w)))
      as -> by (simpl; by rewrite Hi).
    by rewrite sendMessage_settle_success.
Qed.

Lemma new_work_while_sending_witness :
  inflight Demo.sending = [Demo.pending]
  /\ messages (ui (step (EvSettle 0 (Resolved Demo.result_ok) Demo.stamp)
                     (step (EvNewWork "s2") Demo.sending)))
     = [make_assistant Demo.stamp Demo.result_ok].
Proof.
  assert (H : inflight Demo.sending = [Demo.pending]) by (vm_compute; reflexivity).
  split; [exact H|].
  destruct (new_work_while_sending Demo.sending Demo.pending "s2" "m2" "10:02"
              Demo.result_ok Demo.stamp H eq_refl eq_refl)
    as (_ & _ & _ & _ & _ & Hm & _).
  exact Hm.
Defined.

Section Reload.

Lemma mount_restores (s : State) (m : gmap string string) id1 id2 :
  persisted s m ->
  exists m', mount id1 id2 (Some m) = (restored s, Some m')
             /\ persisted (restored s) m'.
Proof.
  intros Hper.
  destruct (mount_persisted s m id1 id2 Hper)
    as (s' & m' & Hm & Hp & Hh & Hu & Hs & Hper').
  destruct (mount_shape id1 id2 (Some m)) as (h & u & i & Hshape).
  rewrite Hm in Hshape. cbn [fst] in Hshape.
  assert (s' = restored s) as ->.
  { rewrite Hshape in Hp, Hh, Hu, Hs. simpl in Hp, Hh, Hu, Hs.
    rewrite Hshape. unfold restored. by rewrite <- Hp, <- Hh, <- Hu, <- Hs. }
  by exists m'.
Qed.

Lemma restored_idem s : restored (restored s) = restored s.
Proof. done. Qed.

End Reload.

(** X14.  Reloading is idempotent: in every state of the page, a second
    reload right after a reload shows the state the first one showed.  With
    a usable store that state is the balance, archive, user id and session
    id shown before the reload over fresh cells (empty session, empty
    input, idle, dashboard); with an unusable store it is the initial
    state. *)
Theorem reload_is_idempotent (pg : Page) (id1 id2 id3 id4 : string) :
  reachable_page pg ->
  let w1 := load id1 id2 (storage (sys pg)) in
  ui (load id3 id4 (storage w1)) = ui w1
  /\ ui w1 = match storage (sys pg) with
             | Some _ => restored (ui (sys pg))
             | None => initial_state
             end.
Proof.
  intros Hpg. cbv zeta.
  destruct (reachable_page_core pg Hpg) as (_ & [_ Hst] & _).
  unfold load. destruct (storage (sys pg)) as [m|] eqn:E.
  - destruct (mount_restores (ui (sys pg)) m id1 id2 (Hst m eq_refl))
      as (m' & -> & Hper).
    simpl. destruct (mount_restores _ m' id3 id4 Hper) as (m'' & -> & _).
    done.
  - by rewrite !mount_unavailable.
Qed.

Lemma reload_is_idempotent_witness :
  ui (load "u3" "s3" (storage (load "u2" "s2" (storage (sys Demo2.page)))))
  = ui (load "u2" "s2" (storage (sys Demo2.page))).
Proof.
  apply (reload_is_idempotent Demo2.page "u2" "s2" "u3" "s3" demo2_page_reachable).
Defined.

(** X15.  The send button is disabled exactly when [sendMessage] would
    return at its first check and change nothing; when it is enabled, a
    click either starts a call, appending the user message, or (balance
    below 75) only opens the purchase dialog.  In the input, Enter without
    Shift does what the click does, and Shift+Enter or any other key
    changes nothing. *)
Theorem send_button_matches_guard (pg : Page) (k : KeyEvent) (newId now : string) :
  let s := ui (sys pg) in
  (send_disabled s = true -> sendMessage_begin newId now s = (s, None))
  /\ (send_disabled s = false ->
      (exists s1 p, sendMessage_begin newId now s = (s1, Some p)
                    /\ messages s1 = messages s ++ [k_userMessage p])
      \/ (sendMessage_begin newId now s = (setShowBuyModal true s, None)
          /\ num_lt (points s) (Num 75) = true))
  /\ (ev_key k = "Enter" -> shiftKey k = false ->
      sys (page_step (PgKey k newId now) pg) = step (EvSubmit newId now) (sys pg))
  /\ (ev_key k <> "Enter" \/ shiftKey k = true ->
      page_step (PgKey k newId now) pg = pg).
Proof.
  cbv zeta. unfold send_disabled, sendMessage_begin.
  split; [by intros ->|]. split; [|split].
  - intros ->. destruct (num_lt _ _) eqn:E; [by right|].
    left. by eexists _, _.
  - intros Hk Hs. simpl. unfold handleKeyPress.
    by rewrite bool_decide_eq_true_2, Hs.
  - intros Hk. simpl. unfold handleKeyPress.
    destruct Hk as [Hk| ->]; [by rewrite bool_decide_eq_false_2|].
    by rewrite andb_false_r.
Qed.

(** ** Generated identifiers *)

Section Ids.

Lemma base36_digit_val d :
  0 <= d < 36 -> Base36.digit_val (Base36.digit_char d) = Some d.
Proof.
  intros H. replace d with (Z.of_nat (Z.to_nat d)) by lia.
  assert (Z.to_nat d < 36)%nat as Hn by lia.
  revert Hn. generalize (Z.to_nat d). intros n Hn.
  do 36 (destruct n as [|n]; [by vm_compute|]). lia.
Qed.

Lemma base36_digits_value fuel :
  forall n rest, 0 <= n < 36 ^ Z.of_nat fuel ->
  exists k : nat, forall a,
    Base36.value a (Base36.digits fuel n rest)
    = Base36.value (a * 36 ^ Z.of_nat k + n) rest.
Proof.
  induction fuel as [|fuel IH]; intros n rest Hn.
  - exists 0%nat. intros a. simpl. change (36 ^ Z.of_nat 0) with 1 in *.
    f_equal. lia.
  - cbn [Base36.digits]. cbv zeta. destruct (n <? 36) eqn:E.
    + apply Z.ltb_lt in E. exists 1%nat. intros a. cbn [Base36.value].
      rewrite base36_digit_val by (apply Z.mod_pos_bound; lia).
      f_equal. rewrite Z.mod_small by lia. change (36 ^ Z.of_nat 1) with 36. lia.
    + apply Z.ltb_ge in E.
      rewrite Nat2Z.inj_succ, Z.pow_succ_r in Hn by lia.
      destruct (IH (n / 36)
                  (String (Base36.digit_char (n mod 36)) rest)) as [k Hk].
      { split; [apply Z.div_pos; lia|].
        apply Z.div_lt_upper_bound; lia. }
      exists (S k). intros a. rewrite Hk. cbn [Base36.value].
      rewrite base36_digit_val by (apply Z.mod_pos_bound; lia).
      f_equal. rewrite Nat2Z.inj_succ, Z.pow_succ_r by lia.
      pose proof (Z.div_mod n 36). lia.
Qed.

Lemma base36_fuel n :
  0 <= n -> n < 36 ^ Z.of_nat (S (Z.to_nat (Z.log2 n))).
Proof.
  intros Hn. pose proof (Z.log2_nonneg n) as Hl.
  rewrite Nat2Z.inj_succ, Z2Nat.id by done.
  destruct (decide (n = 0)) as [->|Hne].
  - by vm_compute.
  - pose proof (Z.log2_spec n) as [_ Hlt]; [lia|].
    assert (2 ^ Z.succ (Z.log2 n) <= 36 ^ Z.succ (Z.log2 n))
      by (apply Z.pow_le_mono_l; lia).
    lia.
Qed.

Lemma base36_value_of_nonneg n :
  0 <= n -> Base36.value 0 (Base36.of_nonneg n) = Some n.
Proof.
  intros Hn. unfold Base36.of_nonneg.
  destruct (base36_digits_value (S (Z.to_nat (Z.log2 n))) n "") as [k Hk].
  { split; [done|by apply base36_fuel]. }
  by rewrite Hk.
Qed.

Lemma base36_digits_nonempty fuel :
  forall n c acc, Base36.digits fuel n (String c acc) <> "".
Proof.
  induction fuel as [|fuel IH]; intros n c acc; [done|].
  cbn [Base36.digits]. cbv zeta. destruct (n <? 36); [done|apply IH].
Qed.

Lemma base36_of_nonneg_nonempty n : Base36.of_nonneg n <> "".
Proof.
  unfold Base36.of_nonneg. cbn [Base36.digits]. cbv zeta.
  destruct (n <? 36); [done|apply base36_digits_nonempty].
Qed.

Lemma truthy_app a b : truthy (a +:+ b) = truthy a || truthy b.
Proof. destruct a; [by destruct b|done]. Qed.

Lemma string_app_cancel a b c : a +:+ b = a +:+ c -> b = c.
Proof.
  induction a as [|x a IH]; [done|]. intros H. apply IH.
  change (String x (a +:+ b) = String x (a +:+ c)) in H. by injection H.
Qed.

End Ids.

(** X16.  An identifier made by [generateId] is never empty, whatever the
    random part is, so an identifier the page stores is found again by the
    next load; and with the same random part two identifiers are equal only
    if they were made in the same millisecond: the clock can be read back
    from the base-36 text that ends the identifier. *)
Theorem generateId_nonempty_and_timed (randomText : string) (now now' : Z) :
  0 <= now -> 0 <= now' ->
  generated (generateId randomText now)
  /\ Base36.value 0 (Base36.of_nonneg now) = Some now
  /\ (generateId randomText now = generateId randomText now' -> now = now').
Proof.
  intros Hn Hn'. split; [|split].
  - unfold generated, generateId. rewrite truthy_app.
    pose proof (base36_of_nonneg_nonempty now).
    destruct (Base36.of_nonneg now); [done|]. apply orb_true_r.
  - by apply base36_value_of_nonneg.
  - unfold generateId. intros H. apply string_app_cancel in H.
    apply (f_equal (Base36.value 0)) in H.
    rewrite !base36_value_of_nonneg in H by done. by injection H.
Qed.

Lemma generateId_nonempty_and_timed_witness :
  generated (generateId "0.4fzyo82mvyr" 1793613600000)
  /\ generateId "0.4fzyo82mvyr" 1793613600000 = "4fzyo82mvyrmvz38740".
Proof.
  split; [|by vm_compute].
  apply (generateId_nonempty_and_timed "0.4fzyo82mvyr" 1793613600000 0); lia.
Defined.

(** ** What the screens show *)

Section Shown.

(** No event but a page load takes anything out of the archive. *)
Lemma page_step_history ev pg :
  (forall id1 id2, ev <> PgCore (EvLoad id1 id2)) ->
  exists new,
    history (ui (sys (page_step ev pg))) = new ++ history (ui (sys pg))
    /\ (length new <= 1)%nat.
Proof.
  intros Hev.
  destruct ev as [e|k newId now|screen|id|id|text|v|v|on| |open|];
    try (exists []; split; [done|simpl; lia]).
  - exists (option_list (archived e (sys pg))). split.
    + apply step_history. destruct e; try done. by destruct (Hev id1 id2).
    + destruct (archived e (sys pg)); simpl; lia.
  - cbn [page_step].
    destruct (handleKeyPress k); [|exists []; split; [done|simpl; lia]].
    exists []. split; [|simpl; lia]. cbn [sys].
    by rewrite (step_history (EvSubmit newId now)).
  - exists []. split; [by destruct screen|simpl; lia].
Qed.

Lemma load_history_kept (s : State) (m : gmap string string) id1 id2 :
  persisted s m -> history (ui (load id1 id2 (Some m))) = history s.
Proof.
  intros Hper. unfold load.
  by destruct (mount_restores s m id1 id2 Hper) as (m' & -> & _).
Qed.

Lemma displayHistory_nonempty show (h : list HistoryEntry) :
  h <> [] -> displayHistory show h = h.
Proof.
  intros Hh. unfold displayHistory. destruct h; [done|].
  by rewrite andb_false_r.
Qed.

Lemma entry_matches_all e : entry_matches "" "all" "all" e = true.
Proof. done. Qed.

Lemma filteredHistory_all (l : list HistoryEntry) :
  filteredHistory "" "all" "all" l = l.
Proof.
  unfold filteredHistory. induction l as [|e l IH]; [done|].
  cbn [List.filter]. rewrite entry_matches_all. by rewrite IH.
Qed.

Lemma filters_inactive (x : View) :
  filters_active x = false ->
  historySearch x = "" /\ historyLevelFilter x = "all"
  /\ historyFormatFilter x = "all".
Proof.
  unfold filters_active. intros H.
  apply orb_false_iff in H as [H H3]. apply orb_false_iff in H as [H1 H2].
  apply negb_false_iff, bool_decide_eq_true in H2.
  apply negb_false_iff, bool_decide_eq_true in H3.
  split; [by destruct (historySearch x)|done].
Qed.

End Shown.

(** X17.  In every state of the page the counter of remaining works,
    floor(points / 75), is a non-negative integer; it shows 0 exactly when
    [sendMessage] would open the purchase dialog instead of calling the
    agent; and whenever the warning of the chat screen is shown (balance
    below 150 and at least 75) the number it prints is 1. *)
Theorem remaining_generations_shown (pg : Page) :
  reachable_page pg ->
  exists n,
    generations_left (points (ui (sys pg))) = Num n
    /\ 0 <= n
    /\ (n = 0 <->
        num_lt (points (ui (sys pg))) (Num POINTS_PER_GENERATION) = true)
    /\ (low_points_banner (points (ui (sys pg))) = true -> n = 1).
Proof.
  intros Hpg.
  destruct (reachable_page_core pg Hpg) as (_ & [(b & -> & Hb) _] & _).
  exists (b / 75). unfold low_points_banner, POINTS_PER_GENERATION. simpl.
  split; [done|]. split; [apply Z.div_pos; lia|]. split.
  - rewrite Z.ltb_lt. rewrite Z.div_small_iff by lia. lia.
  - intros H. apply andb_true_iff in H as [H1 H2].
    apply Z.ltb_lt in H1. apply Z.leb_le in H2.
    symmetry. apply Z.div_unique with (r := b - 75); lia.
Qed.

Lemma remaining_generations_shown_witness :
  exists n, generations_left (points (ui (sys Demo2.page))) = Num n /\ 0 <= n.
Proof.
  destruct (remaining_generations_shown Demo2.page demo2_page_reachable)
    as (n & H1 & H2 & _).
  by exists n.
Defined.

(** X18.  Nothing is ever taken out of the archive or changed in it:
    every event of the page, a reload over a usable store included, leaves
    the archived entries as they are and in their order, and puts at most
    one new entry in front of them.  So once an entry is archived the
    dashboard lists the newest six entries of the archive and the sample
    entries are never shown in their place. *)
Theorem archive_is_append_only (pg : Page) (ev : PageEvent) :
  reachable_page pg ->
  (storage (sys pg) = None -> forall id1 id2, ev <> PgCore (EvLoad id1 id2)) ->
  let h := history (ui (sys pg)) in
  let h' := history (ui (sys (page_step ev pg))) in
  (exists new, h' = new ++ h /\ (length new <= 1)%nat)
  /\ (h <> [] ->
      forall show, recentHistory (displayHistory show h') = take 6 h').
Proof.
  intros Hpg Hev. cbv zeta.
  assert (exists new,
            history (ui (sys (page_step ev pg)))
            = new ++ history (ui (sys pg)) /\ (length new <= 1)%nat)
    as (new & Hnew & Hlen).
  { destruct (reachable_page_core pg Hpg) as (_ & [_ Hst] & _).
    destruct (storage (sys pg)) as [m|] eqn:E.
    - assert ((exists id1 id2, ev = PgCore (EvLoad id1 id2))
              \/ (forall id1 id2, ev <> PgCore (EvLoad id1 id2)))
        as [(id1 & id2 & ->)|Hn].
      { destruct ev as [[]| | | | | | | | | | |];
          try (right; intros; discriminate).
        left. eauto. }
      + exists []. split; [|simpl; lia]. simpl. rewrite E.
        by apply load_history_kept, Hst.
      + by apply page_step_history.
    - apply page_step_history. by apply Hev. }
  split; [by exists new|].
  intros Hh show. rewrite displayHistory_nonempty; [done|].
  rewrite Hnew. destruct new; [done|done].
Qed.

Lemma archive_is_append_only_witness :
  exists new,
    history (ui (sys (page_step (PgCore (EvLoad "u2" "s2")) Demo2.page)))
    = new ++ history (ui (sys Demo2.page))
    /\ (length new <= 1)%nat.
Proof.
  assert (H : storage (sys Demo2.page) = None ->
              forall id1 id2,
                PgCore (EvLoad "u2" "s2") <> PgCore (EvLoad id1 id2))
    by (vm_compute; discriminate).
  exact (proj1 (archive_is_append_only Demo2.page (PgCore (EvLoad "u2" "s2"))
                  demo2_page_reachable H)).
Defined.

(** X19.  On the history screen the button "Criar Primeiro Trabalho" is
    offered exactly when the heading of the empty list is "Historico
    vazio", that is, when no search text and no filter is set; then the
    list is the whole archive (or the samples), so this heading is shown
    only when nothing is archived and the sample switch is off.  With a
    search text or a filter set the heading is "Nenhum resultado
    encontrado". *)
Theorem history_empty_state (pg : Page) :
  offers_first_work (view pg) = negb (filters_active (view pg))
  /\ (filters_active (view pg) = false ->
      page_filteredHistory pg
      = displayHistory (showSampleData (view pg)) (history (ui (sys pg))))
  /\ (page_filteredHistory pg = [] ->
      empty_history_title (view pg) = "Historico vazio" ->
      history (ui (sys pg)) = [] /\ showSampleData (view pg) = false)
  /\ (filters_active (view pg) = true ->
      empty_history_title (view pg) = "Nenhum resultado encontrado").
Proof.
  assert (H2 : filters_active (view pg) = false ->
               page_filteredHistory pg
               = displayHistory (showSampleData (view pg))
                   (history (ui (sys pg)))).
  { intros H. apply filters_inactive in H as (H1 & H2 & H3).
    unfold page_filteredHistory. rewrite H1, H2, H3.
    apply filteredHistory_all. }
  split; [|split; [done|split]].
  - unfold offers_first_work, filters_active.
    destruct (truthy _), (bool_decide (historyLevelFilter _ = _)),
      (bool_decide (historyFormatFilter _ = _)); done.
  - intros He Ht. unfold empty_history_title in Ht.
    destruct (filters_active (view pg)) eqn:E; [done|].
    rewrite H2 in He by done. unfold displayHistory in He.
    destruct (showSampleData (view pg)), (history (ui (sys pg))); done.
  - intros H. unfold empty_history_title. by rewrite H.
Qed.

(** X20.  The sample entries never get into the archive, whatever the
    sample switch is set to: no state of the page holds one of them in
    [history], so none is ever written to the store; and the screens list
    a sample entry exactly when the switch is on and the archive is
    empty. *)
Theorem samples_stay_out_of_archive (pg : Page) (e : HistoryEntry) :
  reachable_page pg ->
  e ∈ SAMPLE_HISTORY ->
  (e ∉ history (ui (sys pg)))
  /\ (e ∈ displayHistory (showSampleData (view pg)) (history (ui (sys pg)))
      <-> showSampleData (view pg) = true /\ history (ui (sys pg)) = []).
Proof.
  intros Hpg He.
  assert (e ∉ history (ui (sys pg))) as Hn.
  { intros Hin. destruct (archive_inv_page pg Hpg) as (_ & _ & _ & Hh).
    rewrite Forall_forall in Hh. destruct (Hh e Hin) as (H0 & _).
    assert (Forall (fun x => 0 < pageCount x) SAMPLE_HISTORY) as Hs
      by (unfold SAMPLE_HISTORY; repeat constructor).
    rewrite Forall_forall in Hs. specialize (Hs e He). lia. }
  split; [done|]. unfold displayHistory.
  destruct (showSampleData (view pg)), (history (ui (sys pg))) eqn:E;
    cbn [andb length Nat.eqb]; split; try done; by intros [? ?].
Qed.

Lemma samples_stay_out_of_archive_witness :
  Forall (fun e => e ∉ history (ui (sys Demo2.page))) SAMPLE_HISTORY.
Proof.
  apply Forall_forall. intros e He.
  exact (proj1 (samples_stay_out_of_archive Demo2.page e
                  demo2_page_reachable He)).
Defined.

(** ** The Markdown renderer *)

Section MarkdownFacts.

Import Markdown.

Lemma split_bold_two inside acc c c' s :
  split_bold inside acc (String c (String c' s))
  = if Ascii.eqb c "*" && Ascii.eqb c' "*" && (inside || closes s)
    then acc :: split_bold (negb inside) "" s
    else split_bold inside (acc +:+ String c "") (String c' s).
Proof. done. Qed.

Lemma split_bold_nonempty inside acc s : split_bold inside acc s <> [].
Proof.
  revert inside acc. induction s as [|c s IH]; intros inside acc; [done|].
  cbn [split_bold]. destruct s as [|c' s'']; [done|].
  destruct (Ascii.eqb c "*" && Ascii.eqb c' "*" && (inside || closes s''));
    [done|apply IH].
Qed.

Lemma closes_tail c c' s :
  Ascii.eqb c "*" && Ascii.eqb c' "*" = false ->
  closes (String c (String c' s)) = true -> closes (String c' s) = true.
Proof.
  intros Hm. cbn [closes startsWith]. rewrite (Ascii.eqb_sym "*" c').
  replace (if Ascii.eqb c' "*" then true else false) with (Ascii.eqb c' "*")
    by (by destruct (Ascii.eqb c' "*")).
  rewrite Hm. by destruct (is_line_terminator c).
Qed.

Lemma unsplit_cons_false x l :
  l <> [] -> unsplit false (x :: l) = x +:+ "**" +:+ unsplit true l.
Proof. by destruct l. Qed.

(** Putting the markers back between the pieces gives the text split. *)
Lemma split_bold_unsplit (n : nat) :
  forall s inside acc,
    (String.length s <= n)%nat ->
    (inside = true -> closes s = true) ->
    unsplit inside (split_bold inside acc s) = acc +:+ s.
Proof.
  induction n as [|n IH]; intros s inside acc Hn Hc.
  - destruct s; [|simpl in Hn; lia].
    destruct inside; [by discriminate Hc|]. simpl. by rewrite app_empty_r.
  - destruct s as [|c [|c' s'']].
    + destruct inside; [by discriminate Hc|]. simpl. by rewrite app_empty_r.
    + destruct inside; [|done].
      specialize (Hc eq_refl). cbn [closes startsWith] in Hc.
      rewrite andb_false_r in Hc. by destruct (is_line_terminator c).
    + rewrite split_bold_two.
      destruct (Ascii.eqb c "*" && Ascii.eqb c' "*") eqn:Em.
      * apply andb_true_iff in Em as [E1 E2].
        apply Ascii.eqb_eq in E1 as ->. apply Ascii.eqb_eq in E2 as ->.
        cbn [andb]. destruct inside.
        -- cbn [orb negb unsplit]. rewrite IH; [done|simpl in *; lia|done].
        -- cbn [orb negb]. destruct (closes s'') eqn:Ec; cbv iota.
           ++ rewrite unsplit_cons_false by apply split_bold_nonempty.
              rewrite IH; [done|simpl in *; lia|done].
           ++ rewrite IH; [|simpl in *; lia|done].
              by rewrite app_assoc'.
      * cbn [andb]. rewrite IH; [by rewrite app_assoc'|simpl in *; lia|].
        intros Hi. by apply (closes_tail c), Hc.
Qed.

Lemma startsWith_two c c' s :
  startsWith (String c (String c' s)) "**"
  = Ascii.eqb c "*" && Ascii.eqb c' "*".
Proof.
  cbn [startsWith]. rewrite (Ascii.eqb_sym "*" c), (Ascii.eqb_sym "*" c').
  by destruct (Ascii.eqb c "*"), (Ascii.eqb c' "*").
Qed.

(** A text without [**] is one piece. *)
Lemma split_bold_plain s :
  forall acc, includes s "**" = false -> split_bold false acc s = [acc +:+ s].
Proof.
  induction s as [|c s IH]; intros acc Hi; [by rewrite app_empty_r|].
  destruct s as [|c' s'']; [done|]. rewrite split_bold_two.
  cbn [includes] in Hi. rewrite startsWith_two in Hi.
  destruct (Ascii.eqb c "*" && Ascii.eqb c' "*"); [done|].
  cbn [andb]. rewrite IH by done. by rewrite app_assoc'.
Qed.

Lemma piece_source k x :
  inline_source (piece k 0 x)
  = if Nat.odd k then "**" +:+ x +:+ "**" else x.
Proof. unfold piece. rewrite Nat.add_0_r. by destruct (Nat.odd k). Qed.

Lemma pieces_source (l : list string) :
  forall k,
    (Nat.odd k = false ->
     foldr (fun x acc => inline_source x +:+ acc) "" (imap (piece k) l)
     = unsplit false l)
    /\ (Nat.odd k = true -> l <> [] ->
        foldr (fun x acc => inline_source x +:+ acc) "" (imap (piece k) l)
        = "**" +:+ unsplit true l).
Proof.
  induction l as [|x l IH]; intros k; [done|].
  assert (imap (piece k ∘ S) l = imap (piece (S k)) l) as Hs.
  { apply imap_ext. intros i y _. unfold piece, compose.
    by replace (k + S i)%nat with (S k + i)%nat by lia. }
  destruct (IH (S k)) as [IH0 IH1].
  rewrite Nat.odd_succ, <- Nat.negb_odd in IH0, IH1.
  cbn [imap foldr]. rewrite Hs, piece_source.
  split; intros Hk; rewrite Hk in *.
  - destruct l as [|y l].
    + simpl. by rewrite app_empty_r.
    + rewrite IH1 by done. done.
  - intros _. cbn [unsplit]. rewrite IH0 by done.
    by rewrite !app_assoc'.
Qed.

Lemma newline_char c : (code c =? 10)%N = true -> c = ascii_of_N 10.
Proof.
  intros H. apply N.eqb_eq in H. unfold code in H.
  by rewrite <- (ascii_N_embedding c), H.
Qed.

Lemma split_lines_nonempty s : forall acc, split_lines acc s <> [].
Proof.
  induction s as [|c s IH]; intros acc; [done|].
  cbn [split_lines]. destruct (code c =? 10)%N; [done|apply IH].
Qed.

Lemma join_lines_cons x l :
  l <> [] -> join_lines (x :: l) = x +:+ String (ascii_of_N 10) (join_lines l).
Proof. by destruct l. Qed.

Lemma split_lines_join s : forall acc, join_lines (split_lines acc s) = acc +:+ s.
Proof.
  induction s as [|c s IH]; intros acc; [by rewrite app_empty_r|].
  cbn [split_lines]. destruct (code c =? 10)%N eqn:E.
  - rewrite join_lines_cons by apply split_lines_nonempty.
    rewrite IH. by rewrite (newline_char c E).
  - rewrite IH. by rewrite app_assoc'.
Qed.

Lemma skip_digits_suffix s : exists pre, s = pre +:+ skip_digits s.
Proof.
  induction s as [|c s [pre IH]]; [by exists ""|].
  cbn [skip_digits]. destruct (Decimal.starts_with_digit (String c s)).
  - exists (String c pre). by rewrite app_cons, <- IH.
  - by exists "".
Qed.

Lemma numbered_suffix line rest :
  numbered line = Some rest -> exists pre, line = pre +:+ rest.
Proof.
  unfold numbered. destruct (Decimal.starts_with_digit line); [|done].
  destruct (skip_digits_suffix line) as [pre Hpre].
  destruct (skip_digits line) as [|dot [|sp r]]; [done|done|].
  destruct (Ascii.eqb dot "." && is_white sp); [|done].
  intros [= <-]. exists (pre +:+ String dot (String sp "")).
  by rewrite app_assoc'.
Qed.

Lemma formatInline_source text : result_source (formatInline text) = text.
Proof.
  unfold formatInline. cbv zeta.
  destruct (length (split_bold false "" text) =? 1)%nat; [done|].
  cbn [result_source].
  destruct (pieces_source (split_bold false "" text) 0) as [H _].
  etransitivity; [apply (H eq_refl)|].
  by rewrite (split_bold_unsplit (String.length text)).
Qed.

Lemma startsWith_slice line p :
  startsWith line p = true -> line = p +:+ slice (String.length p) line.
Proof.
  intros H. apply startsWith_spec in H as [post ->]. f_equal.
  induction p as [|a p IH]; [by destruct post|]. by rewrite app_cons.
Qed.

End MarkdownFacts.

Ltac in_list :=
  repeat first [apply list_elem_of_here | apply list_elem_of_further].

(** X21.  [formatInline] loses no text: putting [**] back around every
    piece it shows in bold gives the text it was called with, so a [**]
    that has no partner on its line stays visible; and a text without
    [**] is returned as it is. *)
Theorem formatInline_keeps_text (text : string) :
  Markdown.result_source (Markdown.formatInline text) = text
  /\ (includes text "**" = false ->
      Markdown.formatInline text = Markdown.Whole text).
Proof.
  split; [apply formatInline_source|].
  intros H. unfold Markdown.formatInline. cbv zeta.
  by rewrite split_bold_plain.
Qed.

(** X22.  [renderMarkdown] returns null exactly for the empty text.
    Otherwise it renders one element per line of the text, keyed by the
    position of the line, and the lines joined by line feeds are the text;
    a line rendered as the spacer is blank, and of any other line the
    element shows everything but a heading or list marker at its start
    (and the paired [**] markers): a paragraph shows the whole line. *)
Theorem renderMarkdown_keeps_lines (text : string) :
  (Markdown.renderMarkdown text = None <-> text = "")
  /\ forall blocks, Markdown.renderMarkdown text = Some blocks ->
       let lines := Markdown.split_lines "" text in
       Markdown.join_lines lines = text
       /\ length blocks = length lines
       /\ forall i line, lines !! i = Some line ->
            exists b, blocks !! i = Some b
              /\ Markdown.key b = i
              /\ match Markdown.children b with
                 | None => trim line = ""
                 | Some r =>
                     (exists pre, pre ∈ Markdown.markers
                                  /\ line = pre +:+ Markdown.result_source r)
                     \/ (Markdown.numbered line = Some (Markdown.result_source r)
                         /\ exists pre, line = pre +:+ Markdown.result_source r)
                 end
              /\ (Markdown.tag b = "p" -> Markdown.children b
                    = Some (Markdown.formatInline line)).
Proof.
  unfold Markdown.renderMarkdown. split; [by destruct text|].
  intros blocks H. destruct (negb (truthy text)); [done|].
  injection H as <-. cbv zeta.
  split; [apply split_lines_join|]. split; [apply length_imap|].
  intros i line Hl. exists (Markdown.render_line i line).
  split; [by rewrite list_lookup_imap, Hl|].
  unfold Markdown.render_line, Markdown.element, Markdown.markers.
  assert (Hm : forall p, p ∈ ["### "; "## "; "# "; "- "; "* "; ""] ->
                startsWith line p = true ->
                exists pre, pre ∈ ["### "; "## "; "# "; "- "; "* "; ""]
                  /\ line = pre +:+ Markdown.slice (String.length p) line).
  { intros p Hp E. exists p. split; [done|by apply startsWith_slice]. }
  destruct (startsWith line "### ") eqn:E1.
  { cbn [Markdown.key Markdown.children Markdown.tag].
    split; [done|split; [|done]]. rewrite formatInline_source. left.
    apply (Hm "### "); [in_list|done]. }
  destruct (startsWith line "## ") eqn:E2.
  { cbn [Markdown.key Markdown.children Markdown.tag].
    split; [done|split; [|done]]. rewrite formatInline_source. left.
    apply (Hm "## "); [in_list|done]. }
  destruct (startsWith line "# ") eqn:E3.
  { cbn [Markdown.key Markdown.children Markdown.tag].
    split; [done|split; [|done]]. rewrite formatInline_source. left.
    apply (Hm "# "); [in_list|done]. }
  destruct (startsWith line "- ") eqn:E4.
  { cbn [orb Markdown.key Markdown.children Markdown.tag].
    split; [done|split; [|done]]. rewrite formatInline_source. left.
    apply (Hm "- "); [in_list|done]. }
  destruct (startsWith line "* ") eqn:E5.
  { cbn [orb Markdown.key Markdown.children Markdown.tag].
    split; [done|split; [|done]]. rewrite formatInline_source. left.
    apply (Hm "* "); [in_list|done]. }
  cbn [orb]. destruct (Markdown.numbered line) as [rest|] eqn:En.
  - cbn [Markdown.key Markdown.children Markdown.tag].
    split; [done|split; [|done]].
    rewrite formatInline_source. right. split; [done|].
    by apply numbered_suffix.
  - destruct (truthy (trim line)) eqn:Et;
      cbn [negb Markdown.key Markdown.children Markdown.tag].
    + split; [done|split; [|done]].
      rewrite formatInline_source. left. exists "".
      split; [in_list|done].
    + split; [done|split; [|done]]. by destruct (trim line).
Qed.
